(** * pycln: the AST utilities of [pycln/utils/astu.py]

    A shallow embedding of the analyzers of [astu.py] (import and source
    collectors, the importable-names resolver, the side-effect classifier,
    the wildcard expander and the placeholder pruner) together with the
    properties checked against them. *)

From Stdlib Require Import ZArith String List Lia.
From stdpp Require Import base decidable option list strings gmap sets.

Import ListNotations.
Set Warnings "-register-all".
Local Open Scope string_scope.
Local Open Scope Z_scope.

(** ** Python values and syntax trees

    The module works on the objects of Python's [ast] package through their
    dynamic interface ([iter_fields], [iter_child_nodes], [isinstance],
    attribute access), so trees are embedded as dynamically typed values.
    A node is [VAst]: its object identity [oid] (sets of nodes such as
    [__not_importables] compare nodes by identity), its class name, the
    position attributes [lineno] and [col_offset] (absent on [Module], on
    contexts and on nodes built by hand) and its fields in [_fields]
    order. *)

Inductive value : Type :=
| VNone
| VStr (s : string)
| VInt (z : Z)
| VBool (b : bool)
| VList (items : list value)
| VAst (oid : nat) (cls : string) (lineno col_offset : option Z)
       (fields : list (string * value)).

Definition Path := string.

(* Constants. *)
Definition DOT : string := ".".
Definition STAR : string := "*".
Definition EMPTY : string := "".

(** [isinstance(v, AST)] *)
Definition is_AST (v : value) : bool :=
  match v with VAst _ _ _ _ _ => true | _ => false end.

(** [isinstance(v, ast.<c>)] *)
Definition isinstance (v : value) (c : string) : bool :=
  match v with VAst _ k _ _ _ => String.eqb k c | _ => false end.

(** [id(v)] of a node, used as the key of identity-based sets. *)
Definition oid_of (v : value) : nat :=
  match v with VAst i _ _ _ _ => i | _ => 0%nat end.

Definition lineno_of (v : value) : option Z :=
  match v with VAst _ _ l _ _ => l | _ => None end.

Definition col_offset_of (v : value) : option Z :=
  match v with VAst _ _ _ c _ => c | _ => None end.

(** [ast.iter_fields(node)] *)
Definition iter_fields (node : value) : list (string * value) :=
  match node with VAst _ _ _ _ fs => fs | _ => [] end.

Fixpoint assoc (k : string) (fs : list (string * value)) : option value :=
  match fs with
  | [] => None
  | (k', v) :: rest => if String.eqb k k' then Some v else assoc k rest
  end.

(** [node.__dict__.get(name, None)] *)
Definition dict_get (node : value) (name : string) : value :=
  match assoc name (iter_fields node) with Some v => v | None => VNone end.

(** Attribute access. On the nodes of the grammar the attributes read
    below are always there, with the type the grammar gives them; the
    default of each accessor is never reached on such nodes.

    [node.<name>] for a field that holds a list. *)
Definition list_attr (node : value) (name : string) : list value :=
  match dict_get node name with VList l => l | _ => [] end.

(** [node.<name>] for a field that holds [None] or a string. *)
Definition str_attr (node : value) (name : string) : option string :=
  match dict_get node name with VStr s => Some s | _ => None end.

(** Python truthiness of the values met here. *)
Definition truthy (v : value) : bool :=
  match v with
  | VNone => false
  | VStr s => negb (String.eqb s "")
  | VInt z => negb (Z.eqb z 0)
  | VBool b => b
  | VList l => match l with [] => false | _ => true end
  | VAst _ _ _ _ _ => true
  end.

(** [len(v)]; [None] stands for the [TypeError] of an object without
    length. *)
Definition py_len (v : value) : option nat :=
  match v with
  | VList l => Some (length l)
  | VStr s => Some (String.length s)
  | _ => None
  end.

(** The children yielded by one field in [ast.iter_child_nodes]. *)
Definition field_child_nodes (v : value) : list value :=
  match v with
  | VList items => filter (fun i => is_AST i = true) items
  | VAst _ _ _ _ _ => [v]
  | _ => []
  end.

(** [ast.iter_child_nodes(node)] *)
Definition iter_child_nodes (node : value) : list value :=
  flat_map (fun fv => field_child_nodes (snd fv)) (iter_fields node).

(** ** The nodes of the grammar

    The node classes met in this development, as the parser builds them:
    fields in the order of [_fields] (Python 3.8), a position on
    statements and expressions. *)

Module Ast.
Definition opt_str (o : option string) : value :=
  match o with Some s => VStr s | None => VNone end.

(** [ast.Load()], [ast.Store()] *)
Definition ctx (oid : nat) (cls : string) : value := VAst oid cls None None [].

Definition alias (oid : nat) (name : string) (asname : option string) : value :=
  VAst oid "alias" None None [("name", VStr name); ("asname", opt_str asname)].

(** The aliases of an import statement, as the parser builds them. *)
Definition is_alias (v : value) : Prop :=
  exists oid name asname, v = alias oid name asname.

Definition Module_ (oid : nat) (body : list value) : value :=
  VAst oid "Module" None None [("body", VList body); ("type_ignores", VList [])].

Definition Import (oid : nat) (lineno col_offset : Z) (names : list value) : value :=
  VAst oid "Import" (Some lineno) (Some col_offset) [("names", VList names)].

Definition ImportFrom (oid : nat) (lineno col_offset : Z)
    (module : option string) (names : list value) (level : Z) : value :=
  VAst oid "ImportFrom" (Some lineno) (Some col_offset)
    [("module", opt_str module); ("names", VList names); ("level", VInt level)].

Definition Expr (oid : nat) (lineno col_offset : Z) (v : value) : value :=
  VAst oid "Expr" (Some lineno) (Some col_offset) [("value", v)].

Definition Call (oid : nat) (lineno col_offset : Z) (func : value)
    (args : list value) : value :=
  VAst oid "Call" (Some lineno) (Some col_offset)
    [("func", func); ("args", VList args); ("keywords", VList [])].

Definition Name (oid : nat) (lineno col_offset : Z) (id : string) (c : value) : value :=
  VAst oid "Name" (Some lineno) (Some col_offset) [("id", VStr id); ("ctx", c)].

Definition Constant (oid : nat) (lineno col_offset : Z) (v : value) : value :=
  VAst oid "Constant" (Some lineno) (Some col_offset) [("value", v); ("kind", VNone)].

Definition Tuple (oid : nat) (lineno col_offset : Z) (elts : list value)
    (c : value) : value :=
  VAst oid "Tuple" (Some lineno) (Some col_offset) [("elts", VList elts); ("ctx", c)].

Definition Assign (oid : nat) (lineno col_offset : Z) (targets : list value)
    (v : value) : value :=
  VAst oid "Assign" (Some lineno) (Some col_offset)
    [("targets", VList targets); ("value", v); ("type_comment", VNone)].

Definition arguments (oid : nat) : value :=
  VAst oid "arguments" None None
    [("posonlyargs", VList []); ("args", VList []); ("vararg", VNone);
     ("kwonlyargs", VList []); ("kw_defaults", VList []); ("kwarg", VNone);
     ("defaults", VList [])].

Definition FunctionDef (oid : nat) (lineno col_offset : Z) (name : string)
    (args : value) (body : list value) : value :=
  VAst oid "FunctionDef" (Some lineno) (Some col_offset)
    [("name", VStr name); ("args", args); ("body", VList body);
     ("decorator_list", VList []); ("returns", VNone); ("type_comment", VNone)].

Definition If (oid : nat) (lineno col_offset : Z) (test : value)
    (body orelse : list value) : value :=
  VAst oid "If" (Some lineno) (Some col_offset)
    [("test", test); ("body", VList body); ("orelse", VList orelse)].

Definition Pass (oid : nat) (lineno col_offset : Z) : value :=
  VAst oid "Pass" (Some lineno) (Some col_offset) [].
End Ast.

(** ** [ast.NodeVisitor]

    [generic_visit] as the standard library writes it: a loop over the
    fields, and over the items of a list field, calling [visit] on every
    node met. The visitor's attributes are threaded as the state [S]. *)

Section NodeVisitor.
Context {S : Type} (visit : value -> S -> S).

Fixpoint visit_items (items : list value) (st : S) : S :=
  match items with
  | [] => st
  | item :: rest =>
      visit_items rest (if is_AST item then visit item st else st)
  end.

Fixpoint visit_fields (fs : list (string * value)) (st : S) : S :=
  match fs with
  | [] => st
  | (_, v) :: rest =>
      visit_fields rest
        match v with
        | VList items => visit_items items st
        | VAst _ _ _ _ _ => visit v st
        | _ => st
        end
  end.

Definition NodeVisitor_generic_visit (node : value) (st : S) : S :=
  match node with
  | VAst _ _ _ _ fs => visit_fields fs st
  | _ => st
  end.
End NodeVisitor.

(** ** Import statements statistics *)

Record ImportStats := mkImportStats {
  import_ : gset nat;   (* Set[ast.Import], by node identity *)
  from_ : gset nat      (* Set[ast.ImportFrom], by node identity *)
}.

Module ImportAnalyzer.
(** [__init__] *)
Definition init : ImportStats := mkImportStats ∅ ∅.

Definition visit_Import (generic_visit : value -> ImportStats -> ImportStats)
    (node : value) (st : ImportStats) : ImportStats :=
  generic_visit node (mkImportStats ({[ oid_of node ]} ∪ import_ st) (from_ st)).

Definition visit_ImportFrom (generic_visit : value -> ImportStats -> ImportStats)
    (node : value) (st : ImportStats) : ImportStats :=
  generic_visit node (mkImportStats (import_ st) ({[ oid_of node ]} ∪ from_ st)).

Fixpoint visit (node : value) (st : ImportStats) {struct node} : ImportStats :=
  match node with
  | VAst _ cls _ _ fs =>
      if String.eqb cls "Import" then
        visit_Import (NodeVisitor_generic_visit visit) node st
      else if String.eqb cls "ImportFrom" then
        visit_ImportFrom (NodeVisitor_generic_visit visit) node st
      else NodeVisitor_generic_visit visit node st
  | _ => st
  end.

Definition get_stats (st : ImportStats) : ImportStats := st.

Definition reset_stats (st : ImportStats) : ImportStats := mkImportStats ∅ ∅.
End ImportAnalyzer.

(** ** Source code ([ast.Name] and [ast.Attribute]) statistics *)

Record SourceStats := mkSourceStats {
  name_ : gset string;
  attr_ : gset string
}.

(** [node.<name>] for a field the grammar declares as an identifier. *)
Definition ident_attr (node : value) (name : string) : string :=
  default "" (str_attr node name).

Module SourceAnalyzer.
Definition init : SourceStats := mkSourceStats ∅ ∅.

Definition visit_Name (generic_visit : value -> SourceStats -> SourceStats)
    (node : value) (st : SourceStats) : SourceStats :=
  generic_visit node (mkSourceStats ({[ ident_attr node "id" ]} ∪ name_ st) (attr_ st)).

Definition visit_Attribute (generic_visit : value -> SourceStats -> SourceStats)
    (node : value) (st : SourceStats) : SourceStats :=
  generic_visit node (mkSourceStats (name_ st) ({[ ident_attr node "attr" ]} ∪ attr_ st)).

Fixpoint visit (node : value) (st : SourceStats) {struct node} : SourceStats :=
  match node with
  | VAst _ cls _ _ fs =>
      if String.eqb cls "Name" then
        visit_Name (NodeVisitor_generic_visit visit) node st
      else if String.eqb cls "Attribute" then
        visit_Attribute (NodeVisitor_generic_visit visit) node st
      else NodeVisitor_generic_visit visit node st
  | _ => st
  end.

Definition get_stats (st : SourceStats) : SourceStats := st.

Definition reset_stats (st : SourceStats) : SourceStats := mkSourceStats ∅ ∅.
End SourceAnalyzer.

(** ** Side effects *)

Inductive HasSideEffects : Type :=
| YES         (* 1 *)
| MAYBE       (* 0.5 *)
| NO          (* 0 *)
| NOT_KNOWN.  (* -1: an exception was raised while parsing a file *)

Global Instance HasSideEffects_eq_dec : EqDecision HasSideEffects.
Proof. solve_decision. Defined.

(** The numeric value of each member, doubled to stay in [Z]. *)
Definition HasSideEffects_value2 (v : HasSideEffects) : Z :=
  match v with YES => 2 | MAYBE => 1 | NO => 0 | NOT_KNOWN => -2 end.

Module SideEffectsAnalyzer.

Record t := mk {
  not_side_effect : gset nat;     (* Set[ast.Call], by node identity *)
  verdict : HasSideEffects        (* __has_side_effects *)
}.

(** [__init__] *)
Definition init : t := mk ∅ NO.

Definition has_side_effects (st : t) : HasSideEffects := verdict st.

Definition reset (st : t) : t := mk (not_side_effect st) NO.

(** Mark any call statement directly inside a function or a class as
    not-side-effect (the loop of [visit_FunctionDef] and
    [visit_ClassDef]). *)
Definition mark_calls (node : value) (st : t) : t :=
  fold_left
    (fun st node_ =>
       if isinstance node_ "Expr" then
         if isinstance (dict_get node_ "value") "Call" then
           mk ({[ oid_of (dict_get node_ "value") ]} ∪ not_side_effect st) (verdict st)
         else st
       else st)
    (iter_child_nodes node) st.

Section Registries.
(** [pathu.get_standard_lib_names()] and
    [pathu.IMPORTS_WITH_SIDE_EFFECTS]: the two registries of module
    names kept by [pathu]. *)
Variables (get_standard_lib_names IMPORTS_WITH_SIDE_EFFECTS : gset string).

(** The loop over [node.names] shared by [visit_Import] and
    [visit_ImportFrom]: [continue] on a standard name, [break] on a
    name with side effects. *)
Fixpoint names_loop (names : list value) (v : HasSideEffects) : HasSideEffects :=
  match names with
  | [] => v
  | alias :: rest =>
      if bool_decide (ident_attr alias "name" ∈ get_standard_lib_names) then
        names_loop rest v
      else if bool_decide (ident_attr alias "name" ∈ IMPORTS_WITH_SIDE_EFFECTS) then
        YES
      else names_loop rest MAYBE
  end.

(** The overridden [generic_visit]: continue visiting only if there
    is no known side effect. *)
Definition generic_visit (visit : value -> t -> t) (node : value) (st : t) : t :=
  if decide (verdict st = YES) then st
  else NodeVisitor_generic_visit visit node st.

Definition visit_FunctionDef (generic_visit : value -> t -> t)
    (node : value) (st : t) : t :=
  generic_visit node (mark_calls node st).

Definition visit_ClassDef (generic_visit : value -> t -> t)
    (node : value) (st : t) : t :=
  generic_visit node (mark_calls node st).

Definition visit_Call (generic_visit : value -> t -> t)
    (node : value) (st : t) : t :=
  generic_visit node
    (if bool_decide (oid_of node ∈ not_side_effect st) then st
     else mk (not_side_effect st) YES).

Definition visit_Import (generic_visit : value -> t -> t)
    (node : value) (st : t) : t :=
  generic_visit node
    (mk (not_side_effect st) (names_loop (list_attr node "names") (verdict st))).

Definition visit_ImportFrom (generic_visit : value -> t -> t)
    (node : value) (st : t) : t :=
  generic_visit node
    (mk (not_side_effect st) (names_loop (list_attr node "names") (verdict st))).

Fixpoint visit (node : value) (st : t) {struct node} : t :=
  match node with
  | VAst _ cls _ _ fs =>
      if String.eqb cls "FunctionDef" then
        visit_FunctionDef (generic_visit visit) node st
      else if String.eqb cls "ClassDef" then
        visit_ClassDef (generic_visit visit) node st
      else if String.eqb cls "Call" then
        visit_Call (generic_visit visit) node st
      else if String.eqb cls "Import" then
        visit_Import (generic_visit visit) node st
      else if String.eqb cls "ImportFrom" then
        visit_ImportFrom (generic_visit visit) node st
      else generic_visit visit node st
  | _ => st
  end.
End Registries.
End SideEffectsAnalyzer.

(** ** Exceptions

    The built-in exceptions that the interpreter and its libraries raise
    here, and the exceptions of [pycln.utils.exceptions] with the
    arguments they are constructed with. *)

Inductive builtin_exn : Type :=
| SyntaxError (msg : string)
| ValueError (msg : string)
| TypeError (msg : string)
| IndexError (msg : string)
| AttributeError (msg : string)
| ModuleNotFoundError (msg : option string) (name : option string)
| OSError (msg : string)
| RecursionError.

Inductive exn : Type :=
| ReadPermissionError (errno : Z) (strerror : string) (filepath : Path)
| WritePermissionError (errno : Z) (strerror : string) (filepath : Path)
| UnparsableFile (path : Path) (err : builtin_exn)
| UnexpandableImportStar (path : option Path) (line col : Z) (msg : string)
| Builtin (err : builtin_exn).

Coercion Builtin : builtin_exn >-> exn.

(** A call into the interpreter or its libraries: it returns an [A] or
    raises a built-in exception. *)
Definition builtin_result (A : Type) : Type := builtin_exn + A.

(** A computation that returns an [A] or raises. *)
Definition result (A : Type) : Type := exn + A.

(** The outcome is not an [UnexpandableImportStar] being raised. *)
Definition not_UnexpandableImportStar {A : Type} (r : result A) : Prop :=
  match r with
  | inl (UnexpandableImportStar _ _ _ _) => False
  | _ => True
  end.

(** ** [ast.NodeVisitor] for a visitor whose methods may raise

    The same loops as [NodeVisitor_generic_visit]; an exception leaves
    them at once, with the visitor's attributes as they are then. *)

Section NodeVisitorExn.
Context {S : Type} (visit : value -> S -> result unit * S).

Fixpoint visit_items_exn (items : list value) (st : S) : result unit * S :=
  match items with
  | [] => (inr tt, st)
  | item :: rest =>
      if is_AST item then
        match visit item st with
        | (inl e, st') => (inl e, st')
        | (inr _, st') => visit_items_exn rest st'
        end
      else visit_items_exn rest st
  end.

Fixpoint visit_fields_exn (fs : list (string * value)) (st : S) : result unit * S :=
  match fs with
  | [] => (inr tt, st)
  | (_, v) :: rest =>
      match
        match v with
        | VList items => visit_items_exn items st
        | VAst _ _ _ _ _ => visit v st
        | _ => (inr tt, st)
        end
      with
      | (inl e, st') => (inl e, st')
      | (inr _, st') => visit_fields_exn rest st'
      end
  end.

Definition NodeVisitor_generic_visit_exn (node : value) (st : S) : result unit * S :=
  match node with
  | VAst _ _ _ _ fs => visit_fields_exn fs st
  | _ => (inr tt, st)
  end.
End NodeVisitorExn.

(** ** Importable names *)

(** [alias.asname if alias.asname else alias.name] *)
Definition bound_name (alias : value) : string :=
  if truthy (dict_get alias "asname") then ident_attr alias "asname"
  else ident_attr alias "name".

(** [DOT * level] *)
Fixpoint str_repeat (s : string) (n : nat) : string :=
  match n with O => "" | S n' => s ++ str_repeat s n' end.

(** [node.level] of an [ast.ImportFrom]. *)
Definition level_attr (node : value) : Z :=
  match dict_get node "level" with VInt z => z | _ => 0 end.

Module ImportablesAnalyzer.

Record t := mk {
  not_importables : gset nat;   (* Set[ast.Name], by node identity *)
  stats : gset string;
  source : option Path
}.

(** [__init__] *)
Definition init : t := mk ∅ ∅ None.

Definition get_stats (st : t) : gset string := stats st.

Definition set_source (p : option Path) (st : t) : t :=
  mk (not_importables st) (stats st) p.

Definition add_stat (name : string) (st : t) : t :=
  mk (not_importables st) ({[ name ]} ∪ stats st) (source st).

Definition add_not_importable (target : value) (st : t) : t :=
  mk ({[ oid_of target ]} ∪ not_importables st) (stats st) (source st).

(** [for alias in node.names: self.__stats.add(name)] *)
Definition add_names (node : value) (st : t) : t :=
  fold_left (fun st alias => add_stat (bound_name alias) st)
            (list_attr node "names") st.

(** Compute function (or class) not-importables: the targets of the
    [ast.Assign] children of the definition. *)
Definition mark_targets (node : value) (st : t) : t :=
  fold_left
    (fun st node_ =>
       if isinstance node_ "Assign" then
         fold_left (fun st target => add_not_importable target st)
                   (list_attr node_ "targets") st
       else st)
    (iter_child_nodes node) st.

Section HandleCLibs.
(** [importlib.util.find_spec], [spec.loader.create_module] and
    [dir]: the interpreter's import machinery, over its own module
    specifications and module objects. *)
Context {ModuleSpec PyModule : Type}.
Variable find_spec :
  option string -> option string -> builtin_result (option ModuleSpec).
Variable create_module : ModuleSpec -> builtin_result (option PyModule).
Variable dir : PyModule -> list string.

(** Handle libs written in C or built-in CPython. *)
Definition handle_c_libs_importables (node : value) : result (gset string) :=
  let level_dots := str_repeat DOT (Z.to_nat (level_attr node)) in
  match find_spec (str_attr node "module")
                  (if truthy (VStr level_dots) then Some level_dots else None) with
  | inl e => inl (Builtin e)
  | inr spec =>
      match spec with
      | Some spec =>
          match create_module spec with
          | inl e => inl (Builtin e)
          | inr (Some module) => inr (list_to_set (dir module))
          | inr None => inl (Builtin (ModuleNotFoundError None (str_attr node "module")))
          end
      | None => inl (Builtin (ModuleNotFoundError None (str_attr node "module")))
      end
  end.
End HandleCLibs.

Section Visit.
(** [expand_import_star], defined below from this analyzer: given
    the node and the source it returns the node as it is after the
    call (the node is changed in place) and the outcome. [revisit]
    is [self.visit] on the children of a node that
    [expand_import_star] has rewritten, which are not part of the
    tree being walked. *)
Variable expand_import_star : value -> option Path -> value * result unit.
Variable revisit : value -> t -> result unit * t.

(** [try: body finally: final], [outcome] being how the body ended. *)
Definition finally (outcome : result unit) (final : result unit * t)
  : result unit * t :=
  match final with
  | (inl e, st) => (inl e, st)
  | (inr _, st) => (outcome, st)
  end.

(** [except UnexpandableImportStar: pass] *)
Definition except_UnexpandableImportStar (outcome : result unit) : result unit :=
  match outcome with
  | inl (UnexpandableImportStar _ _ _ _) => inr tt
  | _ => outcome
  end.

Definition visit_Import (generic_visit : value -> t -> result unit * t)
    (node : value) (st : t) : result unit * t :=
  generic_visit node (add_names node st).

Definition visit_ImportFrom (generic_visit : value -> t -> result unit * t)
    (node : value) (st : t) : result unit * t :=
  match list_attr node "names" with
  | [] =>
      finally (inl (Builtin (IndexError "list index out of range")))
              (generic_visit node st)
  | first :: _ =>
      if String.eqb (ident_attr first "name") STAR then
        (* Expand import star if possible. *)
        match expand_import_star node (source st) with
        | (node', inl e) =>
            finally (except_UnexpandableImportStar (inl e))
                    (NodeVisitor_generic_visit_exn revisit node' st)
        | (node', inr _) =>
            finally (inr tt)
                    (NodeVisitor_generic_visit_exn revisit node'
                       (add_names node' st))
        end
      else finally (inr tt) (generic_visit node (add_names node st))
  end.

Definition visit_FunctionDef (generic_visit : value -> t -> result unit * t)
    (node : value) (st : t) : result unit * t :=
  generic_visit node (mark_targets node (add_stat (ident_attr node "name") st)).

Definition visit_ClassDef (generic_visit : value -> t -> result unit * t)
    (node : value) (st : t) : result unit * t :=
  generic_visit node (mark_targets node (add_stat (ident_attr node "name") st)).

Definition visit_Name (generic_visit : value -> t -> result unit * t)
    (node : value) (st : t) : result unit * t :=
  generic_visit node
    (if isinstance (dict_get node "ctx") "Store" then
       (* Except not-importables. *)
       if bool_decide (oid_of node ∈ not_importables st) then st
       else add_stat (ident_attr node "id") st
     else st).

Fixpoint visit (node : value) (st : t) {struct node} : result unit * t :=
  match node with
  | VAst _ cls _ _ fs =>
      if String.eqb cls "Import" then
        visit_Import (NodeVisitor_generic_visit_exn visit) node st
      else if String.eqb cls "ImportFrom" then
        visit_ImportFrom (NodeVisitor_generic_visit_exn visit) node st
      else if String.eqb cls "FunctionDef" then
        visit_FunctionDef (NodeVisitor_generic_visit_exn visit) node st
      else if String.eqb cls "ClassDef" then
        visit_ClassDef (NodeVisitor_generic_visit_exn visit) node st
      else if String.eqb cls "Name" then
        visit_Name (NodeVisitor_generic_visit_exn visit) node st
      else NodeVisitor_generic_visit_exn visit node st
  | _ => (inr tt, st)
  end.
End Visit.
End ImportablesAnalyzer.

(** ** Files, the wildcard expander and the placeholder pruner *)

Inductive permission : Type := R_OK | W_OK | X_OK | F_OK.

(** [ast.alias(name=name, asname=None)]. Nothing in this module looks at
    the identity of an alias, and the nodes made here carry the identity
    [0]. *)
Definition new_alias (name : string) : value := Ast.alias 0 name None.

(** The node after [node.<name>] has been given the content [v]. *)
Fixpoint replace_field (k : string) (v : value) (fs : list (string * value))
  : list (string * value) :=
  match fs with
  | [] => []
  | (k', v') :: rest =>
      if String.eqb k k' then (k, v) :: rest else (k', v') :: replace_field k v rest
  end.

Definition set_attr (node : value) (name : string) (v : value) : value :=
  match node with
  | VAst i c l o fs => VAst i c l o (replace_field name v fs)
  | _ => node
  end.

(** [l[i] = x] on a Python list: a negative index counts from the end,
    an index out of range raises [IndexError]. *)
Definition list_setitem {A : Type} (l : list A) (i : Z) (x : A) : result (list A) :=
  let n := Z.of_nat (length l) in
  if (0 <=? i) && (i <? n) then inr (<[Z.to_nat i := x]> l)
  else if (- n <=? i) && (i <? 0) then inr (<[Z.to_nat (n + i) := x]> l)
  else inl (Builtin (IndexError "list assignment index out of range")).

(** [ast.walk(node)]: breadth first, a queue of nodes to do. The queue
    is run for as many steps as the tree has nodes. *)
Fixpoint count_nodes (node : value) (n : nat) {struct node} : nat :=
  match node with
  | VAst _ _ _ _ _ => NodeVisitor_generic_visit count_nodes node (S n)
  | _ => n
  end.

Fixpoint walk_queue (steps : nat) (todo : list value) : list value :=
  match steps, todo with
  | S steps', node :: rest =>
      node :: walk_queue steps' (rest ++ iter_child_nodes node)
  | _, _ => []
  end.

Definition walk (node : value) : list value :=
  walk_queue (count_nodes node 0) [node].

(** A visitor that counts is additive on a value when visiting it with
    [n] in hand adds to [n]; [total] is what it counts on a list of
    nodes. *)
Definition additive (visit : value -> nat -> nat) (v : value) : Prop :=
  forall n, visit v n = (n + visit v 0)%nat.

Definition total (visit : value -> nat -> nat) (nodes : list value) : nat :=
  list_sum (map (fun v => visit v 0%nat) nodes).

(** The nodes under a node: the node itself, and the nodes under its
    children. *)
Inductive descendant : value -> value -> Prop :=
| descendant_refl (node : value) : descendant node node
| descendant_child (x child parent : value) :
    child ∈ iter_child_nodes parent ->
    descendant x child ->
    descendant x parent.

Section Environment.
(** What the module takes from its surroundings. *)

(** [pathu.get_import_from_path(source, STAR, module, level)]: the path
    of the module's source file, or [None] for a module without one. *)
Variable get_import_from_path :
  option Path -> string -> option string -> Z -> option Path.

(** [os.access], the lines of [open(source, "r")], and
    [ast.parse(content, type_comments=...)]. *)
Variable os_access : Path -> permission -> bool.
Variable open_readlines : Path -> builtin_result (list string).
Variable ast_parse : string -> bool -> builtin_result value.

(** The attribute [msg] of the two exceptions of
    [pycln.utils.exceptions] that [expand_import_star] catches. *)
Variable ReadPermissionError_msg : Z -> string -> Path -> option string.
Variable UnparsableFile_msg : Path -> builtin_exn -> option string.

(** The interpreter's import machinery (see
    [handle_c_libs_importables]). *)
Context {ModuleSpec PyModule : Type}.
Variable find_spec :
  option string -> option string -> builtin_result (option ModuleSpec).
Variable create_module : ModuleSpec -> builtin_result (option PyModule).
Variable dir : PyModule -> list string.

(** [err.msg] *)
Definition msg_of (err : exn) : option string :=
  match err with
  | ReadPermissionError errno strerror filepath =>
      ReadPermissionError_msg errno strerror filepath
  | UnparsableFile path e => UnparsableFile_msg path e
  | Builtin (ModuleNotFoundError msg _) => msg
  | _ => None
  end.

(** Check these permissions before opening the file. *)
Fixpoint check_permissions (source : Path) (permissions : list permission)
  : result unit :=
  match permissions with
  | [] => inr tt
  | permission :: rest =>
      if os_access source permission then check_permissions source rest
      else
        match permission with
        | R_OK => inl (ReadPermissionError 13 "Permission denied [READ]" source)
        | W_OK => inl (WritePermissionError 13 "Permission denied [WRITE]" source)
        | _ => check_permissions source rest
        end
  end.

(** Parse source file AST. The second component holds the lines of
    the file when [get_lines] is set and is empty otherwise; what
    [sfile.read()] returns is the lines of the file joined. *)
Definition get_file_ast (source : Path) (get_lines : bool)
    (permissions : list permission) : result (value * list string) :=
  match check_permissions source permissions with
  | inl e => inl e
  | inr _ =>
      match open_readlines source with
      | inl e => inl (Builtin e)
      | inr file_lines =>
          let lines := if get_lines then file_lines else [] in
          let content := String.concat EMPTY file_lines in
          let parsed :=
            (* Include type_comments ~> Python >=3.8 . *)
            match ast_parse content true with
            | inl (TypeError _) => ast_parse content false
            | r => r
            end in
          match parsed with
          | inl (SyntaxError m) => inl (UnparsableFile source (SyntaxError m))
          | inl (ValueError m) => inl (UnparsableFile source (ValueError m))
          | inl e => inl (Builtin e)
          | inr tree => inr (tree, lines)
          end
      end
  end.

Section Expand.
(** [analyzer.visit] for the analyzer that [expand_import_star]
    creates. *)
Variable visit :
  value -> ImportablesAnalyzer.t -> result unit * ImportablesAnalyzer.t.

(** The [try] block of [expand_import_star]. *)
Definition resolve_importables (node : value) (source : option Path)
  : result (gset string) :=
  match get_import_from_path source STAR (str_attr node "module")
                             (level_attr node) with
  | Some module_path =>
      match get_file_ast module_path false [R_OK] with
      | inl e => inl e
      | inr (tree, _) =>
          let analyzer :=
            ImportablesAnalyzer.set_source source ImportablesAnalyzer.init in
          match visit tree analyzer with
          | (inl e, _) => inl e
          | (inr _, analyzer) => inr (ImportablesAnalyzer.get_stats analyzer)
          end
      end
  | None =>
      ImportablesAnalyzer.handle_c_libs_importables find_spec create_module dir node
  end.

(** The exceptions named by the [except] clause. *)
Definition caught (err : exn) : bool :=
  match err with
  | ReadPermissionError _ _ _ | UnparsableFile _ _
  | Builtin (ModuleNotFoundError _ _) => true
  | _ => false
  end.

(** [err.msg if err.msg else "module not found!"] *)
Definition cause (err : exn) : string :=
  match msg_of err with
  | Some m => if truthy (VStr m) then m else "module not found!"
  | None => "module not found!"
  end.

(** Expand import star statement, replace the [*] with a list of
    [ast.alias]. Returns the node as the call leaves it, and the
    outcome. *)
Definition expand_import_star_with (node : value) (source : option Path)
  : value * result unit :=
  match resolve_importables node source with
  | inl err =>
      if caught err then
        match lineno_of node, col_offset_of node with
        | Some lineno, Some col_offset =>
            (node, inl (UnexpandableImportStar source lineno col_offset
                          (cause err)))
        | _, _ => (node, inl (Builtin (AttributeError "lineno")))
        end
      else (node, inl err)
  | inr importables =>
      (* Create [ast.alias] for each name. *)
      match dict_get node "names" with
      | VList _ =>
          (set_attr node "names" (VList (map new_alias (elements importables))),
           inr tt)
      | _ => (node, inl (Builtin (AttributeError "names")))
      end
  end.
End Expand.

(** The analyzer and the expander call each other; [depth] is the
    number of nested calls the interpreter still allows, and a call
    beyond it raises [RecursionError]. *)
Fixpoint analyzer_visit (depth : nat) (node : value) (st : ImportablesAnalyzer.t)
  : result unit * ImportablesAnalyzer.t :=
  match depth with
  | O => (inl (Builtin RecursionError), st)
  | S d =>
      ImportablesAnalyzer.visit
        (expand_import_star_with (analyzer_visit d)) (analyzer_visit d) node st
  end.

Definition expand_import_star (depth : nat) (node : value) (source : option Path)
  : value * result unit :=
  expand_import_star_with (analyzer_visit depth) node source.

(** The body of the loop over [ast.iter_child_nodes(parent)]. *)
Fixpoint blank_passes (children : list value) (body_len : nat)
    (source_lines : list string) : result (list string) :=
  match children with
  | [] => inr source_lines
  | child :: rest =>
      if isinstance child "Pass" then
        if (1 <? body_len)%nat then
          match lineno_of child with
          | None => inl (Builtin (AttributeError "lineno"))
          | Some lineno =>
              match list_setitem source_lines (lineno - 1) EMPTY with
              | inl e => inl e
              | inr source_lines => blank_passes rest (body_len - 1) source_lines
              end
          end
        else blank_passes rest body_len source_lines
      else blank_passes rest body_len source_lines
  end.

(** One round of the loop over [ast.walk(tree)]. *)
Definition prune_parent (parent : value) (source_lines : list string)
  : result (list string) :=
  if truthy (dict_get parent "body") then
    match py_len (dict_get parent "body") with
    | Some body_len => blank_passes (iter_child_nodes parent) body_len source_lines
    | None => inr source_lines    (* except TypeError: continue *)
    end
  else inr source_lines.

Fixpoint prune_all (parents : list value) (source_lines : list string)
  : result (list string) :=
  match parents with
  | [] => inr source_lines
  | parent :: rest =>
      match prune_parent parent source_lines with
      | inl e => inl e
      | inr source_lines => prune_all rest source_lines
      end
  end.

(** Remove any useless [pass]. *)
Definition remove_useless_passes (source_lines : list string) : result (list string) :=
  match ast_parse (String.concat EMPTY source_lines) false with
  | inl e => inl (Builtin e)
  | inr tree => prune_all (walk tree) source_lines
  end.
End Environment.

(** ** What a successful expansion leaves

    [node'] is [node] with its names replaced by one alias for each name
    of [importables]: each name once, no alias renamed, and the module,
    the level and the position as in [node]. *)

Definition expanded_with (importables : gset string) (node node' : value) : Prop :=
  map (fun alias => ident_attr alias "name") (list_attr node' "names")
  = elements importables
  /\ NoDup (map (fun alias => ident_attr alias "name") (list_attr node' "names"))
  /\ (forall name,
        name ∈ map (fun alias => ident_attr alias "name") (list_attr node' "names")
        <-> name ∈ importables)
  /\ Forall (fun alias => dict_get alias "asname" = VNone
                          /\ bound_name alias = ident_attr alias "name")
            (list_attr node' "names")
  /\ dict_get node' "module" = dict_get node "module"
  /\ dict_get node' "level" = dict_get node "level"
  /\ lineno_of node' = lineno_of node
  /\ col_offset_of node' = col_offset_of node.

(** ** Sources, trees and surroundings used below *)

Module Scenario.
Definition nl : string := String (Ascii.ascii_of_nat 10) "".

Definition Load : value := Ast.ctx 90 "Load".
Definition Store : value := Ast.ctx 91 "Store".

(** Registries in which [os] and [ctypes] are standard names, and
    [ctypes] is also known for its side effects. *)
Definition std_names : gset string := {[ "os"; "sys"; "json"; "ctypes" ]}.
Definition side_effect_names : gset string := {[ "ctypes"; "antigravity" ]}.

(** [print()] followed by [import foo]. *)
Definition print_call : value :=
  Ast.Expr 2 1 0 (Ast.Call 3 1 0 (Ast.Name 4 1 0 "print" Load) []).
Definition import_foo : value := Ast.Import 5 2 0 [Ast.alias 6 "foo" None].
Definition call_then_import : value := Ast.Module_ 1 [print_call; import_foo].

(** [import ctypes] *)
Definition import_ctypes : value := Ast.Import 2 1 0 [Ast.alias 3 "ctypes" None].
Definition only_import_ctypes : value := Ast.Module_ 1 [import_ctypes].

(** [import antigravity] and [from os import getcwd] *)
Definition import_antigravity : value :=
  Ast.Import 2 1 0 [Ast.alias 3 "antigravity" None].
Definition from_os_import_getcwd : value :=
  Ast.ImportFrom 2 1 0 (Some "os") [Ast.alias 3 "getcwd" None] 0.

(** A function whose body is the call [g()]. *)
Definition g_call : value :=
  Ast.Expr 4 2 4 (Ast.Call 5 2 4 (Ast.Name 6 2 4 "g" Load) []).
Definition def_f_calls_g : value :=
  Ast.Module_ 1 [Ast.FunctionDef 2 1 0 "f" (Ast.arguments 3) [g_call]].

(** [def f(): a, b = 1, 2] and [def f(): x = 1], the body on a line
    of its own. *)
Definition def_f_tuple : value :=
  Ast.Module_ 1
    [Ast.FunctionDef 2 1 0 "f" (Ast.arguments 3)
       [Ast.Assign 4 2 4
          [Ast.Tuple 5 2 4 [Ast.Name 6 2 4 "a" Store; Ast.Name 7 2 7 "b" Store] Store]
          (Ast.Tuple 8 2 11
             [Ast.Constant 9 2 11 (VInt 1); Ast.Constant 10 2 14 (VInt 2)] Load)]].
Definition def_f_name : value :=
  Ast.Module_ 1
    [Ast.FunctionDef 2 1 0 "f" (Ast.arguments 3)
       [Ast.Assign 4 2 4 [Ast.Name 5 2 4 "x" Store] (Ast.Constant 6 2 8 (VInt 1))]].

(** [from m import *], in a file of its own. *)
Definition from_m_import_star : value :=
  Ast.ImportFrom 2 1 0 (Some "m") [Ast.alias 3 "*" None] 0.

(** [from module import *] where [module.py] defines [foo] and [x]. *)
Definition from_module_import_star : value :=
  Ast.ImportFrom 2 1 0 (Some "module") [Ast.alias 3 "*" None] 0.
Definition module_lines : list string :=
  ["def foo():" ++ nl; "    pass" ++ nl; "x = 1" ++ nl].
Definition module_tree : value :=
  Ast.Module_ 1
    [Ast.FunctionDef 2 1 0 "foo" (Ast.arguments 3) [Ast.Pass 4 2 4];
     Ast.Assign 5 3 0 [Ast.Name 6 3 0 "x" Store] (Ast.Constant 7 3 4 (VInt 1))].

(** An [if] with two statements and an [else] that only holds [pass]. *)
Definition if_else_lines : list string :=
  ["if x:" ++ nl; "    a" ++ nl; "    b" ++ nl; "else:" ++ nl; "    pass" ++ nl].
Definition if_else_tree : value :=
  Ast.Module_ 1
    [Ast.If 2 1 0 (Ast.Name 3 1 3 "x" Load)
       [Ast.Expr 4 2 4 (Ast.Name 5 2 4 "a" Load);
        Ast.Expr 6 3 4 (Ast.Name 7 3 4 "b" Load)]
       [Ast.Pass 8 5 4]].
Definition if_else_pruned : list string :=
  ["if x:" ++ nl; "    a" ++ nl; "    b" ++ nl; "else:" ++ nl; ""].

(** An [if] whose body is a single [pass]. *)
Definition if_pass_lines : list string := ["if True:" ++ nl; "    pass" ++ nl].
Definition if_pass_tree : value :=
  Ast.Module_ 1 [Ast.If 2 1 0 (Ast.Constant 3 1 3 (VBool true)) [Ast.Pass 4 2 4] []].

(** A parser known on the texts above; any other text is taken as a
    syntax error, which is what the pruned [if_else] text is: its
    [else] has no block. *)
Definition parse_table : list (string * value) :=
  [(String.concat EMPTY module_lines, module_tree);
   (String.concat EMPTY if_else_lines, if_else_tree);
   (String.concat EMPTY if_pass_lines, if_pass_tree)].

Fixpoint lookup_text (content : string) (table : list (string * value))
  : builtin_result value :=
  match table with
  | [] => inl (SyntaxError "invalid syntax")
  | (text, tree) :: rest =>
      if String.eqb content text then inr tree else lookup_text content rest
  end.

Definition ast_parse (content : string) (type_comments : bool)
  : builtin_result value :=
  lookup_text content parse_table.

(** The files: [module.py] is the only one, found for the module
    [module]; every other module has no source and no specification. *)
Definition get_import_from_path (source : option Path) (name : string)
    (module : option string) (level : Z) : option Path :=
  match module with
  | Some m => if String.eqb m "module" then Some "module.py" else None
  | None => None
  end.

Definition os_access (source : Path) (p : permission) : bool := true.

Definition open_readlines (source : Path) : builtin_result (list string) :=
  if String.eqb source "module.py" then inr module_lines
  else inl (OSError "No such file or directory").

Definition ReadPermissionError_msg (errno : Z) (strerror : string)
    (filepath : Path) : option string := Some strerror.

Definition UnparsableFile_msg (path : Path) (err : builtin_exn) : option string :=
  Some "invalid syntax".

Definition find_spec (name package : option string)
  : builtin_result (option string) := inr None.

Definition create_module (spec : string) : builtin_result (option (list string)) :=
  inr None.

Definition dir (module : list string) : list string := module.

(** The analyzer and the expander in these surroundings. *)
Definition visit (depth : nat) :=
  analyzer_visit get_import_from_path os_access open_readlines ast_parse
    ReadPermissionError_msg UnparsableFile_msg find_spec create_module dir depth.

Definition expand (depth : nat) :=
  expand_import_star get_import_from_path os_access open_readlines ast_parse
    ReadPermissionError_msg UnparsableFile_msg find_spec create_module dir depth.

Definition resolve :=
  resolve_importables get_import_from_path os_access open_readlines ast_parse
    find_spec create_module dir.
End Scenario.

(** Membership in a set that is given by its elements. *)
Ltac in_set := vm_compute; reflexivity.
Ltac not_in_set := vm_compute; discriminate.

(** ** The nodes of a tree, and what the collectors do at one node *)

(** The nodes of a tree in the order in which [generic_visit] reaches
    them: a node, then the nodes of its fields, a list field item by
    item. *)
Fixpoint preorder (v : value) : list value :=
  match v with
  | VAst _ _ _ _ fs =>
      v :: flat_map (fun fv =>
                       match fv with
                       | (_, VList items) => flat_map preorder items
                       | (_, x) => preorder x
                       end) fs
  | _ => []
  end.

(** What [visit_Import] and [visit_ImportFrom] of [ImportAnalyzer] add
    to the stats at one node, before they go on with its children. *)
Definition ImportAnalyzer_step (node : value) (st : ImportStats) : ImportStats :=
  if isinstance node "Import" then
    mkImportStats ({[ oid_of node ]} ∪ import_ st) (from_ st)
  else if isinstance node "ImportFrom" then
    mkImportStats (import_ st) ({[ oid_of node ]} ∪ from_ st)
  else st.

(** The same for [visit_Name] and [visit_Attribute] of
    [SourceAnalyzer]. *)
Definition SourceAnalyzer_step (node : value) (st : SourceStats) : SourceStats :=
  if isinstance node "Name" then
    mkSourceStats ({[ ident_attr node "id" ]} ∪ name_ st) (attr_ st)
  else if isinstance node "Attribute" then
    mkSourceStats (name_ st) ({[ ident_attr node "attr" ]} ∪ attr_ st)
  else st.

(** The nodes of the tree are told apart by their identity. *)
Definition identity_injective (tree : value) : Prop :=
  forall x y, descendant x tree -> descendant y tree ->
              is_AST x = true -> is_AST y = true ->
              oid_of x = oid_of y -> x = y.

(** ** What a visit of the side-effect classifier keeps *)

(** The verdict after is the verdict before, or MAYBE, or YES. *)
Definition verdict_raised (st st' : SideEffectsAnalyzer.t) : Prop :=
  SideEffectsAnalyzer.verdict st' = SideEffectsAnalyzer.verdict st
  \/ SideEffectsAnalyzer.verdict st' = MAYBE
  \/ SideEffectsAnalyzer.verdict st' = YES.

(** A node that cannot change the verdict while the calls of [marks]
    are marked: it is no import statement, and if it is a call it is one
    of [marks]. *)
Definition quiet_node (marks : gset nat) (x : value) : Prop :=
  isinstance x "Import" = false
  /\ isinstance x "ImportFrom" = false
  /\ (isinstance x "Call" = true -> oid_of x ∈ marks).

(** While the calls of [marks] are marked, the verdict is kept and the
    calls stay marked. *)
Definition verdict_kept (marks : gset nat) (st st' : SideEffectsAnalyzer.t) : Prop :=
  marks ⊆ SideEffectsAnalyzer.not_side_effect st ->
  SideEffectsAnalyzer.verdict st' = SideEffectsAnalyzer.verdict st
  /\ marks ⊆ SideEffectsAnalyzer.not_side_effect st'.

(** ** What the importable-names resolver does at one node *)

(** A node that is no star import: if it is a from-import, it has a
    first name and that name is not [*]. *)
Definition wildcard_free (x : value) : Prop :=
  isinstance x "ImportFrom" = true ->
  exists first rest,
    list_attr x "names" = first :: rest /\ ident_attr first "name" <> STAR.

Global Instance wildcard_free_dec (x : value) : Decision (wildcard_free x).
Proof.
  unfold wildcard_free.
  destruct (isinstance x "ImportFrom"); [ | left; discriminate ].
  destruct (list_attr x "names") as [ | first rest ].
  - right. intros H. destruct (H eq_refl) as (f & r & Heq & _). discriminate.
  - destruct (decide (ident_attr first "name" = STAR)) as [ Heq | Hne ].
    + right. intros H. destruct (H eq_refl) as (f & r & Hfr & Hn).
      injection Hfr as <- <-. contradiction.
    + left. intros _. exists first, rest. split; [ reflexivity | exact Hne ].
Defined.

(** What the [visit_*] methods of [ImportablesAnalyzer] do to the
    analyzer at one such node, before they go on with its children. *)
Definition ImportablesAnalyzer_step (node : value) (st : ImportablesAnalyzer.t)
  : ImportablesAnalyzer.t :=
  if isinstance node "Import" then ImportablesAnalyzer.add_names node st
  else if isinstance node "ImportFrom" then ImportablesAnalyzer.add_names node st
  else if (isinstance node "FunctionDef" || isinstance node "ClassDef")%bool then
    ImportablesAnalyzer.mark_targets node
      (ImportablesAnalyzer.add_stat (ident_attr node "name") st)
  else if isinstance node "Name" then
    if isinstance (dict_get node "ctx") "Store" then
      if bool_decide (oid_of node ∈ ImportablesAnalyzer.not_importables st) then st
      else ImportablesAnalyzer.add_stat (ident_attr node "id") st
    else st
  else st.

(** The node [y] gives the importable name [name], the identities of
    [excluded] being those recorded as not importable: a definition
    gives its name, an import statement what its aliases bind, a name in
    store context that is not excluded its [id]. *)
Definition contributes (excluded : gset nat) (y : value) (name : string) : Prop :=
  ((isinstance y "FunctionDef" || isinstance y "ClassDef") = true
   /\ ident_attr y "name" = name)
  \/ ((isinstance y "Import" || isinstance y "ImportFrom") = true
      /\ exists alias, alias ∈ list_attr y "names" /\ bound_name alias = name)
  \/ (isinstance y "Name" = true
      /\ isinstance (dict_get y "ctx") "Store" = true
      /\ (oid_of y ∉ excluded)
      /\ ident_attr y "id" = name).

(** The identity [oid] is that of a target of an assignment that is a
    child of the definition [d]. *)
Definition target_in_definition (d : value) (oid : nat) : Prop :=
  (isinstance d "FunctionDef" || isinstance d "ClassDef") = true
  /\ exists a t, a ∈ iter_child_nodes d
                 /\ isinstance a "Assign" = true
                 /\ t ∈ list_attr a "targets"
                 /\ oid_of t = oid.

(** One node of the tree, and no more, has the identity of [x]. *)
Definition occurs_once (tree x : value) : Prop :=
  length (filter (fun y => oid_of y = oid_of x) (preorder tree)) = 1%nat.

(** ** What the placeholder pruner may do to the lines *)

(** The same number of lines, each as it was or blanked. *)
Definition blanked_from (lines lines' : list string) : Prop :=
  length lines' = length lines
  /\ forall (i : nat) (line : string),
       lines' !! i = Some line -> line = EMPTY \/ lines !! i = Some line.

(** The package argument that [handle_c_libs_importables] gives to
    [find_spec]: the dots of a relative import, [None] at level 0. *)
Definition package_argument (node : value) : option string :=
  if 0 <? level_attr node
  then Some (str_repeat DOT (Z.to_nat (level_attr node)))
  else None.

(** Two states of the side-effect classifier with the same verdict, the
    second with the marks of the first and those of [stale]. *)
Definition same_but_marks (stale : gset nat) (st1 st2 : SideEffectsAnalyzer.t) : Prop :=
  SideEffectsAnalyzer.verdict st1 = SideEffectsAnalyzer.verdict st2
  /\ SideEffectsAnalyzer.not_side_effect st2
     = SideEffectsAnalyzer.not_side_effect st1 ∪ stale.

(** ** More sources and trees *)

Module Sample.
(** [import os] followed by [from os import getcwd] and the call
    [os.getcwd()]. *)
Definition Load : value := Ast.ctx 90 "Load".

Definition Attribute (oid : nat) (lineno col_offset : Z) (v : value)
    (attr : string) (c : value) : value :=
  VAst oid "Attribute" (Some lineno) (Some col_offset)
    [("value", v); ("attr", VStr attr); ("ctx", c)].

Definition imports_and_call : value :=
  Ast.Module_ 1
    [Ast.Import 2 1 0 [Ast.alias 3 "os" None];
     Ast.ImportFrom 4 2 0 (Some "os") [Ast.alias 5 "getcwd" None] 0;
     Ast.Expr 6 3 0
       (Ast.Call 7 3 0
          (Attribute 8 3 0 (Ast.Name 9 3 0 "os" Load) "getcwd" (Ast.ctx 10 "Load"))
          [])].

(** The function of [Scenario.def_f_calls_g], on its own. *)
Definition def_f : value :=
  Ast.FunctionDef 2 1 0 "f" (Ast.arguments 3) [Scenario.g_call].

(** The function, the assignment and the target of
    [Scenario.def_f_name]. *)
Definition name_x : value := Ast.Name 5 2 4 "x" Scenario.Store.
Definition assign_x : value :=
  Ast.Assign 4 2 4 [name_x] (Ast.Constant 6 2 8 (VInt 1)).
Definition def_f_x : value :=
  Ast.FunctionDef 2 1 0 "f" (Ast.arguments 3) [assign_x].

(** The assigned name of [Scenario.module_tree]. *)
Definition module_x : value := Ast.Name 6 3 0 "x" Scenario.Store.

(** An analyzer that has visited [Scenario.def_f_calls_g]. *)
Definition used_analyzer : SideEffectsAnalyzer.t :=
  SideEffectsAnalyzer.visit Scenario.std_names Scenario.side_effect_names
    Scenario.def_f_calls_g SideEffectsAnalyzer.init.

(** The resolver with the surroundings of [Scenario], no nested call
    being allowed. *)
Definition resolver (tree : value) (st : ImportablesAnalyzer.t)
  : result unit * ImportablesAnalyzer.t :=
  ImportablesAnalyzer.visit (Scenario.expand 0) (Scenario.visit 0) tree st.
End Sample.

(** Files that do not load: the module [gone] resolves to a file that
    cannot be opened, and [loop.py] holds [from loop import *], a
    wildcard chain that comes back to itself. *)
Module Chain.
Definition from_gone_import_star : value :=
  Ast.ImportFrom 2 1 0 (Some "gone") [Ast.alias 3 "*" None] 0.

Definition from_loop_import_star : value :=
  Ast.ImportFrom 2 1 0 (Some "loop") [Ast.alias 3 "*" None] 0.
Definition loop_lines : list string := ["from loop import *" ++ Scenario.nl].
Definition loop_tree : value := Ast.Module_ 1 [from_loop_import_star].

Definition ast_parse (content : string) (type_comments : bool)
  : builtin_result value :=
  Scenario.lookup_text content [(String.concat EMPTY loop_lines, loop_tree)].

Definition get_import_from_path (source : option Path) (name : string)
    (module : option string) (level : Z) : option Path :=
  match module with
  | Some m =>
      if String.eqb m "gone" then Some "gone.py"
      else if String.eqb m "loop" then Some "loop.py"
      else None
  | None => None
  end.

Definition open_readlines (source : Path) : builtin_result (list string) :=
  if String.eqb source "loop.py" then inr loop_lines
  else inl (OSError "No such file or directory").

Definition visit (depth : nat) :=
  analyzer_visit get_import_from_path Scenario.os_access open_readlines ast_parse
    Scenario.ReadPermissionError_msg Scenario.UnparsableFile_msg
    Scenario.find_spec Scenario.create_module Scenario.dir depth.

Definition expand (depth : nat) :=
  expand_import_star get_import_from_path Scenario.os_access open_readlines ast_parse
    Scenario.ReadPermissionError_msg Scenario.UnparsableFile_msg
    Scenario.find_spec Scenario.create_module Scenario.dir depth.
End Chain.

(** The nodes of a tree given in full are gone through one by one. *)
Ltac each_node tac :=
  repeat (apply List.Forall_cons; [ tac | ]); apply List.Forall_nil.

(** A decidable proposition that holds is proved by evaluating its
    decision. *)
Ltac decide_by_computation :=
  refine (bool_decide_unpack _ _); vm_compute; exact I.

(** * Properties *)

(** ** Induction on syntax trees *)

(** A value is reached through the items of a list and the fields of a
    node. *)
Lemma value_ind_nested (P : value -> Prop) :
  P VNone ->
  (forall s, P (VStr s)) ->
  (forall z, P (VInt z)) ->
  (forall b, P (VBool b)) ->
  (forall items, Forall P items -> P (VList items)) ->
  (forall oid cls lineno col_offset fields,
      Forall (fun fv => P (snd fv)) fields ->
      P (VAst oid cls lineno col_offset fields)) ->
  forall v, P v.
Proof.
  intros HNone HStr HInt HBool HList HAst.
  fix IH 1.
  intros [ | s | z | b | items | oid cls lineno col_offset fields ].
  - exact HNone.
  - apply HStr.
  - apply HInt.
  - apply HBool.
  - apply HList.
    induction items as [ | item items IHitems ]; constructor.
    + apply IH.
    + exact IHitems.
  - apply HAst.
    induction fields as [ | [name v] fields IHfields ]; constructor.
    + apply IH.
    + exact IHfields.
Qed.

(** ** The side-effect classifier *)

Section SideEffectsFacts.
Variables (std se : gset string).

Local Abbreviation visit := (SideEffectsAnalyzer.visit std se).
Local Abbreviation generic_visit := (SideEffectsAnalyzer.generic_visit visit).
Local Abbreviation names_loop := (SideEffectsAnalyzer.names_loop std se).
Local Abbreviation has_side_effects := SideEffectsAnalyzer.has_side_effects.

(** The loop stops on YES as soon as it meets a name that is not
    standard and has side effects. *)
Lemma names_loop_side_effect (names : list value) (v : HasSideEffects) (alias : value) :
  alias ∈ names ->
  ident_attr alias "name" ∉ std ->
  ident_attr alias "name" ∈ se ->
  names_loop names v = YES.
Proof.
  intros Hin Hstd Hse. revert v.
  induction names as [ | a names IH ]; intros v.
  - inversion Hin.
  - simpl. apply elem_of_cons in Hin as [ <- | Hin ].
    + rewrite (bool_decide_eq_false_2 _ Hstd), (bool_decide_eq_true_2 _ Hse).
      reflexivity.
    + destruct (bool_decide (ident_attr a "name" ∈ std)); [ now apply IH | ].
      destruct (bool_decide (ident_attr a "name" ∈ se)); [ reflexivity | now apply IH ].
Qed.

(** Standard names are skipped. *)
Lemma names_loop_standard (names : list value) (v : HasSideEffects) :
  Forall (fun alias => ident_attr alias "name" ∈ std) names ->
  names_loop names v = v.
Proof.
  induction 1 as [ | a names Ha _ IH ]; simpl; [ reflexivity | ].
  now rewrite (bool_decide_eq_true_2 _ Ha).
Qed.

(** The loop leaves the verdict as it was, or MAYBE, or YES. *)
Lemma names_loop_cases (names : list value) (v : HasSideEffects) :
  names_loop names v = v \/ names_loop names v = MAYBE \/ names_loop names v = YES.
Proof.
  revert v. induction names as [ | a names IH ]; intros v; simpl.
  - now left.
  - destruct (bool_decide (ident_attr a "name" ∈ std)); [ apply IH | ].
    destruct (bool_decide (ident_attr a "name" ∈ se)); [ tauto | ].
    destruct (IH MAYBE) as [ H | H ]; tauto.
Qed.

(** A name that is not standard leaves MAYBE or YES. *)
Lemma names_loop_unrecognized (names : list value) (v : HasSideEffects) (alias : value) :
  alias ∈ names ->
  ident_attr alias "name" ∉ std ->
  names_loop names v = MAYBE \/ names_loop names v = YES.
Proof.
  intros Hin Hstd. revert v.
  induction names as [ | a names IH ]; intros v.
  - inversion Hin.
  - simpl. apply elem_of_cons in Hin as [ <- | Hin ].
    + rewrite (bool_decide_eq_false_2 _ Hstd).
      destruct (bool_decide (ident_attr alias "name" ∈ se)); [ now right | ].
      destruct (names_loop_cases names MAYBE) as [ H | H ]; tauto.
    + destruct (bool_decide (ident_attr a "name" ∈ std)); [ now apply IH | ].
      destruct (bool_decide (ident_attr a "name" ∈ se)); [ now right | now apply IH ].
Qed.

(** What [visit] does on an import statement. *)
Lemma visit_import_statement (node : value) (st : SideEffectsAnalyzer.t) :
  (isinstance node "Import" || isinstance node "ImportFrom") = true ->
  visit node st =
  generic_visit node
    (SideEffectsAnalyzer.mk (SideEffectsAnalyzer.not_side_effect st)
       (names_loop (list_attr node "names") (SideEffectsAnalyzer.verdict st))).
Proof.
  destruct node as [ | | | | | oid cls lineno col_offset fields ]; try discriminate.
  simpl. intros H. apply orb_true_iff in H as [H | H];
    apply String.eqb_eq in H; subst cls; reflexivity.
Qed.
End SideEffectsFacts.

Section SideEffectsClaims.
Variables (std se : gset string).

Local Abbreviation visit := (SideEffectsAnalyzer.visit std se).
Local Abbreviation names_loop := (SideEffectsAnalyzer.names_loop std se).
Local Abbreviation has_side_effects := SideEffectsAnalyzer.has_side_effects.

(** Visiting an alias changes nothing. *)
Lemma visit_alias (alias : value) (st : SideEffectsAnalyzer.t) :
  Ast.is_alias alias -> visit alias st = st.
Proof.
  intros (oid & name & asname & ->). unfold Ast.alias. simpl.
  unfold SideEffectsAnalyzer.generic_visit.
  destruct (decide (SideEffectsAnalyzer.verdict st = YES)); [ reflexivity | ].
  destruct asname; reflexivity.
Qed.

Lemma visit_items_aliases (names : list value) (st : SideEffectsAnalyzer.t) :
  Forall Ast.is_alias names -> visit_items visit names st = st.
Proof.
  induction 1 as [ | a names Ha _ IH ]; simpl; [ reflexivity | ].
  rewrite (visit_alias a st Ha).
  destruct (is_AST a); exact IH.
Qed.

(** C1, at the input where it fails. The module [print()] followed by
    [import foo], [foo] being in neither registry: the verdict is YES
    once the call has been visited, the visit goes on with the import
    statement, and the verdict returned at the end is MAYBE. *)
Theorem verdict_YES_lowered_by_later_import :
  "foo" ∉ std -> "foo" ∉ se ->
  let st := visit Scenario.print_call SideEffectsAnalyzer.init in
  has_side_effects st = YES
  /\ visit Scenario.call_then_import SideEffectsAnalyzer.init
     = visit Scenario.import_foo st
  /\ has_side_effects (visit Scenario.call_then_import SideEffectsAnalyzer.init)
     = MAYBE.
Proof.
  intros Hstd Hse st.
  assert (Hst : st = SideEffectsAnalyzer.mk ∅ YES) by reflexivity.
  assert (Hseq : visit Scenario.call_then_import SideEffectsAnalyzer.init
                 = visit Scenario.import_foo st) by reflexivity.
  split; [ now rewrite Hst | ]. split; [ exact Hseq | ].
  rewrite Hseq, Hst, visit_import_statement by reflexivity.
  cbn [SideEffectsAnalyzer.verdict SideEffectsAnalyzer.not_side_effect].
  change (list_attr Scenario.import_foo "names") with [Ast.alias 6 "foo" None].
  cbn [SideEffectsAnalyzer.names_loop].
  change (ident_attr (Ast.alias 6 "foo" None) "name") with "foo".
  rewrite (bool_decide_eq_false_2 _ Hstd), (bool_decide_eq_false_2 _ Hse).
  reflexivity.
Qed.

(** C2, as amended. An import or from-import statement with an alias
    name that is in the side-effect registry and not in the
    standard-library registry leaves the verdict at YES, whatever the
    verdict was before the statement. When all the alias names of the
    statement are in the standard-library registry, the loop over the
    names skips them all and leaves the verdict as it was, also for a
    name that is in the side-effect registry. *)
Theorem side_effect_import_forces_YES
    (node alias : value) (st : SideEffectsAnalyzer.t) :
  (isinstance node "Import" || isinstance node "ImportFrom") = true ->
  alias ∈ list_attr node "names" ->
  ident_attr alias "name" ∈ se ->
  (ident_attr alias "name" ∉ std -> has_side_effects (visit node st) = YES)
  /\ (Forall (fun a => ident_attr a "name" ∈ std) (list_attr node "names") ->
      names_loop (list_attr node "names") (SideEffectsAnalyzer.verdict st)
      = SideEffectsAnalyzer.verdict st).
Proof.
  intros Hcls Hin Hse. split.
  - intros Hstd.
    rewrite visit_import_statement by exact Hcls.
    rewrite (names_loop_side_effect std se _ _ alias Hin Hstd Hse).
    unfold SideEffectsAnalyzer.generic_visit. simpl.
    destruct (decide (YES = YES)); [ reflexivity | congruence ].
  - apply names_loop_standard.
Qed.

(** C10. The verdict after a from-import statement is the one the loop
    over the alias names computes: the module name is not looked at.
    Hence a from-import with an imported name outside the
    standard-library registry leaves at least MAYBE. *)
Theorem from_import_classified_by_alias_names
    (oid : nat) (lineno col_offset : Z) (module : option string) (level : Z)
    (names : list value) (st : SideEffectsAnalyzer.t) :
  Forall Ast.is_alias names ->
  has_side_effects
    (visit (Ast.ImportFrom oid lineno col_offset module names level) st)
  = names_loop names (SideEffectsAnalyzer.verdict st)
  /\ ((exists alias, alias ∈ names /\ ident_attr alias "name" ∉ std) ->
      1 <= HasSideEffects_value2
             (has_side_effects
                (visit (Ast.ImportFrom oid lineno col_offset module names level) st))).
Proof.
  intros Hnames.
  assert (Heq : has_side_effects
            (visit (Ast.ImportFrom oid lineno col_offset module names level) st)
          = names_loop names (SideEffectsAnalyzer.verdict st)).
  { rewrite visit_import_statement by reflexivity.
    change (list_attr (Ast.ImportFrom oid lineno col_offset module names level) "names")
      with names.
    unfold SideEffectsAnalyzer.generic_visit.
    cbn [SideEffectsAnalyzer.verdict].
    destruct (decide (names_loop names (SideEffectsAnalyzer.verdict st) = YES));
      [ reflexivity | ].
    unfold Ast.ImportFrom, NodeVisitor_generic_visit. cbn [visit_fields].
    rewrite (visit_items_aliases names _ Hnames).
    destruct module; reflexivity. }
  split; [ exact Heq | ].
  intros (alias & Hin & Hstd). rewrite Heq.
  destruct (names_loop_unrecognized std se names (SideEffectsAnalyzer.verdict st)
              alias Hin Hstd) as [ -> | -> ]; simpl; lia.
Qed.

(** C9, at the input where it fails. After the module [def f(): g()]
    has been visited and [reset] called, visiting the statement [g()]
    of that function gives NO, where a new analyzer gives YES: the call
    is still in the set of calls marked as not-side-effect. *)
Theorem reset_keeps_marked_calls :
  has_side_effects
    (visit Scenario.g_call
       (SideEffectsAnalyzer.reset
          (visit Scenario.def_f_calls_g SideEffectsAnalyzer.init))) = NO
  /\ has_side_effects (visit Scenario.g_call SideEffectsAnalyzer.init) = YES.
Proof. split; vm_compute; reflexivity. Qed.
End SideEffectsClaims.

(** The two collectors come back to their first state on reset. *)
Lemma ImportAnalyzer_reset (st : ImportStats) (tree : value) :
  ImportAnalyzer.get_stats (ImportAnalyzer.visit tree (ImportAnalyzer.reset_stats st))
  = ImportAnalyzer.get_stats (ImportAnalyzer.visit tree ImportAnalyzer.init).
Proof. reflexivity. Qed.

Lemma SourceAnalyzer_reset (st : SourceStats) (tree : value) :
  SourceAnalyzer.get_stats (SourceAnalyzer.visit tree (SourceAnalyzer.reset_stats st))
  = SourceAnalyzer.get_stats (SourceAnalyzer.visit tree SourceAnalyzer.init).
Proof. reflexivity. Qed.

(** The registries of [Scenario] know nothing of [foo]. *)
Lemma verdict_YES_lowered_by_later_import_witness :
  SideEffectsAnalyzer.has_side_effects
    (SideEffectsAnalyzer.visit Scenario.std_names Scenario.side_effect_names
       Scenario.call_then_import SideEffectsAnalyzer.init) = MAYBE.
Proof.
  apply (verdict_YES_lowered_by_later_import
           Scenario.std_names Scenario.side_effect_names).
  - not_in_set.
  - not_in_set.
Defined.

(** A registered name that is not forced: [ctypes] is in the
    side-effect registry and [import ctypes] is a statement of the
    module, yet the verdict for the module is NO, since [ctypes] is in
    the standard-library registry too. *)
Lemma standard_side_effect_import_not_forced :
  "ctypes" ∈ Scenario.side_effect_names
  /\ "ctypes" ∈ Scenario.std_names
  /\ Scenario.import_ctypes ∈ walk Scenario.only_import_ctypes
  /\ SideEffectsAnalyzer.has_side_effects
       (SideEffectsAnalyzer.visit Scenario.std_names Scenario.side_effect_names
          Scenario.only_import_ctypes SideEffectsAnalyzer.init) = NO.
Proof.
  split; [ in_set | ].
  split; [ in_set | ].
  split; [ | vm_compute; reflexivity ].
  apply list_elem_of_In. vm_compute. tauto.
Qed.

(** [import antigravity], which only the side-effect registry knows. *)
Lemma side_effect_import_forces_YES_witness :
  SideEffectsAnalyzer.has_side_effects
    (SideEffectsAnalyzer.visit Scenario.std_names Scenario.side_effect_names
       Scenario.import_antigravity (SideEffectsAnalyzer.mk ∅ MAYBE)) = YES.
Proof.
  refine (proj1 (side_effect_import_forces_YES
                   Scenario.std_names Scenario.side_effect_names
                   Scenario.import_antigravity (Ast.alias 3 "antigravity" None)
                   (SideEffectsAnalyzer.mk ∅ MAYBE) _ _ _) _).
  - reflexivity.
  - apply list_elem_of_In. simpl. left. reflexivity.
  - in_set.
  - not_in_set.
Defined.

(** [from os import getcwd], [os] being a standard name. *)
Lemma from_import_classified_by_alias_names_witness :
  "os" ∈ Scenario.std_names
  /\ 1 <= HasSideEffects_value2
            (SideEffectsAnalyzer.has_side_effects
               (SideEffectsAnalyzer.visit Scenario.std_names Scenario.side_effect_names
                  Scenario.from_os_import_getcwd SideEffectsAnalyzer.init)).
Proof.
  split; [ in_set | ].
  apply (from_import_classified_by_alias_names
           Scenario.std_names Scenario.side_effect_names
           2%nat 1 0 (Some "os") 0 [Ast.alias 3 "getcwd" None] SideEffectsAnalyzer.init).
  - repeat constructor. exists 3%nat, "getcwd", None. reflexivity.
  - exists (Ast.alias 3 "getcwd" None). split.
    + apply list_elem_of_In. simpl. left. reflexivity.
    + not_in_set.
Defined.

(** ** [ast.walk] reaches every node *)

Section AdditiveVisitor.
(** A visitor that counts: visiting with [n] in hand adds to [n]. *)
Variable visit : value -> nat -> nat.

Lemma total_app (l1 l2 : list value) :
  total visit (l1 ++ l2) = (total visit l1 + total visit l2)%nat.
Proof. unfold total. now rewrite map_app, list_sum_app. Qed.

Lemma visit_items_total (items : list value) (n : nat) :
  Forall (additive visit) items ->
  visit_items visit items n = (n + total visit (field_child_nodes (VList items)))%nat.
Proof.
  intros H. revert n. induction H as [ | item items Hitem _ IH ]; intros n.
  - simpl. unfold total. simpl. lia.
  - cbn [visit_items field_child_nodes] in *. rewrite filter_cons.
    destruct (is_AST item) eqn:E.
    + rewrite decide_True by reflexivity.
      rewrite IH, (Hitem n). unfold total at 2. simpl.
      fold (total visit (filter (fun i => is_AST i = true) items)). lia.
    + rewrite decide_False by discriminate. apply IH.
Qed.

Lemma visit_fields_total (fs : list (string * value)) (n : nat) :
  Forall (fun fv => additive visit (snd fv)
                    /\ forall items, snd fv = VList items -> Forall (additive visit) items) fs ->
  visit_fields visit fs n
  = (n + total visit (flat_map (fun fv => field_child_nodes (snd fv)) fs))%nat.
Proof.
  intros H. revert n.
  induction H as [ | [name v] fs [Hv Hitems] _ IH ]; intros n.
  - simpl. unfold total. simpl. lia.
  - cbn [visit_fields flat_map snd] in *. rewrite IH, total_app.
    destruct v; try (unfold total at 2; simpl; lia).
    + rewrite visit_items_total by now apply Hitems. lia.
    + rewrite (Hv n). unfold total at 2. simpl. lia.
Qed.
End AdditiveVisitor.

Lemma count_nodes_unfold (node : value) (n : nat) :
  count_nodes node n =
  match node with
  | VAst _ _ _ _ fs => visit_fields count_nodes fs (S n)
  | _ => n
  end.
Proof. destruct node; reflexivity. Qed.

Lemma count_nodes_additive (v : value) :
  additive count_nodes v
  /\ forall items, v = VList items -> Forall (additive count_nodes) items.
Proof.
  induction v as [ | s | z | b | items IH | oid cls lineno col_offset fields IH ]
    using value_ind_nested;
    try (split; [ intros n; simpl; lia | discriminate ]).
  - split; [ intros n; simpl; lia | ].
    intros items' [= <-]. eapply Forall_impl; [ exact IH | ]. intros v Hv. apply Hv.
  - split; [ | discriminate ].
    intros n. rewrite !count_nodes_unfold.
    rewrite !(visit_fields_total count_nodes fields) by exact IH. lia.
Qed.

(** A node counts for one more than its children. *)
Lemma count_nodes_children (node : value) :
  is_AST node = true ->
  count_nodes node 0 = S (total count_nodes (iter_child_nodes node)).
Proof.
  destruct node as [ | | | | | oid cls lineno col_offset fields ]; try discriminate.
  intros _. rewrite count_nodes_unfold.
  rewrite (visit_fields_total count_nodes fields).
  - reflexivity.
  - apply Forall_forall. intros fv _. apply count_nodes_additive.
Qed.

Lemma iter_child_nodes_AST (node : value) :
  Forall (fun child => is_AST child = true) (iter_child_nodes node).
Proof.
  apply Forall_forall. intros child Hin.
  unfold iter_child_nodes in Hin. apply list_elem_of_In, in_flat_map in Hin.
  destruct Hin as ([name v] & _ & Hin). simpl in Hin.
  destruct v; simpl in Hin; try contradiction.
  - apply list_elem_of_In, list_elem_of_filter in Hin. apply Hin.
  - destruct Hin as [ <- | [] ]. reflexivity.
Qed.

(** With as many steps as the nodes in the queue and under them, the
    queue is run to its end: every node under a node of the queue is
    yielded. *)
Lemma walk_queue_complete (steps : nat) (todo : list value) (x start : value) :
  Forall (fun node => is_AST node = true) todo ->
  (total count_nodes todo <= steps)%nat ->
  start ∈ todo ->
  descendant x start ->
  x ∈ walk_queue steps todo.
Proof.
  revert todo x start.
  induction steps as [ | steps IH ]; intros todo x start Hast Hsteps Hstart Hdesc.
  - destruct todo as [ | node rest ]; [ inversion Hstart | ].
    apply Forall_cons in Hast as [Hnode _].
    unfold total in Hsteps. simpl in Hsteps.
    rewrite (count_nodes_children node Hnode) in Hsteps. lia.
  - destruct todo as [ | node rest ]; [ inversion Hstart | ].
    apply Forall_cons in Hast as [Hnode Hrest].
    cbn [walk_queue].
    assert (Hnext : (total count_nodes (rest ++ iter_child_nodes node) <= steps)%nat).
    { rewrite total_app. unfold total in Hsteps |- *. simpl in Hsteps.
      rewrite (count_nodes_children node Hnode) in Hsteps.
      unfold total in Hsteps. lia. }
    assert (Hast' : Forall (fun node => is_AST node = true)
                           (rest ++ iter_child_nodes node)).
    { apply Forall_app. split; [ exact Hrest | apply iter_child_nodes_AST ]. }
    apply elem_of_cons in Hstart as [ -> | Hstart ].
    + inversion Hdesc as [ | ? child ? Hchild Hdesc' ]; subst.
      * apply elem_of_cons. now left.
      * apply elem_of_cons. right.
        apply (IH _ x child Hast' Hnext); [ | exact Hdesc' ].
        apply elem_of_app. now right.
    + apply elem_of_cons. right.
      apply (IH _ x start Hast' Hnext); [ | exact Hdesc ].
      apply elem_of_app. now left.
Qed.

Lemma walk_complete (tree x : value) :
  is_AST tree = true -> descendant x tree -> x ∈ walk tree.
Proof.
  intros Hast Hdesc. unfold walk.
  apply (walk_queue_complete _ [tree] x tree).
  - repeat constructor. exact Hast.
  - unfold total. simpl. lia.
  - apply elem_of_cons. now left.
  - exact Hdesc.
Qed.

(** ** The placeholder pruner *)

Lemma prune_if_else :
  prune_all (walk Scenario.if_else_tree) Scenario.if_else_lines
  = inr Scenario.if_else_pruned.
Proof. vm_compute. reflexivity. Qed.

(** The [pass] that is alone in the body of an [if] is kept. *)
Lemma sole_pass_of_if_body_kept (ast_parse : string -> bool -> builtin_result value) :
  ast_parse (String.concat EMPTY Scenario.if_pass_lines) false
  = inr Scenario.if_pass_tree ->
  remove_useless_passes ast_parse Scenario.if_pass_lines = inr Scenario.if_pass_lines.
Proof. intros H. unfold remove_useless_passes. rewrite H. vm_compute. reflexivity. Qed.

(** C3, at the input where it fails. In [if x: a; b else: pass] the
    [pass] is the only statement of the [else] block; the pruner counts
    the two statements of the [if] body, meets the [pass] among the
    children of the [if] and blanks its line, which leaves the [else]
    block without a statement. *)
Theorem sole_pass_of_else_blanked (ast_parse : string -> bool -> builtin_result value) :
  ast_parse (String.concat EMPTY Scenario.if_else_lines) false
  = inr Scenario.if_else_tree ->
  remove_useless_passes ast_parse Scenario.if_else_lines
  = inr Scenario.if_else_pruned.
Proof. intros H. unfold remove_useless_passes. rewrite H. apply prune_if_else. Qed.

Lemma sole_pass_of_else_blanked_witness :
  remove_useless_passes Scenario.ast_parse Scenario.if_else_lines
  = inr Scenario.if_else_pruned.
Proof. apply sole_pass_of_else_blanked. vm_compute. reflexivity. Defined.

(** C8, at the input where it fails. The pruner succeeds on
    [if x: a; b else: pass]; its output has an [else] without a block,
    the parser rejects it, and the second run raises instead of
    returning the same lines. *)
Theorem second_pruning_raises
    (ast_parse : string -> bool -> builtin_result value) (err : builtin_exn) :
  ast_parse (String.concat EMPTY Scenario.if_else_lines) false
  = inr Scenario.if_else_tree ->
  ast_parse (String.concat EMPTY Scenario.if_else_pruned) false = inl err ->
  remove_useless_passes ast_parse Scenario.if_else_lines
  = inr Scenario.if_else_pruned
  /\ remove_useless_passes ast_parse Scenario.if_else_pruned = inl (Builtin err).
Proof.
  intros H1 H2. unfold remove_useless_passes. rewrite H1, H2.
  split; [ apply prune_if_else | reflexivity ].
Qed.

Lemma second_pruning_raises_witness :
  remove_useless_passes Scenario.ast_parse Scenario.if_else_lines
  = inr Scenario.if_else_pruned
  /\ remove_useless_passes Scenario.ast_parse Scenario.if_else_pruned
     = inl (Builtin (SyntaxError "invalid syntax")).
Proof.
  apply second_pruning_raises; vm_compute; reflexivity.
Defined.

(** ** The importable-names resolver and the wildcard expander *)

Lemma assoc_replace_field_eq (k : string) (v v0 : value) (fs : list (string * value)) :
  assoc k fs = Some v0 -> assoc k (replace_field k v fs) = Some v.
Proof.
  induction fs as [ | [k' v'] fs IH ]; simpl; [ discriminate | ].
  destruct (String.eqb k k') eqn:E; simpl.
  - now rewrite String.eqb_refl.
  - rewrite E. exact IH.
Qed.

Lemma assoc_replace_field_ne (k k' : string) (v : value) (fs : list (string * value)) :
  k <> k' -> assoc k (replace_field k' v fs) = assoc k fs.
Proof.
  intros Hne. induction fs as [ | [k0 v0] fs IH ]; simpl; [ reflexivity | ].
  destruct (String.eqb k' k0) eqn:E; simpl.
  - apply String.eqb_eq in E. subst k0.
    apply String.eqb_neq in Hne. now rewrite Hne.
  - now rewrite IH.
Qed.

Lemma dict_get_set_attr_ne (node : value) (k k' : string) (v : value) :
  k <> k' -> dict_get (set_attr node k' v) k = dict_get node k.
Proof.
  intros Hne. destruct node; try reflexivity.
  unfold dict_get. simpl. now rewrite assoc_replace_field_ne.
Qed.

Lemma list_attr_set_attr (node : value) (k : string) (items old : list value) :
  dict_get node k = VList old ->
  list_attr (set_attr node k (VList items)) k = items.
Proof.
  destruct node as [ | | | | | oid cls lineno col_offset fields ]; try discriminate.
  unfold list_attr, dict_get. simpl.
  destruct (assoc k fields) as [ v0 | ] eqn:E; [ | discriminate ].
  intros _. now rewrite (assoc_replace_field_eq k (VList items) v0 fields E).
Qed.

(** The loops of [generic_visit] raise only what [visit] raises. *)
Section NodeVisitorExnFacts.
Context {S : Type} (visit : value -> S -> result unit * S).
Variable Q : value -> Prop.
Hypothesis visit_Q : forall v st, Q v -> not_UnexpandableImportStar (fst (visit v st)).

Lemma visit_items_exn_absorbing (items : list value) (st : S) :
  Forall Q items ->
  not_UnexpandableImportStar (fst (visit_items_exn visit items st)).
Proof.
  intros H. revert st. induction H as [ | item items Hitem _ IH ]; intros st; simpl.
  - exact I.
  - destruct (is_AST item); [ | apply IH ].
    specialize (visit_Q item st Hitem).
    destruct (visit item st) as [ [ e | [] ] st' ]; [ exact visit_Q | apply IH ].
Qed.

Lemma visit_fields_exn_absorbing (fs : list (string * value)) (st : S) :
  Forall (fun fv => Q (snd fv)
                    /\ forall items, snd fv = VList items -> Forall Q items) fs ->
  not_UnexpandableImportStar (fst (visit_fields_exn visit fs st)).
Proof.
  intros H. revert st.
  induction H as [ | [name v] fs [Hv Hitems] _ IH ]; intros st; simpl in *.
  - exact I.
  - assert (Hstep : not_UnexpandableImportStar
              (fst match v with
                   | VList items => visit_items_exn visit items st
                   | VAst _ _ _ _ _ => visit v st
                   | _ => (inr tt, st)
                   end)).
    { destruct v; try exact I.
      - apply visit_items_exn_absorbing. now apply Hitems.
      - now apply visit_Q. }
    destruct (match v with
              | VList items => visit_items_exn visit items st
              | VAst _ _ _ _ _ => visit v st
              | _ => (inr tt, st)
              end) as [ [ e | [] ] st' ]; [ exact Hstep | apply IH ].
Qed.

Lemma generic_visit_exn_absorbing (node : value) (st : S) :
  Forall (fun fv => Q (snd fv)
                    /\ forall items, snd fv = VList items -> Forall Q items)
         (iter_fields node) ->
  not_UnexpandableImportStar (fst (NodeVisitor_generic_visit_exn visit node st)).
Proof.
  destruct node; simpl; try (intros; exact I).
  apply visit_fields_exn_absorbing.
Qed.
End NodeVisitorExnFacts.

Section ImportablesAnalyzerFacts.
Variable expand : value -> option Path -> value * result unit.
Variable revisit :
  value -> ImportablesAnalyzer.t -> result unit * ImportablesAnalyzer.t.

Local Abbreviation visit := (ImportablesAnalyzer.visit expand revisit).

Lemma visit_unfold (node : value) (st : ImportablesAnalyzer.t) :
  visit node st =
  match node with
  | VAst _ cls _ _ _ =>
      if String.eqb cls "Import" then
        ImportablesAnalyzer.visit_Import (NodeVisitor_generic_visit_exn visit) node st
      else if String.eqb cls "ImportFrom" then
        ImportablesAnalyzer.visit_ImportFrom expand revisit
          (NodeVisitor_generic_visit_exn visit) node st
      else if String.eqb cls "FunctionDef" then
        ImportablesAnalyzer.visit_FunctionDef (NodeVisitor_generic_visit_exn visit) node st
      else if String.eqb cls "ClassDef" then
        ImportablesAnalyzer.visit_ClassDef (NodeVisitor_generic_visit_exn visit) node st
      else if String.eqb cls "Name" then
        ImportablesAnalyzer.visit_Name (NodeVisitor_generic_visit_exn visit) node st
      else NodeVisitor_generic_visit_exn visit node st
  | _ => (inr tt, st)
  end.
Proof. destruct node; reflexivity. Qed.

Lemma finally_absorbing (outcome : result unit)
    (final : result unit * ImportablesAnalyzer.t) :
  not_UnexpandableImportStar outcome ->
  not_UnexpandableImportStar (fst final) ->
  not_UnexpandableImportStar (fst (ImportablesAnalyzer.finally outcome final)).
Proof.
  intros Ho Hf. destruct final as [ [ e | [] ] st ]; simpl in *; assumption.
Qed.

Lemma except_absorbing (outcome : result unit) :
  not_UnexpandableImportStar
    (ImportablesAnalyzer.except_UnexpandableImportStar outcome).
Proof. destruct outcome as [ [ | | | | ] | ]; exact I. Qed.

Hypothesis revisit_absorbing :
  forall v st, not_UnexpandableImportStar (fst (revisit v st)).

Lemma revisit_generic_absorbing (node : value) (st : ImportablesAnalyzer.t) :
  not_UnexpandableImportStar (fst (NodeVisitor_generic_visit_exn revisit node st)).
Proof.
  apply generic_visit_exn_absorbing with (Q := fun _ => True).
  - intros v st' _. apply revisit_absorbing.
  - apply Forall_forall. intros fv _. split; [ exact I | ].
    intros items _. apply Forall_forall. intros; exact I.
Qed.

(** No [UnexpandableImportStar] leaves the analyzer, whatever the
    tree. *)
Lemma visit_absorbing (node : value) (st : ImportablesAnalyzer.t) :
  not_UnexpandableImportStar (fst (visit node st)).
Proof.
  set (Q := fun v => forall st, not_UnexpandableImportStar (fst (visit v st))).
  enough (H : Q node /\ forall items, node = VList items -> Forall Q items)
    by apply H.
  clear st. induction node as [ | s | z | b | items IH | oid cls lineno col_offset fields IH ]
    using value_ind_nested;
    try (split; [ intros st; exact I | discriminate ]).
  - split; [ intros st; exact I | ].
    intros items' [= <-]. eapply Forall_impl; [ exact IH | ].
    intros v Hv. apply Hv.
  - split; [ | discriminate ].
    assert (Hgen : forall st,
               not_UnexpandableImportStar
                 (fst (NodeVisitor_generic_visit_exn visit
                         (VAst oid cls lineno col_offset fields) st))).
    { intros st. apply generic_visit_exn_absorbing with (Q := Q).
      - intros v st' Hv. apply Hv.
      - exact IH. }
    intros st. rewrite visit_unfold.
    destruct (String.eqb cls "Import"); [ apply Hgen | ].
    destruct (String.eqb cls "ImportFrom").
    { unfold ImportablesAnalyzer.visit_ImportFrom.
      destruct (list_attr _ "names") as [ | first rest ].
      - apply finally_absorbing; [ exact I | apply Hgen ].
      - destruct (String.eqb (ident_attr first "name") STAR).
        + destruct (expand _ _) as [ node' [ e | [] ] ].
          * apply finally_absorbing;
              [ apply except_absorbing | apply revisit_generic_absorbing ].
          * apply finally_absorbing;
              [ exact I | apply revisit_generic_absorbing ].
        + apply finally_absorbing; [ exact I | apply Hgen ]. }
    destruct (String.eqb cls "FunctionDef"); [ apply Hgen | ].
    destruct (String.eqb cls "ClassDef"); [ apply Hgen | ].
    destruct (String.eqb cls "Name"); [ apply Hgen | ].
    apply Hgen.
Qed.
End ImportablesAnalyzerFacts.

Section ExpanderFacts.
Variable get_import_from_path :
  option Path -> string -> option string -> Z -> option Path.
Variable os_access : Path -> permission -> bool.
Variable open_readlines : Path -> builtin_result (list string).
Variable ast_parse : string -> bool -> builtin_result value.
Variable ReadPermissionError_msg : Z -> string -> Path -> option string.
Variable UnparsableFile_msg : Path -> builtin_exn -> option string.
Context {ModuleSpec PyModule : Type}.
Variable find_spec :
  option string -> option string -> builtin_result (option ModuleSpec).
Variable create_module : ModuleSpec -> builtin_result (option PyModule).
Variable dir : PyModule -> list string.

Local Abbreviation visit_at :=
  (analyzer_visit get_import_from_path os_access open_readlines ast_parse
     ReadPermissionError_msg UnparsableFile_msg find_spec create_module dir).
Local Abbreviation expand_at :=
  (expand_import_star get_import_from_path os_access open_readlines ast_parse
     ReadPermissionError_msg UnparsableFile_msg find_spec create_module dir).
Local Abbreviation expand_with :=
  (expand_import_star_with get_import_from_path os_access open_readlines ast_parse
     ReadPermissionError_msg UnparsableFile_msg find_spec create_module dir).
Local Abbreviation resolve :=
  (resolve_importables get_import_from_path os_access open_readlines ast_parse
     find_spec create_module dir).
Local Abbreviation cause_of := (cause ReadPermissionError_msg UnparsableFile_msg).

Lemma analyzer_visit_absorbing (depth : nat) (node : value) (st : ImportablesAnalyzer.t) :
  not_UnexpandableImportStar (fst (visit_at depth node st)).
Proof.
  revert node st. induction depth as [ | d IH ]; intros node st; simpl.
  - exact I.
  - apply visit_absorbing. exact IH.
Qed.

Lemma check_permissions_absorbing (source : Path) (permissions : list permission) :
  not_UnexpandableImportStar (check_permissions os_access source permissions).
Proof.
  induction permissions as [ | p ps IH ]; simpl; [ exact I | ].
  destruct (os_access source p); [ exact IH | ].
  destruct p; try exact I; exact IH.
Qed.

Lemma get_file_ast_absorbing (source : Path) (get_lines : bool)
    (permissions : list permission) :
  not_UnexpandableImportStar
    (get_file_ast os_access open_readlines ast_parse source get_lines permissions).
Proof.
  unfold get_file_ast.
  pose proof (check_permissions_absorbing source permissions) as Hp.
  destruct (check_permissions os_access source permissions) as [ e | [] ];
    [ exact Hp | ].
  destruct (open_readlines source) as [ e | file_lines ]; [ exact I | ].
  destruct (ast_parse _ true) as [ [ | | m | | | | | ] | tree ]; try exact I.
  destruct (ast_parse _ false) as [ [ | | | | | | | ] | tree ]; exact I.
Qed.

Lemma handle_c_libs_importables_absorbing (node : value) :
  not_UnexpandableImportStar
    (ImportablesAnalyzer.handle_c_libs_importables find_spec create_module dir node).
Proof.
  unfold ImportablesAnalyzer.handle_c_libs_importables.
  destruct (find_spec _ _) as [ e | [ spec | ] ]; try exact I.
  destruct (create_module spec) as [ e | [ module | ] ]; exact I.
Qed.

Lemma resolve_importables_absorbing (depth : nat) (node : value) (source : option Path) :
  not_UnexpandableImportStar (resolve (visit_at depth) node source).
Proof.
  unfold resolve_importables.
  destruct (get_import_from_path _ _ _ _) as [ module_path | ];
    [ | apply handle_c_libs_importables_absorbing ].
  pose proof (get_file_ast_absorbing module_path false [R_OK]) as Hf.
  destruct (get_file_ast _ _ _ _ _ _) as [ e | [tree lines] ]; [ exact Hf | ].
  pose proof (analyzer_visit_absorbing depth tree
                (ImportablesAnalyzer.set_source source ImportablesAnalyzer.init)) as Hv.
  destruct (visit_at depth tree _) as [ [ e | [] ] analyzer ]; [ exact Hv | exact I ].
Qed.

(** A failed expansion leaves the node as it was. *)
Lemma expand_failure_keeps_node
    (visit : value -> ImportablesAnalyzer.t -> result unit * ImportablesAnalyzer.t)
    (node : value) (source : option Path) (e : exn) :
  snd (expand_with visit node source) = inl e ->
  fst (expand_with visit node source) = node.
Proof.
  unfold expand_import_star_with.
  destruct (resolve visit node source) as [ err | importables ].
  - destruct (caught err); [ | reflexivity ].
    destruct (lineno_of node), (col_offset_of node); reflexivity.
  - destruct (dict_get node "names"); try reflexivity. discriminate.
Qed.

(** The cause, from the [msg] of the exception that was caught. *)
Lemma cause_cases (err : exn) (m : string) :
  cause_of err = m
  <-> (msg_of ReadPermissionError_msg UnparsableFile_msg err = Some m /\ m <> "")
      \/ ((msg_of ReadPermissionError_msg UnparsableFile_msg err = None
           \/ msg_of ReadPermissionError_msg UnparsableFile_msg err = Some "")
          /\ m = "module not found!").
Proof.
  unfold cause.
  destruct (msg_of _ _ err) as [ m' | ].
  - cbn [truthy]. destruct (String.eqb_spec m' "") as [ -> | Hne ]; cbn [negb].
    + split.
      * intros <-. right. split; [ now right | reflexivity ].
      * intros [ ([= <-] & Hm) | (_ & ->) ]; [ now contradiction Hm | reflexivity ].
    + split.
      * intros <-. left. now split.
      * intros [ ([= <-] & _) | ([ [=] | [= ->] ] & _) ];
          [ reflexivity | now contradiction Hne ].
  - split.
    + intros <-. right. split; [ now left | reflexivity ].
    + intros [ ([=] & _) | (_ & ->) ]. reflexivity.
Qed.

(** [UnexpandableImportStar] as it is raised for [err], against a
    description of the [msg] that [err] has. *)
Lemma raised_with_cause_iff
    (err : exn) (msg : option string) (described : option string -> Prop)
    (source p : option Path) (lineno col_offset l c : Z) (m : string) :
  msg_of ReadPermissionError_msg UnparsableFile_msg err = msg ->
  (forall msg', described msg' <-> msg' = msg) ->
  @inl exn unit (UnexpandableImportStar source lineno col_offset (cause_of err))
  = inl (UnexpandableImportStar p l c m)
  <-> p = source /\ l = lineno /\ c = col_offset
      /\ exists msg' : option string,
           described msg'
           /\ ((msg' = Some m /\ m <> "")
               \/ ((msg' = None \/ msg' = Some "") /\ m = "module not found!")).
Proof.
  intros Hmsg Hdescribed. split.
  - intros [= <- <- <- Hcause]. repeat (split; [ reflexivity | ]).
    exists msg. split; [ now apply Hdescribed | ].
    apply cause_cases in Hcause. now rewrite Hmsg in Hcause.
  - intros (-> & -> & -> & msg' & Hd & Hcause).
    apply Hdescribed in Hd. subst msg'.
    rewrite <- Hmsg in Hcause. apply cause_cases in Hcause. now rewrite Hcause.
Qed.

(** C4. When [expand_import_star] succeeds, the names of the node are
    one alias for each name of the set of importables that was
    resolved, in the order in which the set is gone through: no name
    twice, no alias renamed; module, level and position of the node
    are as before the call. *)
Theorem expand_import_star_success
    (depth : nat) (node node' : value) (source : option Path) :
  expand_at depth node source = (node', inr tt) ->
  exists importables : gset string,
    resolve (visit_at depth) node source = inr importables
    /\ expanded_with importables node node'.
Proof.
  unfold expand_import_star, expand_import_star_with.
  destruct (resolve (visit_at depth) node source) as [ err | importables ].
  { destruct (caught err); [ | discriminate ].
    destruct (lineno_of node), (col_offset_of node); discriminate. }
  destruct (dict_get node "names") as [ | | | | old | ] eqn:Hnames; try discriminate.
  intros [= <-]. exists importables. split; [ reflexivity | ].
  assert (Hlist : list_attr (set_attr node "names"
                               (VList (map new_alias (elements importables)))) "names"
                  = map new_alias (elements importables))
    by (eapply list_attr_set_attr; exact Hnames).
  unfold expanded_with. rewrite Hlist.
  assert (Hmap : map (fun alias => ident_attr alias "name")
                     (map new_alias (elements importables))
                 = elements importables).
  { rewrite map_map. simpl. apply map_id. }
  rewrite Hmap.
  refine (conj eq_refl (conj _ (conj _ (conj _ (conj _ (conj _ (conj _ _))))))).
  - apply NoDup_elements.
  - intros name. apply elem_of_elements.
  - apply Forall_forall. intros alias Hin.
    apply list_elem_of_In, in_map_iff in Hin as (name & <- & _). split; reflexivity.
  - apply dict_get_set_attr_ne. discriminate.
  - apply dict_get_set_attr_ne. discriminate.
  - destruct node; reflexivity.
  - destruct node; reflexivity.
Qed.

(** C5. For a statement with a position, [expand_import_star] raises
    [UnexpandableImportStar] exactly when loading or resolving the
    module raises [ReadPermissionError], [UnparsableFile] or
    [ModuleNotFoundError]. The exception carries the importing file,
    the line and the column of the statement, and as its cause the
    [msg] of the exception that was caught when this is a string that
    is not empty, and "module not found!" otherwise. A call that raises
    leaves the node as it was. *)
Theorem expand_import_star_failure
    (depth : nat) (node : value) (source : option Path) (lineno col_offset : Z) :
  lineno_of node = Some lineno ->
  col_offset_of node = Some col_offset ->
  (forall p l c m,
      snd (expand_at depth node source) = inl (UnexpandableImportStar p l c m)
      <-> p = source /\ l = lineno /\ c = col_offset
          /\ exists msg : option string,
               ((exists errno strerror filepath,
                    resolve (visit_at depth) node source
                    = inl (ReadPermissionError errno strerror filepath)
                    /\ msg = ReadPermissionError_msg errno strerror filepath)
                \/ (exists path err,
                       resolve (visit_at depth) node source
                       = inl (UnparsableFile path err)
                       /\ msg = UnparsableFile_msg path err)
                \/ (exists name,
                       resolve (visit_at depth) node source
                       = inl (Builtin (ModuleNotFoundError msg name))))
               /\ ((msg = Some m /\ m <> "")
                   \/ ((msg = None \/ msg = Some "")
                       /\ m = "module not found!")))
  /\ (forall e,
         snd (expand_at depth node source) = inl e ->
         fst (expand_at depth node source) = node).
Proof.
  intros Hline Hcol. split; [ | intros e; apply expand_failure_keeps_node ].
  intros p l c m.
  pose proof (resolve_importables_absorbing depth node source) as Habs.
  unfold expand_import_star, expand_import_star_with.
  destruct (resolve (visit_at depth) node source) as [ err | importables ].
  - destruct err as [ errno strerror filepath | errno strerror filepath
                    | path err | p' l' c' m' | err ];
      [ | | | contradiction | destruct err as [ | | | | | msg name | | ] ];
      cbn [caught]; rewrite ?Hline, ?Hcol; cbn [snd];
      try (split;
           [ discriminate
           | intros (_ & _ & _ & msg' & [ (? & ? & ? & [=] & _)
                                       | [ (? & ? & [=] & _) | (? & [=]) ] ] & _) ]).
    + apply raised_with_cause_iff with
        (msg := ReadPermissionError_msg errno strerror filepath);
        [ reflexivity | ].
      intros msg'. split.
      * intros [ (? & ? & ? & [= <- <- <-] & ->)
               | [ (? & ? & [=] & _) | (? & [=]) ] ]. reflexivity.
      * intros ->. left. now exists errno, strerror, filepath.
    + apply raised_with_cause_iff with (msg := UnparsableFile_msg path err);
        [ reflexivity | ].
      intros msg'. split.
      * intros [ (? & ? & ? & [=] & _)
               | [ (? & ? & [= <- <-] & ->) | (? & [=]) ] ]. reflexivity.
      * intros ->. right. left. now exists path, err.
    + apply raised_with_cause_iff with (msg := msg); [ reflexivity | ].
      intros msg'. split.
      * intros [ (? & ? & ? & [=] & _)
               | [ (? & ? & [=] & _) | (? & [= <- _]) ] ]. reflexivity.
      * intros ->. right. right. now exists name.
  - split.
    + destruct (dict_get node "names"); discriminate.
    + intros (_ & _ & _ & msg' & [ (? & ? & ? & [=] & _)
                                | [ (? & ? & [=] & _) | (? & [=]) ] ] & _).
Qed.







(** C7, at the input where it fails. For [def f(): a, b = 1, 2] the
    resolver gives [f], [a] and [b]: the target recorded as excluded is
    the tuple, and the names inside it are added. A plain name is
    excluded: for [def f(): x = 1] the resolver gives [f] alone. *)
Theorem tuple_targets_in_function_not_excluded (depth : nat) :
  visit_at (S depth) Scenario.def_f_tuple ImportablesAnalyzer.init
  = (inr tt, ImportablesAnalyzer.mk {[ 5%nat ]} {[ "f"; "a"; "b" ]} None)
  /\ visit_at (S depth) Scenario.def_f_name ImportablesAnalyzer.init
     = (inr tt, ImportablesAnalyzer.mk {[ 5%nat ]} {[ "f" ]} None).
Proof. split; vm_compute; reflexivity. Qed.
End ExpanderFacts.

(** ** The claims on the files of [Scenario] *)

(** [from module import *] against [module.py], which gives [foo]
    and [x]. *)
Lemma expand_import_star_success_witness :
  exists importables : gset string,
    Scenario.resolve (Scenario.visit 1) Scenario.from_module_import_star (Some "app.py")
    = inr importables
    /\ expanded_with importables Scenario.from_module_import_star
         (fst (Scenario.expand 1 Scenario.from_module_import_star (Some "app.py"))).
Proof.
  apply (expand_import_star_success
           Scenario.get_import_from_path Scenario.os_access Scenario.open_readlines
           Scenario.ast_parse Scenario.ReadPermissionError_msg Scenario.UnparsableFile_msg
           Scenario.find_spec Scenario.create_module Scenario.dir
           1 Scenario.from_module_import_star _ (Some "app.py")).
  vm_compute. reflexivity.
Defined.

(** [from m import *], [m] being a module that is not found. *)
Lemma expand_import_star_failure_witness :
  snd (Scenario.expand 1 Scenario.from_m_import_star (Some "app.py"))
  = inl (UnexpandableImportStar (Some "app.py") 1 0 "module not found!")
  /\ fst (Scenario.expand 1 Scenario.from_m_import_star (Some "app.py"))
     = Scenario.from_m_import_star.
Proof.
  destruct (expand_import_star_failure
              Scenario.get_import_from_path Scenario.os_access Scenario.open_readlines
              Scenario.ast_parse Scenario.ReadPermissionError_msg
              Scenario.UnparsableFile_msg
              Scenario.find_spec Scenario.create_module Scenario.dir
              1 Scenario.from_m_import_star (Some "app.py") 1 0 eq_refl eq_refl)
    as [ Hiff Hkeep ].
  assert (Hraise : snd (Scenario.expand 1 Scenario.from_m_import_star (Some "app.py"))
                   = inl (UnexpandableImportStar (Some "app.py") 1 0
                            "module not found!")).
  { apply Hiff. repeat (split; [ reflexivity | ]).
    exists None. split.
    - right. right. exists (Some "m"). vm_compute. reflexivity.
    - right. split; [ now left | reflexivity ]. }
  split; [ exact Hraise | exact (Hkeep _ Hraise) ].
Defined.



(** * Further properties *)

(** ** The nodes of a tree *)

Lemma flat_map_preorder_filter (items : list value) :
  flat_map preorder (filter (fun i => is_AST i = true) items)
  = flat_map preorder items.
Proof.
  induction items as [ | item items IH ]; [ reflexivity | ].
  rewrite filter_cons. destruct (is_AST item) eqn:E.
  - rewrite decide_True by reflexivity. simpl. now rewrite IH.
  - rewrite decide_False by discriminate. rewrite IH.
    destruct item; try discriminate; reflexivity.
Qed.

Lemma preorder_unfold (node : value) :
  is_AST node = true ->
  preorder node = node :: flat_map preorder (iter_child_nodes node).
Proof.
  destruct node as [ | | | | | oid cls lineno col_offset fields ]; try discriminate.
  intros _. cbn [preorder]. f_equal. unfold iter_child_nodes. cbn [iter_fields].
  induction fields as [ | [name v] fields IH ]; [ reflexivity | ].
  cbn [flat_map snd]. rewrite flat_map_app, IH. f_equal.
  destruct v; try reflexivity.
  - cbn [field_child_nodes]. now rewrite flat_map_preorder_filter.
  - cbn [field_child_nodes flat_map]. now rewrite app_nil_r.
Qed.

Lemma preorder_AST (tree x : value) : x ∈ preorder tree -> is_AST x = true.
Proof.
  revert x.
  enough (H : (forall x, x ∈ preorder tree -> is_AST x = true)
              /\ forall items, tree = VList items ->
                   Forall (fun i => forall x, x ∈ preorder i -> is_AST x = true) items)
    by apply H.
  induction tree as [ | s | z | b | items IH | oid cls lineno col_offset fields IH ]
    using value_ind_nested;
    try (split; [ intros x Hx; now inversion Hx | discriminate ]).
  - split; [ intros x Hx; inversion Hx | ].
    intros items' [= <-]. eapply Forall_impl; [ exact IH | ]. intros v Hv. apply Hv.
  - split; [ | discriminate ].
    intros x Hx. cbn [preorder] in Hx. apply elem_of_cons in Hx as [ -> | Hx ];
      [ reflexivity | ].
    apply list_elem_of_In, in_flat_map in Hx as ([name v] & Hfv & Hx).
    apply list_elem_of_In in Hfv. rewrite Forall_forall in IH.
    destruct (IH _ Hfv) as [Hv Hitems]. cbn [snd] in *.
    destruct v; try (apply Hv; now apply list_elem_of_In).
    apply in_flat_map in Hx as (item & Hitem & Hx).
    specialize (Hitems _ eq_refl). rewrite Forall_forall in Hitems.
    apply (Hitems item); now apply list_elem_of_In.
Qed.

(** The nodes that [generic_visit] reaches are the nodes under the
    tree. *)
Lemma descendant_preorder (tree x : value) :
  descendant x tree -> is_AST tree = true -> x ∈ preorder tree.
Proof.
  induction 1 as [ node | x child parent Hchild _ IH ]; intros Hast.
  - rewrite preorder_unfold by exact Hast. apply elem_of_cons. now left.
  - rewrite preorder_unfold by exact Hast. apply elem_of_cons. right.
    apply list_elem_of_In, in_flat_map. exists child. split.
    + now apply list_elem_of_In.
    + apply list_elem_of_In, IH.
      pose proof (iter_child_nodes_AST parent) as H.
      rewrite Forall_forall in H. now apply H.
Qed.

Lemma preorder_descendant (tree x : value) :
  x ∈ preorder tree -> descendant x tree.
Proof.
  revert x.
  enough (H : (forall x, x ∈ preorder tree -> descendant x tree)
              /\ forall items, tree = VList items ->
                   Forall (fun i => forall x, x ∈ preorder i -> descendant x i) items)
    by apply H.
  induction tree as [ | s | z | b | items IH | oid cls lineno col_offset fields IH ]
    using value_ind_nested;
    try (split; [ intros x Hx; now inversion Hx | discriminate ]).
  - split; [ intros x Hx; inversion Hx | ].
    intros items' [= <-]. eapply Forall_impl; [ exact IH | ]. intros v Hv. apply Hv.
  - split; [ | discriminate ].
    intros x Hx. rewrite preorder_unfold in Hx by reflexivity.
    apply elem_of_cons in Hx as [ -> | Hx ]; [ apply descendant_refl | ].
    apply list_elem_of_In, in_flat_map in Hx as (child & Hchild & Hx).
    apply list_elem_of_In in Hchild.
    apply descendant_child with (child := child); [ exact Hchild | ].
    unfold iter_child_nodes in Hchild. cbn [iter_fields] in Hchild.
    apply list_elem_of_In, in_flat_map in Hchild as ([name v] & Hfv & Hchild).
    apply list_elem_of_In in Hfv. rewrite Forall_forall in IH.
    destruct (IH _ Hfv) as [Hv Hitems]. cbn [snd] in *.
    destruct v; cbn [field_child_nodes] in Hchild; try contradiction.
    + apply list_elem_of_In, list_elem_of_filter in Hchild as [_ Hchild].
      specialize (Hitems _ eq_refl). rewrite Forall_forall in Hitems.
      apply (Hitems child Hchild). now apply list_elem_of_In.
    + destruct Hchild as [ <- | [] ]. apply Hv. now apply list_elem_of_In.
Qed.

Lemma descendant_AST (tree x : value) :
  descendant x tree -> is_AST tree = true -> is_AST x = true.
Proof. intros Hd Hast. eapply preorder_AST, descendant_preorder; eassumption. Qed.

(** ** A visitor that acts at a node and goes on with its children *)

Section PreorderVisitor.
Context {S : Type}.
Variable step : value -> S -> S.
Variable visit : value -> S -> S.
Hypothesis visit_node :
  forall node st, is_AST node = true ->
                  visit node st = NodeVisitor_generic_visit visit (node) (step node st).

Local Abbreviation run := (fold_left (fun st node => step node st)).

Lemma visit_items_run (items : list value) (st : S) :
  Forall (fun i => is_AST i = true -> forall st, visit i st = run (preorder i) st) items ->
  visit_items visit items st = run (flat_map preorder items) st.
Proof.
  intros H. revert st. induction H as [ | item items Hitem _ IH ]; intros st.
  - reflexivity.
  - cbn [visit_items flat_map]. rewrite fold_left_app.
    destruct (is_AST item) eqn:E.
    + rewrite Hitem by reflexivity. apply IH.
    + destruct item; try discriminate; apply IH.
  Qed.

Lemma visit_is_run (node : value) (st : S) :
  is_AST node = true -> visit node st = run (preorder node) st.
Proof.
  intros Hast. revert st.
  set (Q := fun v => is_AST v = true -> forall st, visit v st = run (preorder v) st).
  enough (H : Q node /\ forall items, node = VList items -> Forall Q items)
    by (apply H; exact Hast).
  clear Hast.
  induction node as [ | s | z | b | items IH | oid cls lineno col_offset fields IH ]
    using value_ind_nested;
    try (split; [ intros Hast; discriminate | discriminate ]).
  - split; [ intros Hast; discriminate | ].
    intros items' [= <-]. eapply Forall_impl; [ exact IH | ]. intros v Hv. apply Hv.
  - split; [ | discriminate ].
    intros _ st. rewrite visit_node by reflexivity.
    cbn [preorder fold_left NodeVisitor_generic_visit].
    generalize (step (VAst oid cls lineno col_offset fields) st) as st'.
    clear st. induction IH as [ | [name v] fields [Hv Hitems] _ IHfields ]; intros st.
    + reflexivity.
    + cbn [visit_fields flat_map]. rewrite fold_left_app, IHfields. f_equal.
      cbn [snd] in *. destruct v; try reflexivity.
      * apply visit_items_run. now apply Hitems.
      * now apply Hv.
Qed.
End PreorderVisitor.

(** ** The import collector *)

Lemma ImportAnalyzer_visit_node (node : value) (st : ImportStats) :
  is_AST node = true ->
  ImportAnalyzer.visit node st
  = NodeVisitor_generic_visit ImportAnalyzer.visit node (ImportAnalyzer_step node st).
Proof.
  destruct node as [ | | | | | oid cls lineno col_offset fields ]; try discriminate.
  intros _. unfold ImportAnalyzer_step, isinstance.
  cbn [ImportAnalyzer.visit].
  destruct (String.eqb cls "Import"); [ reflexivity | ].
  destruct (String.eqb cls "ImportFrom"); reflexivity.
Qed.

Lemma ImportAnalyzer_visit_run (tree : value) (st : ImportStats) :
  ImportAnalyzer.visit tree st
  = fold_left (fun st node => ImportAnalyzer_step node st) (preorder tree) st.
Proof.
  destruct (is_AST tree) eqn:E.
  - apply visit_is_run; [ | exact E ]. intros node st' Hnode.
    now apply ImportAnalyzer_visit_node.
  - destruct tree; try discriminate; reflexivity.
Qed.

(** A step that adds the key of the nodes that pass a test: the set
    holds, in the end, what it held and the keys of those nodes. *)
Lemma run_collects {S K : Type} `{Countable K}
    (get : S -> gset K) (step : value -> S -> S)
    (test : value -> bool) (key : value -> K) :
  (forall node st,
      get (step node st) = if test node then {[ key node ]} ∪ get st else get st) ->
  forall (nodes : list value) (st : S) (k : K),
    k ∈ get (fold_left (fun st node => step node st) nodes st)
    <-> k ∈ get st \/ exists x, x ∈ nodes /\ test x = true /\ key x = k.
Proof.
  intros Hstep nodes. induction nodes as [ | node nodes IH ]; intros st k; cbn [fold_left].
  - split; [ now left | ]. intros [ Hk | (x & Hx & _) ]; [ exact Hk | inversion Hx ].
  - rewrite IH, Hstep. destruct (test node) eqn:E.
    + rewrite elem_of_union, elem_of_singleton. split.
      * intros [ [ -> | Hk ] | (x & Hx & Ht & Hk) ].
        -- right. exists node. split; [ apply elem_of_cons; now left | now split ].
        -- now left.
        -- right. exists x. split; [ apply elem_of_cons; now right | now split ].
      * intros [ Hk | (x & Hx & Ht & Hk) ]; [ left; now right | ].
        apply elem_of_cons in Hx as [ -> | Hx ]; [ left; left; now symmetry | ].
        right. exists x. now repeat split.
    + split.
      * intros [ Hk | (x & Hx & Ht & Hk) ]; [ now left | ].
        right. exists x. split; [ apply elem_of_cons; now right | now split ].
      * intros [ Hk | (x & Hx & Ht & Hk) ]; [ now left | ].
        apply elem_of_cons in Hx as [ -> | Hx ]; [ congruence | ].
        right. exists x. now repeat split.
Qed.

Lemma isinstance_exclusive (node : value) (c1 c2 : string) :
  c1 <> c2 -> isinstance node c1 = true -> isinstance node c2 = false.
Proof.
  destruct node; try reflexivity. unfold isinstance. intros Hne H1.
  apply String.eqb_eq in H1. subst. now apply String.eqb_neq.
Qed.

Lemma ImportAnalyzer_run_import (nodes : list value) (st : ImportStats) (oid : nat) :
  oid ∈ import_ (fold_left (fun st node => ImportAnalyzer_step node st) nodes st)
  <-> oid ∈ import_ st
      \/ exists x, x ∈ nodes /\ isinstance x "Import" = true /\ oid_of x = oid.
Proof.
  apply (run_collects import_ ImportAnalyzer_step
           (fun x => isinstance x "Import") oid_of).
  intros node st'. unfold ImportAnalyzer_step.
  destruct (isinstance node "Import"); [ reflexivity | ].
  destruct (isinstance node "ImportFrom"); reflexivity.
Qed.

Lemma ImportAnalyzer_run_from (nodes : list value) (st : ImportStats) (oid : nat) :
  oid ∈ from_ (fold_left (fun st node => ImportAnalyzer_step node st) nodes st)
  <-> oid ∈ from_ st
      \/ exists x, x ∈ nodes /\ isinstance x "ImportFrom" = true /\ oid_of x = oid.
Proof.
  apply (run_collects from_ ImportAnalyzer_step
           (fun x => isinstance x "ImportFrom") oid_of).
  intros node st'. unfold ImportAnalyzer_step.
  destruct (isinstance node "Import") eqn:E.
  - now rewrite (isinstance_exclusive node "Import" "ImportFrom").
  - destruct (isinstance node "ImportFrom"); reflexivity.
Qed.

(** A node of a given class is among the nodes reached exactly when it
    is under the tree. *)
Lemma preorder_class (tree : value) (cls : string) (P : value -> Prop) :
  (exists x, x ∈ preorder tree /\ isinstance x cls = true /\ P x)
  <-> (exists x, descendant x tree /\ isinstance x cls = true /\ P x).
Proof.
  split; intros (x & Hx & Hc & HP); exists x; (split; [ | now split ]).
  - now apply preorder_descendant.
  - destruct (is_AST tree) eqn:E; [ now apply descendant_preorder | ].
    exfalso. destruct Hx as [ node | y child parent Hchild _ ].
    + destruct node; discriminate.
    + destruct parent; try discriminate; inversion Hchild.
Qed.

(** X1. The two sets that [ImportAnalyzer] returns hold what they held
    before the visit and the identities of the [Import], respectively
    [ImportFrom], nodes of the tree, at any depth, and nothing else. *)
Theorem ImportAnalyzer_collects_import_nodes
    (tree : value) (st : ImportStats) (oid : nat) :
  (oid ∈ import_ (ImportAnalyzer.get_stats (ImportAnalyzer.visit tree st))
   <-> oid ∈ import_ st
       \/ exists x, descendant x tree /\ isinstance x "Import" = true
                    /\ oid_of x = oid)
  /\ (oid ∈ from_ (ImportAnalyzer.get_stats (ImportAnalyzer.visit tree st))
      <-> oid ∈ from_ st
          \/ exists x, descendant x tree /\ isinstance x "ImportFrom" = true
                       /\ oid_of x = oid).
Proof.
  unfold ImportAnalyzer.get_stats. rewrite ImportAnalyzer_visit_run. split.
  - rewrite ImportAnalyzer_run_import.
    now rewrite (preorder_class tree "Import" (fun x => oid_of x = oid)).
  - rewrite ImportAnalyzer_run_from.
    now rewrite (preorder_class tree "ImportFrom" (fun x => oid_of x = oid)).
Qed.

(** X2. When the nodes of the tree are told apart by their identity, no
    node is in both sets of a new [ImportAnalyzer]. *)
Theorem ImportAnalyzer_sets_disjoint (tree : value) :
  identity_injective tree ->
  import_ (ImportAnalyzer.get_stats (ImportAnalyzer.visit tree ImportAnalyzer.init))
  ## from_ (ImportAnalyzer.get_stats (ImportAnalyzer.visit tree ImportAnalyzer.init)).
Proof.
  intros Hinj. apply elem_of_disjoint. intros oid H1 H2.
  unfold ImportAnalyzer.get_stats in H1, H2.
  rewrite ImportAnalyzer_visit_run in H1, H2.
  apply ImportAnalyzer_run_import in H1. apply ImportAnalyzer_run_from in H2.
  destruct H1 as [ H1 | Hx ]; [ inversion H1 | ].
  destruct H2 as [ H2 | Hy ]; [ inversion H2 | ].
  apply (preorder_class tree "Import" (fun x => oid_of x = oid)) in Hx.
  apply (preorder_class tree "ImportFrom" (fun y => oid_of y = oid)) in Hy.
  destruct Hx as (x & Hx & Hcx & Hox). destruct Hy as (y & Hy & Hcy & Hoy).
  assert (x = y).
  { apply Hinj; try assumption; try congruence.
    - destruct x; try discriminate; reflexivity.
    - destruct y; try discriminate; reflexivity. }
  subst y. destruct x; try discriminate. unfold isinstance in *.
  apply String.eqb_eq in Hcx, Hcy. congruence.
Qed.

(** Distinct identities along the tree tell its nodes apart. *)
Lemma NoDup_identity_injective (tree : value) :
  is_AST tree = true ->
  NoDup (map oid_of (preorder tree)) ->
  identity_injective tree.
Proof.
  intros Hast Hnd x y Hx Hy _ _ Heq.
  apply descendant_preorder in Hx, Hy; try exact Hast.
  apply list_elem_of_lookup in Hx as [i Hi], Hy as [j Hj].
  assert (i = j).
  { eapply NoDup_lookup; [ exact Hnd | | ].
    - rewrite list_lookup_fmap, Hi. reflexivity.
    - rewrite list_lookup_fmap, Hj. simpl. now rewrite Heq. }
  subst j. congruence.
Qed.

Lemma ImportAnalyzer_sets_disjoint_witness :
  import_ (ImportAnalyzer.get_stats
             (ImportAnalyzer.visit Sample.imports_and_call ImportAnalyzer.init))
  ## from_ (ImportAnalyzer.get_stats
              (ImportAnalyzer.visit Sample.imports_and_call ImportAnalyzer.init)).
Proof.
  apply ImportAnalyzer_sets_disjoint.
  apply NoDup_identity_injective; [ reflexivity | ].
  decide_by_computation.
Defined.

(** ** The reference collector *)

Lemma SourceAnalyzer_visit_run (tree : value) (st : SourceStats) :
  SourceAnalyzer.visit tree st
  = fold_left (fun st node => SourceAnalyzer_step node st) (preorder tree) st.
Proof.
  destruct (is_AST tree) eqn:E.
  - apply visit_is_run; [ | exact E ]. intros node st' Hnode.
    destruct node as [ | | | | | oid cls lineno col_offset fields ]; try discriminate.
    unfold SourceAnalyzer_step, isinstance. cbn [SourceAnalyzer.visit].
    destruct (String.eqb cls "Name"); [ reflexivity | ].
    destruct (String.eqb cls "Attribute"); reflexivity.
  - destruct tree; try discriminate; reflexivity.
Qed.

(** X3. The two sets that [SourceAnalyzer] returns hold what they held
    before the visit, the [id] of every [Name] node of the tree,
    respectively the [attr] of every [Attribute] node of the tree, and
    nothing else: of [foo.bar] the attribute set gets [bar] only, and
    the name set gets [foo]. *)
Theorem SourceAnalyzer_collects_names_and_attributes
    (tree : value) (st : SourceStats) (name : string) :
  (name ∈ name_ (SourceAnalyzer.get_stats (SourceAnalyzer.visit tree st))
   <-> name ∈ name_ st
       \/ exists x, descendant x tree /\ isinstance x "Name" = true
                    /\ ident_attr x "id" = name)
  /\ (name ∈ attr_ (SourceAnalyzer.get_stats (SourceAnalyzer.visit tree st))
      <-> name ∈ attr_ st
          \/ exists x, descendant x tree /\ isinstance x "Attribute" = true
                       /\ ident_attr x "attr" = name).
Proof.
  unfold SourceAnalyzer.get_stats. rewrite SourceAnalyzer_visit_run. split.
  - rewrite <- (preorder_class tree "Name" (fun x => ident_attr x "id" = name)).
    apply (run_collects name_ SourceAnalyzer_step
             (fun x => isinstance x "Name") (fun x => ident_attr x "id")).
    intros node st'. unfold SourceAnalyzer_step.
    destruct (isinstance node "Name"); [ reflexivity | ].
    destruct (isinstance node "Attribute"); reflexivity.
  - rewrite <- (preorder_class tree "Attribute" (fun x => ident_attr x "attr" = name)).
    apply (run_collects attr_ SourceAnalyzer_step
             (fun x => isinstance x "Attribute") (fun x => ident_attr x "attr")).
    intros node st'. unfold SourceAnalyzer_step.
    destruct (isinstance node "Name") eqn:E.
    + now rewrite (isinstance_exclusive node "Name" "Attribute").
    + destruct (isinstance node "Attribute"); reflexivity.
Qed.

(** ** The loops of [generic_visit] keep what each visit keeps *)

Section NodeVisitorInvariant.
Context {S : Type} (visit : value -> S -> S).
Variable R : S -> S -> Prop.
Hypothesis R_refl : forall st, R st st.
Hypothesis R_trans : forall st1 st2 st3, R st1 st2 -> R st2 st3 -> R st1 st3.

Lemma visit_items_keeps (items : list value) (st : S) :
  Forall (fun i => is_AST i = true -> forall st, R st (visit i st)) items ->
  R st (visit_items visit items st).
Proof.
  intros H. revert st. induction H as [ | item items Hitem _ IH ]; intros st.
  - apply R_refl.
  - cbn [visit_items]. destruct (is_AST item); [ | apply IH ].
    eapply R_trans; [ now apply Hitem | apply IH ].
Qed.

Lemma visit_fields_keeps (fs : list (string * value)) (st : S) :
  Forall (fun fv =>
            (is_AST (snd fv) = true -> forall st, R st (visit (snd fv) st))
            /\ forall items, snd fv = VList items ->
                 Forall (fun i => is_AST i = true -> forall st, R st (visit i st)) items)
         fs ->
  R st (visit_fields visit fs st).
Proof.
  intros H. revert st.
  induction H as [ | [name v] fs [Hv Hitems] _ IH ]; intros st; cbn [visit_fields snd] in *.
  - apply R_refl.
  - eapply R_trans; [ | apply IH ].
    destruct v; try apply R_refl.
    + apply visit_items_keeps. now apply Hitems.
    + now apply Hv.
Qed.
End NodeVisitorInvariant.

(** ** The side-effect classifier, on whole trees *)

Local Abbreviation mark_step :=
  (fun (st : SideEffectsAnalyzer.t) (node_ : value) =>
     if isinstance node_ "Expr" then
       if isinstance (dict_get node_ "value") "Call" then
         SideEffectsAnalyzer.mk
           ({[ oid_of (dict_get node_ "value") ]} ∪ SideEffectsAnalyzer.not_side_effect st)
           (SideEffectsAnalyzer.verdict st)
       else st
     else st).

Lemma mark_step_keeps (children : list value) (st : SideEffectsAnalyzer.t) :
  SideEffectsAnalyzer.verdict (fold_left mark_step children st)
  = SideEffectsAnalyzer.verdict st
  /\ SideEffectsAnalyzer.not_side_effect st
     ⊆ SideEffectsAnalyzer.not_side_effect (fold_left mark_step children st).
Proof.
  revert st. induction children as [ | child children IH ]; intros st.
  - split; reflexivity.
  - cbn [fold_left]. destruct (IH (mark_step st child)) as [Hv Hs].
    rewrite Hv. split.
    + destruct (isinstance child "Expr"); [ | reflexivity ].
      destruct (isinstance (dict_get child "value") "Call"); reflexivity.
    + etransitivity; [ | exact Hs ].
      destruct (isinstance child "Expr"); [ | reflexivity ].
      destruct (isinstance (dict_get child "value") "Call"); [ | reflexivity ].
      cbn [SideEffectsAnalyzer.not_side_effect]. apply union_subseteq_r.
Qed.

Lemma mark_calls_verdict (node : value) (st : SideEffectsAnalyzer.t) :
  SideEffectsAnalyzer.verdict (SideEffectsAnalyzer.mark_calls node st)
  = SideEffectsAnalyzer.verdict st.
Proof. apply mark_step_keeps. Qed.

Lemma mark_calls_grows (node : value) (st : SideEffectsAnalyzer.t) :
  SideEffectsAnalyzer.not_side_effect st
  ⊆ SideEffectsAnalyzer.not_side_effect (SideEffectsAnalyzer.mark_calls node st).
Proof. apply mark_step_keeps. Qed.

(** The call of a call statement that is a child of the node is
    marked. *)
Lemma mark_calls_marks (node stmt : value) (st : SideEffectsAnalyzer.t) :
  stmt ∈ iter_child_nodes node ->
  isinstance stmt "Expr" = true ->
  isinstance (dict_get stmt "value") "Call" = true ->
  oid_of (dict_get stmt "value")
  ∈ SideEffectsAnalyzer.not_side_effect (SideEffectsAnalyzer.mark_calls node st).
Proof.
  unfold SideEffectsAnalyzer.mark_calls.
  generalize (iter_child_nodes node) as children. intros children. revert st.
  induction children as [ | child children IH ]; intros st Hin HE HC.
  - inversion Hin.
  - cbn [fold_left]. apply elem_of_cons in Hin. destruct Hin as [ Heq | Hin ].
    + subst child. apply (proj2 (mark_step_keeps children (mark_step st stmt))).
      rewrite HE, HC. cbn [SideEffectsAnalyzer.not_side_effect]. set_solver.
    + apply IH; assumption.
Qed.

Section SideEffectsTrees.
Variables (std se : gset string).

Local Abbreviation visit := (SideEffectsAnalyzer.visit std se).
Local Abbreviation verdict := SideEffectsAnalyzer.verdict.
Local Abbreviation marked := SideEffectsAnalyzer.not_side_effect.

Lemma SideEffects_visit_unfold (node : value) (st : SideEffectsAnalyzer.t) :
  visit node st =
  match node with
  | VAst _ cls _ _ _ =>
      if String.eqb cls "FunctionDef" then
        SideEffectsAnalyzer.generic_visit visit node
          (SideEffectsAnalyzer.mark_calls node st)
      else if String.eqb cls "ClassDef" then
        SideEffectsAnalyzer.generic_visit visit node
          (SideEffectsAnalyzer.mark_calls node st)
      else if String.eqb cls "Call" then
        SideEffectsAnalyzer.generic_visit visit node
          (if bool_decide (oid_of node ∈ marked st) then st
           else SideEffectsAnalyzer.mk (marked st) YES)
      else if String.eqb cls "Import" then
        SideEffectsAnalyzer.generic_visit visit node
          (SideEffectsAnalyzer.mk (marked st)
             (SideEffectsAnalyzer.names_loop std se (list_attr node "names") (verdict st)))
      else if String.eqb cls "ImportFrom" then
        SideEffectsAnalyzer.generic_visit visit node
          (SideEffectsAnalyzer.mk (marked st)
             (SideEffectsAnalyzer.names_loop std se (list_attr node "names") (verdict st)))
      else SideEffectsAnalyzer.generic_visit visit node st
  | _ => st
  end.
Proof. destruct node; reflexivity. Qed.

Lemma verdict_raised_refl (st : SideEffectsAnalyzer.t) : verdict_raised st st.
Proof. now left. Qed.

Lemma verdict_raised_trans (st1 st2 st3 : SideEffectsAnalyzer.t) :
  verdict_raised st1 st2 -> verdict_raised st2 st3 -> verdict_raised st1 st3.
Proof.
  unfold verdict_raised. intros H [ H' | H' ]; [ rewrite H'; exact H | now right ].
Qed.

Lemma generic_visit_keeps (R : SideEffectsAnalyzer.t -> SideEffectsAnalyzer.t -> Prop)
    (node : value) (st : SideEffectsAnalyzer.t) :
  R st st ->
  R st (NodeVisitor_generic_visit visit node st) ->
  R st (SideEffectsAnalyzer.generic_visit visit node st).
Proof.
  intros Hrefl Hgen. unfold SideEffectsAnalyzer.generic_visit.
  destruct (decide (verdict st = YES)); assumption.
Qed.

Lemma visit_raised (node : value) (st : SideEffectsAnalyzer.t) :
  verdict_raised st (visit node st).
Proof.
  revert st.
  set (Q := fun v => forall st, verdict_raised st (visit v st)).
  enough (H : Q node /\ forall items, node = VList items -> Forall Q items) by apply H.
  induction node as [ | s | z | b | items IH | oid cls lineno col_offset fields IH ]
    using value_ind_nested;
    try (split; [ intros st; apply verdict_raised_refl | discriminate ]).
  - split; [ intros st; apply verdict_raised_refl | ].
    intros items' [= <-]. eapply Forall_impl; [ exact IH | ]. intros v Hv. apply Hv.
  - split; [ | discriminate ].
    assert (Hgen : forall st,
               verdict_raised st
                 (SideEffectsAnalyzer.generic_visit visit
                    (VAst oid cls lineno col_offset fields) st)).
    { intros st. apply generic_visit_keeps; [ apply verdict_raised_refl | ].
      apply (visit_fields_keeps visit verdict_raised
               verdict_raised_refl verdict_raised_trans).
      eapply Forall_impl; [ exact IH | ]. intros fv [Hv Hitems]. split.
      - intros _. apply Hv.
      - intros items Heq. eapply Forall_impl; [ exact (Hitems items Heq) | ].
        intros i Hi _. apply Hi. }
    intros st. rewrite SideEffects_visit_unfold.
    assert (Hmark : verdict_raised st
                      (SideEffectsAnalyzer.generic_visit visit
                         (VAst oid cls lineno col_offset fields)
                         (SideEffectsAnalyzer.mark_calls
                            (VAst oid cls lineno col_offset fields) st))).
    { eapply verdict_raised_trans; [ | apply Hgen ].
      left. apply mark_calls_verdict. }
    assert (Himport : verdict_raised st
                        (SideEffectsAnalyzer.generic_visit visit
                           (VAst oid cls lineno col_offset fields)
                           (SideEffectsAnalyzer.mk (marked st)
                              (SideEffectsAnalyzer.names_loop std se
                                 (list_attr (VAst oid cls lineno col_offset fields) "names")
                                 (verdict st))))).
    { eapply verdict_raised_trans; [ | apply Hgen ].
      apply names_loop_cases. }
    destruct (String.eqb cls "FunctionDef"); [ exact Hmark | ].
    destruct (String.eqb cls "ClassDef"); [ exact Hmark | ].
    destruct (String.eqb cls "Call").
    { eapply verdict_raised_trans; [ | apply Hgen ].
      destruct (bool_decide _); [ apply verdict_raised_refl | ].
      right. now right. }
    destruct (String.eqb cls "Import"); [ exact Himport | ].
    destruct (String.eqb cls "ImportFrom"); [ exact Himport | ].
    apply Hgen.
Qed.

(** X4. Whatever the tree, the verdict after a visit is the verdict
    before it, or MAYBE, or YES. So a new analyzer never answers
    NOT_KNOWN, and an analyzer whose verdict is MAYBE or YES never comes
    back to NO: the visit can lower YES to MAYBE and nothing else. *)
Theorem verdict_after_visit (tree : value) (st : SideEffectsAnalyzer.t) :
  (SideEffectsAnalyzer.has_side_effects (visit tree st)
   = SideEffectsAnalyzer.has_side_effects st
   \/ SideEffectsAnalyzer.has_side_effects (visit tree st) = MAYBE
   \/ SideEffectsAnalyzer.has_side_effects (visit tree st) = YES)
  /\ SideEffectsAnalyzer.has_side_effects (visit tree SideEffectsAnalyzer.init)
     <> NOT_KNOWN
  /\ (1 <= HasSideEffects_value2 (SideEffectsAnalyzer.has_side_effects st) ->
      1 <= HasSideEffects_value2
             (SideEffectsAnalyzer.has_side_effects (visit tree st))).
Proof.
  split; [ apply visit_raised | ]. split.
  - destruct (visit_raised tree SideEffectsAnalyzer.init) as [ H | [ H | H ] ];
      unfold SideEffectsAnalyzer.has_side_effects; rewrite H; discriminate.
  - unfold SideEffectsAnalyzer.has_side_effects.
    destruct (visit_raised tree st) as [ H | [ H | H ] ]; rewrite H; simpl; lia.
Qed.

(** X5. Once the verdict is YES, visiting a node that is not an import
    statement leaves it at YES. *)
Theorem YES_kept_outside_imports (node : value) (st : SideEffectsAnalyzer.t) :
  SideEffectsAnalyzer.has_side_effects st = YES ->
  isinstance node "Import" = false ->
  isinstance node "ImportFrom" = false ->
  SideEffectsAnalyzer.has_side_effects (visit node st) = YES.
Proof.
  unfold SideEffectsAnalyzer.has_side_effects. intros HYES HI HF.
  destruct node as [ | | | | | oid cls lineno col_offset fields ]; try exact HYES.
  unfold isinstance in HI, HF. rewrite SideEffects_visit_unfold, HI, HF.
  assert (Hstop : forall st', verdict st' = YES ->
                    verdict (SideEffectsAnalyzer.generic_visit visit
                               (VAst oid cls lineno col_offset fields) st') = YES).
  { intros st' H'. unfold SideEffectsAnalyzer.generic_visit.
    destruct (decide (verdict st' = YES)); [ exact H' | contradiction ]. }
  destruct (String.eqb cls "FunctionDef");
    [ apply Hstop; now rewrite mark_calls_verdict | ].
  destruct (String.eqb cls "ClassDef");
    [ apply Hstop; now rewrite mark_calls_verdict | ].
  destruct (String.eqb cls "Call"); [ | now apply Hstop ].
  apply Hstop. destruct (bool_decide _); [ exact HYES | reflexivity ].
Qed.

Lemma verdict_kept_refl (marks : gset nat) (st : SideEffectsAnalyzer.t) :
  verdict_kept marks st st.
Proof. intros H. now split. Qed.

Lemma verdict_kept_trans (marks : gset nat) (st1 st2 st3 : SideEffectsAnalyzer.t) :
  verdict_kept marks st1 st2 -> verdict_kept marks st2 st3 -> verdict_kept marks st1 st3.
Proof.
  intros H12 H23 H1. destruct (H12 H1) as [Hv Hm]. destruct (H23 Hm) as [Hv' Hm'].
  split; [ congruence | exact Hm' ].
Qed.

(** A tree of quiet nodes keeps the verdict. *)
Lemma visit_quiet (marks : gset nat) (node : value) (st : SideEffectsAnalyzer.t) :
  Forall (quiet_node marks) (preorder node) ->
  verdict_kept marks st (visit node st).
Proof.
  revert st.
  set (Q := fun v => Forall (quiet_node marks) (preorder v) ->
                     forall st, verdict_kept marks st (visit v st)).
  enough (H : Q node /\ forall items, node = VList items -> Forall Q items)
    by (intros st Hq; now apply H).
  induction node as [ | s | z | b | items IH | oid cls lineno col_offset fields IH ]
    using value_ind_nested;
    try (split; [ intros _ st; apply verdict_kept_refl | discriminate ]).
  - split; [ intros _ st; apply verdict_kept_refl | ].
    intros items' [= <-]. eapply Forall_impl; [ exact IH | ]. intros v Hv. apply Hv.
  - split; [ | discriminate ].
    intros Hquiet. cbn [preorder] in Hquiet.
    apply Forall_cons in Hquiet as [ (HI & HF & HC) Hquiet ].
    rewrite Forall_flat_map in Hquiet.
    assert (Hgen : forall st,
               verdict_kept marks st
                 (SideEffectsAnalyzer.generic_visit visit
                    (VAst oid cls lineno col_offset fields) st)).
    { intros st. apply generic_visit_keeps; [ apply verdict_kept_refl | ].
      apply (visit_fields_keeps visit (verdict_kept marks)
               (verdict_kept_refl marks) (verdict_kept_trans marks)).
      rewrite Forall_forall in IH, Hquiet. apply Forall_forall.
      intros [name v] Hin. destruct (IH _ Hin) as [Hv Hitems].
      specialize (Hquiet _ Hin). cbn [snd] in *. split.
      - intros Hast. apply Hv. destruct v; try discriminate. exact Hquiet.
      - intros items ->. specialize (Hitems _ eq_refl).
        rewrite Forall_flat_map in Hquiet.
        rewrite Forall_forall in Hitems, Hquiet. apply Forall_forall.
        intros i Hi _. apply (Hitems i Hi). now apply Hquiet. }
    intros st. rewrite SideEffects_visit_unfold.
    unfold isinstance in HI, HF, HC. rewrite HI, HF.
    assert (Hmark : verdict_kept marks st
                      (SideEffectsAnalyzer.generic_visit visit
                         (VAst oid cls lineno col_offset fields)
                         (SideEffectsAnalyzer.mark_calls
                            (VAst oid cls lineno col_offset fields) st))).
    { eapply verdict_kept_trans; [ | apply Hgen ].
      intros Hm. split; [ apply mark_calls_verdict | ].
      etransitivity; [ exact Hm | apply mark_calls_grows ]. }
    destruct (String.eqb cls "FunctionDef"); [ exact Hmark | ].
    destruct (String.eqb cls "ClassDef"); [ exact Hmark | ].
    destruct (String.eqb cls "Call"); [ | apply Hgen ].
    eapply verdict_kept_trans; [ | apply Hgen ].
    intros Hm. rewrite bool_decide_eq_true_2; [ now split | ].
    apply Hm, HC. reflexivity.
Qed.

(** X6. A tree with no call and no import statement leaves the verdict
    as it was: NO for a new analyzer. *)
Theorem verdict_kept_without_calls_and_imports
    (tree : value) (st : SideEffectsAnalyzer.t) :
  (forall x, descendant x tree ->
             isinstance x "Call" = false
             /\ isinstance x "Import" = false
             /\ isinstance x "ImportFrom" = false) ->
  SideEffectsAnalyzer.has_side_effects (visit tree st)
  = SideEffectsAnalyzer.has_side_effects st.
Proof.
  intros Hnone. apply (visit_quiet ∅ tree st); [ | set_solver ].
  apply Forall_forall. intros x Hx. apply preorder_descendant in Hx.
  destruct (Hnone x Hx) as (HC & HI & HF). repeat split; try assumption.
  rewrite HC. discriminate.
Qed.

(** X7. The calls written as statements directly in the body of a
    function or of a class do not count: when these are the only calls
    under the definition, and no import statement is under it, visiting
    the definition leaves the verdict as it was. *)
Theorem calls_in_definition_body_not_counted
    (def : value) (st : SideEffectsAnalyzer.t) :
  (isinstance def "FunctionDef" || isinstance def "ClassDef") = true ->
  (forall x, descendant x def ->
             isinstance x "Import" = false /\ isinstance x "ImportFrom" = false) ->
  (forall x, descendant x def -> isinstance x "Call" = true ->
             exists stmt, stmt ∈ iter_child_nodes def
                          /\ isinstance stmt "Expr" = true
                          /\ dict_get stmt "value" = x) ->
  SideEffectsAnalyzer.has_side_effects (visit def st)
  = SideEffectsAnalyzer.has_side_effects st.
Proof.
  intros Hdef Himports Hcalls.
  set (marks := marked (SideEffectsAnalyzer.mark_calls def st)).
  assert (Hquiet : Forall (quiet_node marks) (preorder def)).
  { apply Forall_forall. intros x Hx. apply preorder_descendant in Hx.
    destruct (Himports x Hx) as (HI & HF). repeat split; try assumption.
    intros HC. destruct (Hcalls x Hx HC) as (stmt & Hin & HE & Hval).
    subst x. now apply mark_calls_marks. }
  destruct def as [ | | | | | oid cls lineno col_offset fields ]; try discriminate.
  cbn [preorder] in Hquiet. apply Forall_cons in Hquiet as [ (HI & HF & HC) Hquiet ].
  unfold SideEffectsAnalyzer.has_side_effects.
  rewrite SideEffects_visit_unfold.
  assert (Hgo : verdict (SideEffectsAnalyzer.generic_visit visit
                           (VAst oid cls lineno col_offset fields)
                           (SideEffectsAnalyzer.mark_calls
                              (VAst oid cls lineno col_offset fields) st))
                = verdict st).
  { rewrite <- (mark_calls_verdict (VAst oid cls lineno col_offset fields) st).
    unfold SideEffectsAnalyzer.generic_visit.
    destruct (decide _); [ reflexivity | ].
    refine (proj1 (visit_fields_keeps visit (verdict_kept marks)
                     (verdict_kept_refl marks) (verdict_kept_trans marks)
                     fields _ _ _)); [ | reflexivity ].
    rewrite Forall_flat_map in Hquiet.
    rewrite Forall_forall in Hquiet. apply Forall_forall.
    intros [name v] Hin. specialize (Hquiet _ Hin). cbn [snd] in *. split.
    - intros Hast st'. apply visit_quiet. destruct v; try discriminate. exact Hquiet.
    - intros items ->. rewrite Forall_flat_map in Hquiet.
      rewrite Forall_forall in Hquiet. apply Forall_forall.
      intros i Hi _ st'. apply visit_quiet. now apply Hquiet. }
  unfold isinstance in Hdef.
  destruct (String.eqb cls "FunctionDef"); [ exact Hgo | ].
  destruct (String.eqb cls "ClassDef"); [ exact Hgo | discriminate ].
Qed.
End SideEffectsTrees.

(** ** The importable-names resolver on trees without star imports *)

Section PreorderVisitorExn.
Context {S : Type}.
Variable step : value -> S -> S.
Variable visit : value -> S -> result unit * S.
Variable good : value -> Prop.
Hypothesis visit_node :
  forall node st, is_AST node = true -> good node ->
                  visit node st = NodeVisitor_generic_visit_exn visit node (step node st).

Local Abbreviation run := (fold_left (fun st node => step node st)).

Lemma visit_items_exn_run (items : list value) (st : S) :
  Forall (fun i => is_AST i = true -> Forall good (preorder i) ->
                   forall st, visit i st = (inr tt, run (preorder i) st)) items ->
  Forall good (flat_map preorder items) ->
  visit_items_exn visit items st = (inr tt, run (flat_map preorder items) st).
Proof.
  intros H. revert st. induction H as [ | item items Hitem _ IH ]; intros st Hgood.
  - reflexivity.
  - cbn [visit_items_exn flat_map] in *. apply Forall_app in Hgood as [Hg1 Hg2].
    rewrite fold_left_app. destruct (is_AST item) eqn:E.
    + rewrite Hitem by (reflexivity || assumption). now apply IH.
    + destruct item; try discriminate; now apply IH.
Qed.

Lemma visit_exn_is_run (node : value) (st : S) :
  is_AST node = true ->
  Forall good (preorder node) ->
  visit node st = (inr tt, run (preorder node) st).
Proof.
  intros Hast. revert st.
  set (Q := fun v => is_AST v = true -> Forall good (preorder v) ->
                     forall st, visit v st = (inr tt, run (preorder v) st)).
  enough (H : Q node /\ forall items, node = VList items -> Forall Q items)
    by (intros st Hgood; now apply H).
  clear Hast.
  induction node as [ | s | z | b | items IH | oid cls lineno col_offset fields IH ]
    using value_ind_nested;
    try (split; [ intros Hast; discriminate | discriminate ]).
  - split; [ intros Hast; discriminate | ].
    intros items' [= <-]. eapply Forall_impl; [ exact IH | ]. intros v Hv. apply Hv.
  - split; [ | discriminate ].
    intros _ Hgood st. cbn [preorder] in Hgood.
    apply Forall_cons in Hgood as [Hnode Hgood].
    rewrite visit_node by (reflexivity || assumption).
    cbn [preorder fold_left NodeVisitor_generic_visit_exn].
    generalize (step (VAst oid cls lineno col_offset fields) st) as st'.
    clear st Hnode. induction IH as [ | [name v] fields [Hv Hitems] _ IHfields ]; intros st.
    + reflexivity.
    + cbn [visit_fields_exn flat_map] in *. apply Forall_app in Hgood as [Hg1 Hg2].
      rewrite fold_left_app. cbn [snd] in *.
      assert (Hstep : match v with
                      | VList items => visit_items_exn visit items st
                      | VAst _ _ _ _ _ => visit v st
                      | _ => (inr tt, st)
                      end
                      = (inr tt,
                         run match v with
                             | VList items => flat_map preorder items
                             | _ => preorder v
                             end st)).
      { destruct v; try reflexivity.
        - apply visit_items_exn_run; [ now apply Hitems | exact Hg1 ].
        - now apply Hv. }
      rewrite Hstep. now apply IHfields.
Qed.
End PreorderVisitorExn.

Lemma finally_done (final : result unit * ImportablesAnalyzer.t) :
  ImportablesAnalyzer.finally (inr tt) final = final.
Proof. destruct final as [ [ e | [] ] st ]; reflexivity. Qed.

Lemma ImportablesAnalyzer_visit_run
    (expand : value -> option Path -> value * result unit)
    (revisit : value -> ImportablesAnalyzer.t -> result unit * ImportablesAnalyzer.t)
    (tree : value) (st : ImportablesAnalyzer.t) :
  is_AST tree = true ->
  Forall wildcard_free (preorder tree) ->
  ImportablesAnalyzer.visit expand revisit tree st
  = (inr tt,
     fold_left (fun st node => ImportablesAnalyzer_step node st) (preorder tree) st).
Proof.
  apply (visit_exn_is_run ImportablesAnalyzer_step
           (ImportablesAnalyzer.visit expand revisit) wildcard_free).
  clear tree st. intros node st Hast Hfree.
  destruct node as [ | | | | | oid cls lineno col_offset fields ]; try discriminate.
  rewrite visit_unfold. unfold ImportablesAnalyzer_step.
  unfold wildcard_free in Hfree. unfold isinstance in *.
  destruct (String.eqb cls "Import"); [ reflexivity | ].
  destruct (String.eqb cls "ImportFrom").
  { destruct (Hfree eq_refl) as (first & rest & Hnames & Hstar).
    unfold ImportablesAnalyzer.visit_ImportFrom. rewrite Hnames.
    apply String.eqb_neq in Hstar. rewrite Hstar. apply finally_done. }
  destruct (String.eqb cls "FunctionDef"); [ reflexivity | ].
  destruct (String.eqb cls "ClassDef"); [ reflexivity | ].
  destruct (String.eqb cls "Name"); reflexivity.
Qed.

Local Abbreviation irun := (fold_left (fun st node => ImportablesAnalyzer_step node st)).
Local Abbreviation stats := ImportablesAnalyzer.stats.
Local Abbreviation excluded := ImportablesAnalyzer.not_importables.

Lemma add_names_stats (node : value) (st : ImportablesAnalyzer.t) (name : string) :
  name ∈ stats (ImportablesAnalyzer.add_names node st)
  <-> name ∈ stats st
      \/ exists alias, alias ∈ list_attr node "names" /\ bound_name alias = name.
Proof.
  unfold ImportablesAnalyzer.add_names.
  generalize (list_attr node "names") as names. intros names. revert st.
  induction names as [ | a names IH ]; intros st; cbn [fold_left].
  - split; [ now left | ]. intros [ H | (x & Hx & _) ]; [ exact H | inversion Hx ].
  - rewrite IH. cbn [ImportablesAnalyzer.add_stat ImportablesAnalyzer.stats].
    rewrite elem_of_union, elem_of_singleton. split.
    + intros [ [ -> | H ] | (x & Hx & Hb) ].
      * right. exists a. split; [ apply elem_of_cons; now left | reflexivity ].
      * now left.
      * right. exists x. split; [ apply elem_of_cons; now right | exact Hb ].
    + intros [ H | (x & Hx & Hb) ]; [ left; now right | ].
      apply elem_of_cons in Hx. destruct Hx as [ -> | Hx ].
      * left. left. now symmetry.
      * right. now exists x.
Qed.

Lemma add_names_excluded (node : value) (st : ImportablesAnalyzer.t) :
  excluded (ImportablesAnalyzer.add_names node st) = excluded st.
Proof.
  unfold ImportablesAnalyzer.add_names.
  generalize (list_attr node "names") as names. intros names. revert st.
  induction names as [ | a names IH ]; intros st; [ reflexivity | ].
  cbn [fold_left]. now rewrite IH.
Qed.

Lemma mark_targets_stats (node : value) (st : ImportablesAnalyzer.t) :
  stats (ImportablesAnalyzer.mark_targets node st) = stats st.
Proof.
  unfold ImportablesAnalyzer.mark_targets.
  generalize (iter_child_nodes node) as children. intros children. revert st.
  induction children as [ | c children IH ]; intros st; [ reflexivity | ].
  cbn [fold_left]. rewrite IH. destruct (isinstance c "Assign"); [ | reflexivity ].
  generalize (list_attr c "targets") as targets. intros targets. revert st.
  induction targets as [ | t targets IHt ]; intros st; [ reflexivity | ].
  cbn [fold_left]. now rewrite IHt.
Qed.

Lemma mark_targets_excluded (node : value) (st : ImportablesAnalyzer.t) (oid : nat) :
  oid ∈ excluded (ImportablesAnalyzer.mark_targets node st)
  <-> oid ∈ excluded st
      \/ exists a t, a ∈ iter_child_nodes node /\ isinstance a "Assign" = true
                     /\ t ∈ list_attr a "targets" /\ oid_of t = oid.
Proof.
  unfold ImportablesAnalyzer.mark_targets.
  generalize (iter_child_nodes node) as children. intros children. revert st.
  assert (Htargets : forall targets st,
             oid ∈ excluded
                     (fold_left (fun st target =>
                                   ImportablesAnalyzer.add_not_importable target st)
                                targets st)
             <-> oid ∈ excluded st \/ exists t, t ∈ targets /\ oid_of t = oid).
  { induction targets as [ | t targets IHt ]; intros st; cbn [fold_left].
    - split; [ now left | ]. intros [ H | (x & Hx & _) ]; [ exact H | inversion Hx ].
    - rewrite IHt.
      cbn [ImportablesAnalyzer.add_not_importable ImportablesAnalyzer.not_importables].
      rewrite elem_of_union, elem_of_singleton. split.
      + intros [ [ -> | H ] | (x & Hx & Ho) ].
        * right. exists t. split; [ apply elem_of_cons; now left | reflexivity ].
        * now left.
        * right. exists x. split; [ apply elem_of_cons; now right | exact Ho ].
      + intros [ H | (x & Hx & Ho) ]; [ left; now right | ].
        apply elem_of_cons in Hx. destruct Hx as [ -> | Hx ].
        * left. left. now symmetry.
        * right. now exists x. }
  induction children as [ | c children IH ]; intros st; cbn [fold_left].
  - split; [ now left | ]. intros [ H | (a & t & Ha & _) ]; [ exact H | inversion Ha ].
  - rewrite IH. destruct (isinstance c "Assign") eqn:E.
    + rewrite Htargets. split.
      * intros [ [ H | (t & Ht & Ho) ] | (a & t & Ha & HA & Ht & Ho) ].
        -- now left.
        -- right. exists c, t. repeat split; try assumption.
           apply elem_of_cons. now left.
        -- right. exists a, t. repeat split; try assumption.
           apply elem_of_cons. now right.
      * intros [ H | (a & t & Ha & HA & Ht & Ho) ]; [ left; now left | ].
        apply elem_of_cons in Ha. destruct Ha as [ -> | Ha ].
        -- left. right. now exists t.
        -- right. now exists a, t.
    + split.
      * intros [ H | (a & t & Ha & HA & Ht & Ho) ]; [ now left | ].
        right. exists a, t. repeat split; try assumption.
        apply elem_of_cons. now right.
      * intros [ H | (a & t & Ha & HA & Ht & Ho) ]; [ now left | ].
        apply elem_of_cons in Ha. destruct Ha as [ -> | Ha ]; [ congruence | ].
        right. now exists a, t.
Qed.

(** One step adds to the names exactly what the node contributes. *)
Lemma step_stats (y : value) (st : ImportablesAnalyzer.t) (name : string) :
  name ∈ stats (ImportablesAnalyzer_step y st)
  <-> name ∈ stats st \/ contributes (excluded st) y name.
Proof.
  unfold ImportablesAnalyzer_step, contributes.
  destruct (isinstance y "Import") eqn:EI.
  { rewrite add_names_stats.
    rewrite (isinstance_exclusive y "Import" "FunctionDef"),
            (isinstance_exclusive y "Import" "ClassDef"),
            (isinstance_exclusive y "Import" "Name") by (discriminate || assumption).
    cbn [orb]. intuition discriminate. }
  destruct (isinstance y "ImportFrom") eqn:EF.
  { rewrite add_names_stats.
    rewrite (isinstance_exclusive y "ImportFrom" "FunctionDef"),
            (isinstance_exclusive y "ImportFrom" "ClassDef"),
            (isinstance_exclusive y "ImportFrom" "Name") by (discriminate || assumption).
    cbn [orb]. intuition discriminate. }
  cbn [orb].
  destruct (isinstance y "FunctionDef" || isinstance y "ClassDef")%bool eqn:ED.
  { rewrite mark_targets_stats.
    cbn [ImportablesAnalyzer.add_stat ImportablesAnalyzer.stats].
    rewrite elem_of_union, elem_of_singleton.
    assert (HN : isinstance y "Name" = false).
    { apply orb_true_iff in ED as [ H | H ].
      - now apply (isinstance_exclusive y "FunctionDef" "Name").
      - now apply (isinstance_exclusive y "ClassDef" "Name"). }
    rewrite HN. split.
    - intros [ -> | H ]; [ right; left; now split | now left ].
    - intros [ H | [ [_ H] | [ [H _] | [H _] ] ] ]; try discriminate;
        [ now right | left; now symmetry ]. }
  destruct (isinstance y "Name") eqn:EN.
  - destruct (isinstance (dict_get y "ctx") "Store") eqn:ES.
    + destruct (bool_decide (oid_of y ∈ excluded st)) eqn:EX.
      * apply bool_decide_eq_true_1 in EX. split; [ now left | ].
        intros [ H | [ [H _] | [ [H _] | (_ & _ & H & _) ] ] ];
          try discriminate; [ exact H | contradiction ].
      * apply bool_decide_eq_false_1 in EX.
        cbn [ImportablesAnalyzer.add_stat ImportablesAnalyzer.stats].
        rewrite elem_of_union, elem_of_singleton. split.
        -- intros [ -> | H ]; [ right; right; right; now repeat split | now left ].
        -- intros [ H | [ [H _] | [ [H _] | (_ & _ & _ & H) ] ] ];
             try discriminate; [ now right | left; now symmetry ].
    + split; [ now left | ].
      intros [ H | [ [H _] | [ [H _] | (_ & H & _) ] ] ]; try discriminate; exact H.
  - split; [ now left | ].
    intros [ H | [ [H _] | [ [H _] | (H & _) ] ] ]; try discriminate; exact H.
Qed.

(** One step adds to the excluded identities the targets in the
    definition, when the node is one. *)
Lemma step_excluded (y : value) (st : ImportablesAnalyzer.t) (oid : nat) :
  oid ∈ excluded (ImportablesAnalyzer_step y st)
  <-> oid ∈ excluded st \/ target_in_definition y oid.
Proof.
  unfold ImportablesAnalyzer_step, target_in_definition.
  destruct (isinstance y "Import") eqn:EI.
  { rewrite add_names_excluded.
    rewrite (isinstance_exclusive y "Import" "FunctionDef"),
            (isinstance_exclusive y "Import" "ClassDef") by (discriminate || assumption).
    cbn [orb]. intuition discriminate. }
  destruct (isinstance y "ImportFrom") eqn:EF.
  { rewrite add_names_excluded.
    rewrite (isinstance_exclusive y "ImportFrom" "FunctionDef"),
            (isinstance_exclusive y "ImportFrom" "ClassDef") by (discriminate || assumption).
    cbn [orb]. intuition discriminate. }
  destruct (isinstance y "FunctionDef" || isinstance y "ClassDef")%bool eqn:ED.
  { rewrite mark_targets_excluded.
    cbn [ImportablesAnalyzer.add_stat ImportablesAnalyzer.not_importables].
    intuition. }
  assert (Hsame : excluded
                    (if isinstance y "Name" then
                       if isinstance (dict_get y "ctx") "Store" then
                         if bool_decide (oid_of y ∈ excluded st) then st
                         else ImportablesAnalyzer.add_stat (ident_attr y "id") st
                       else st
                     else st) = excluded st).
  { destruct (isinstance y "Name"); [ | reflexivity ].
    destruct (isinstance (dict_get y "ctx") "Store"); [ | reflexivity ].
    destruct (bool_decide _); reflexivity. }
  rewrite Hsame. intuition discriminate.
Qed.

Lemma irun_grows (nodes : list value) (st : ImportablesAnalyzer.t) :
  stats st ⊆ stats (irun nodes st) /\ excluded st ⊆ excluded (irun nodes st).
Proof.
  revert st. induction nodes as [ | y nodes IH ]; intros st; cbn [fold_left].
  - split; reflexivity.
  - destruct (IH (ImportablesAnalyzer_step y st)) as [Hs He]. split.
    + etransitivity; [ | exact Hs ]. intros name H. apply step_stats. now left.
    + etransitivity; [ | exact He ]. intros oid H. apply step_excluded. now left.
Qed.

(** A name in the result was there before, or is contributed by a node
    at the moment it is visited. *)
Lemma irun_stats (nodes : list value) (st : ImportablesAnalyzer.t) (name : string) :
  name ∈ stats (irun nodes st)
  <-> name ∈ stats st
      \/ exists before y after,
           nodes = (before ++ y :: after)%list
           /\ contributes (excluded (irun before st)) y name.
Proof.
  revert st. induction nodes as [ | x nodes IH ]; intros st; cbn [fold_left].
  - split; [ now left | ].
    intros [ H | (before & y & after & Heq & _) ]; [ exact H | ].
    destruct before; discriminate.
  - rewrite IH, step_stats. split.
    + intros [ [ H | H ] | (before & y & after & Heq & H) ].
      * now left.
      * right. exists [], x, nodes. now split.
      * right. exists (x :: before), y, after. split; [ now rewrite Heq | exact H ].
    + intros [ H | (before & y & after & Heq & H) ]; [ left; now left | ].
      destruct before as [ | x' before ]; cbn [app] in Heq; injection Heq as -> ->.
      * left. right. exact H.
      * right. exists before, y, after. split; [ reflexivity | exact H ].
Qed.

Lemma irun_excluded (nodes : list value) (st : ImportablesAnalyzer.t) (oid : nat) :
  oid ∈ excluded (irun nodes st)
  <-> oid ∈ excluded st \/ exists d, d ∈ nodes /\ target_in_definition d oid.
Proof.
  revert st. induction nodes as [ | x nodes IH ]; intros st; cbn [fold_left].
  - split; [ now left | ]. intros [ H | (d & Hd & _) ]; [ exact H | inversion Hd ].
  - rewrite IH, step_excluded. split.
    + intros [ [ H | H ] | (d & Hd & H) ].
      * now left.
      * right. exists x. split; [ apply elem_of_cons; now left | exact H ].
      * right. exists d. split; [ apply elem_of_cons; now right | exact H ].
    + intros [ H | (d & Hd & H) ]; [ left; now left | ].
      apply elem_of_cons in Hd. destruct Hd as [ -> | Hd ].
      * left. now right.
      * right. now exists d.
Qed.

Lemma contributes_weaken (E E' : gset nat) (y : value) (name : string) :
  E' ⊆ E -> contributes E y name -> contributes E' y name.
Proof.
  intros Hsub [ H | [ H | (HN & HS & HE & Hid) ] ]; [ now left | right; now left | ].
  right. right. repeat split; try assumption. intros Hin. apply HE, Hsub, Hin.
Qed.

Section ImportablesOnTrees.
Variable expand : value -> option Path -> value * result unit.
Variable revisit :
  value -> ImportablesAnalyzer.t -> result unit * ImportablesAnalyzer.t.
Variable tree : value.
Variable st : ImportablesAnalyzer.t.
Hypothesis tree_AST : is_AST tree = true.
Hypothesis tree_wildcard_free : forall x, descendant x tree -> wildcard_free x.

Local Abbreviation visit := (ImportablesAnalyzer.visit expand revisit).

Lemma visit_wildcard_free :
  visit tree st = (inr tt, irun (preorder tree) st).
Proof.
  apply ImportablesAnalyzer_visit_run; [ exact tree_AST | ].
  apply Forall_forall. intros x Hx. apply tree_wildcard_free.
  now apply preorder_descendant.
Qed.

Lemma contributed (x : value) (name : string) (before after : list value) :
  preorder tree = (before ++ x :: after)%list ->
  contributes (excluded (irun before st)) x name ->
  name ∈ ImportablesAnalyzer.get_stats (snd (visit tree st)).
Proof.
  intros Hsplit Hc. rewrite visit_wildcard_free. cbn [snd].
  apply irun_stats. right. now exists before, x, after.
Qed.

Lemma definition_names_importable (x : value) :
  descendant x tree ->
  (isinstance x "FunctionDef" || isinstance x "ClassDef") = true ->
  ident_attr x "name" ∈ ImportablesAnalyzer.get_stats (snd (visit tree st)).
Proof.
  intros Hx Hdef. apply descendant_preorder in Hx; [ | exact tree_AST ].
  apply list_elem_of_split in Hx as (before & after & Hsplit).
  apply (contributed x _ before after Hsplit). left. now split.
Qed.

(** X8. On a tree without star imports the resolver returns normally,
    whatever its surroundings, and its names hold: what was there
    before, the name of every function and class definition of the tree,
    at any depth, and what every alias of every import statement of the
    tree binds. *)
Theorem importables_without_star_imports :
  fst (visit tree st) = inr tt
  /\ stats st ⊆ ImportablesAnalyzer.get_stats (snd (visit tree st))
  /\ (forall x, descendant x tree ->
                (isinstance x "FunctionDef" || isinstance x "ClassDef") = true ->
                ident_attr x "name" ∈ ImportablesAnalyzer.get_stats (snd (visit tree st)))
  /\ (forall x alias,
         descendant x tree ->
         (isinstance x "Import" || isinstance x "ImportFrom") = true ->
         alias ∈ list_attr x "names" ->
         bound_name alias ∈ ImportablesAnalyzer.get_stats (snd (visit tree st))).
Proof.
  split; [ now rewrite visit_wildcard_free | ]. split; [ | split ].
  - rewrite visit_wildcard_free. apply irun_grows.
  - apply definition_names_importable.
  - intros x alias Hx Himport Halias.
    apply descendant_preorder in Hx; [ | exact tree_AST ].
    apply list_elem_of_split in Hx as (before & after & Hsplit).
    apply (contributed x _ before after Hsplit). right. left.
    split; [ exact Himport | now exists alias ].
Qed.

(** X9. On such a tree, a name in store context gives its [id] when its
    identity was not excluded before the visit and is not that of a
    target of an assignment directly in a function or class of the
    tree. *)
Theorem assigned_name_importable (x : value) :
  descendant x tree ->
  isinstance x "Name" = true ->
  isinstance (dict_get x "ctx") "Store" = true ->
  oid_of x ∉ excluded st ->
  (forall d, descendant d tree -> ~ target_in_definition d (oid_of x)) ->
  ident_attr x "id" ∈ ImportablesAnalyzer.get_stats (snd (visit tree st)).
Proof.
  intros Hx HN HS Hst Hnone.
  apply descendant_preorder in Hx; [ | exact tree_AST ].
  apply list_elem_of_split in Hx as (before & after & Hsplit).
  apply (contributed x _ before after Hsplit). right. right.
  repeat split; try assumption.
  intros Hin. apply irun_excluded in Hin as [ Hin | (d & Hd & Htarget) ];
    [ contradiction | ].
  apply (Hnone d); [ | exact Htarget ].
  apply preorder_descendant. rewrite Hsplit. apply elem_of_app. now left.
Qed.

(** X10. On such a tree, a name in the result was there before the
    visit or is given by a node of the tree: the name of a definition,
    what an alias of an import statement binds, or the [id] of a name in
    store context. Nothing else is importable. *)
Theorem importable_names_come_from_the_tree (name : string) :
  name ∈ ImportablesAnalyzer.get_stats (snd (visit tree st)) ->
  name ∈ stats st
  \/ exists y, descendant y tree /\ contributes (excluded st) y name.
Proof.
  rewrite visit_wildcard_free. cbn [snd]. unfold ImportablesAnalyzer.get_stats.
  intros H. apply irun_stats in H as [ H | (before & y & after & Hsplit & Hc) ];
    [ now left | ].
  right. exists y. split.
  - apply preorder_descendant. rewrite Hsplit. apply elem_of_app. right.
    apply elem_of_cons. now left.
  - eapply contributes_weaken; [ | exact Hc ]. apply irun_grows.
Qed.
End ImportablesOnTrees.

(** ** Targets of assignments in a definition *)

Lemma list_attr_child (a t : value) (k : string) :
  t ∈ list_attr a k -> is_AST t = true -> t ∈ iter_child_nodes a.
Proof.
  destruct a as [ | | | | | oid cls lineno col_offset fields ];
    try (intros H; now inversion H).
  unfold list_attr, dict_get, iter_child_nodes. cbn [iter_fields].
  induction fields as [ | [k' v] fields IH ]; cbn [assoc flat_map snd].
  - intros H. inversion H.
  - intros Hin Hast. apply elem_of_app. destruct (String.eqb k k').
    + left. destruct v; try (now inversion Hin). cbn [field_child_nodes].
      apply list_elem_of_filter. now split.
    + right. now apply IH.
Qed.

(** The nodes under a node of the tree come one after the other in the
    order of the visit. *)
Lemma preorder_subtree (tree d : value) :
  d ∈ preorder tree ->
  exists before after, preorder tree = (before ++ preorder d ++ after)%list.
Proof.
  revert d.
  set (Q := fun v => forall d, d ∈ preorder v ->
                     exists before after, preorder v = (before ++ preorder d ++ after)%list).
  enough (H : Q tree /\ forall items, tree = VList items -> Forall Q items) by apply H.
  induction tree as [ | s | z | b | items IH | oid cls lineno col_offset fields IH ]
    using value_ind_nested;
    try (split; [ intros d Hd; now inversion Hd | discriminate ]).
  - split; [ intros d Hd; now inversion Hd | ].
    intros items' [= <-]. eapply Forall_impl; [ exact IH | ]. intros v Hv. apply Hv.
  - split; [ | discriminate ].
    intros d Hd. cbn [preorder] in Hd. apply elem_of_cons in Hd.
    destruct Hd as [ -> | Hd ].
    { exists [], []. now rewrite app_nil_r. }
    cbn [preorder].
    set (F := fun fv : string * value =>
                match fv with
                | (_, VList items) => flat_map preorder items
                | (_, x) => preorder x
                end) in *.
    apply list_elem_of_In, in_flat_map in Hd as (fv & Hfv & Hd).
    apply list_elem_of_In, list_elem_of_split in Hfv as (fs1 & fs2 & ->).
    apply Forall_app in IH as [_ IH]. apply Forall_cons in IH as [ [Hv Hitems] _ ].
    assert (Hin : exists b a, F fv = (b ++ preorder d ++ a)%list).
    { destruct fv as [name v]. cbn [snd] in *. destruct v; try (now inversion Hd).
      - cbn [F] in Hd |- *. apply in_flat_map in Hd as (item & Hitem & Hd).
        apply list_elem_of_In, list_elem_of_split in Hitem as (i1 & i2 & ->).
        specialize (Hitems _ eq_refl).
        apply Forall_app in Hitems as [_ Hitems].
        apply Forall_cons in Hitems as [Hitem _].
        destruct (Hitem d) as (b & a & Heq); [ now apply list_elem_of_In | ].
        exists (flat_map preorder i1 ++ b)%list, (a ++ flat_map preorder i2)%list.
        rewrite flat_map_app. cbn [flat_map]. rewrite Heq.
        now rewrite <- !app_assoc.
      - apply Hv. now apply list_elem_of_In. }
    destruct Hin as (b & a & Heq).
    exists (VAst oid cls lineno col_offset (fs1 ++ fv :: fs2) :: flat_map F fs1 ++ b)%list,
           (a ++ flat_map F fs2)%list.
    rewrite flat_map_app. cbn [flat_map]. rewrite Heq.
    cbn [app]. f_equal. now rewrite <- !app_assoc.
Qed.

Section TargetsExcluded.
Variable expand : value -> option Path -> value * result unit.
Variable revisit :
  value -> ImportablesAnalyzer.t -> result unit * ImportablesAnalyzer.t.

Local Abbreviation visit := (ImportablesAnalyzer.visit expand revisit).

(** X11. On a tree without star imports, a name that is a target of an
    assignment directly in the body of a function or of a class, and
    whose identity belongs to that node only, never puts its [id] in the
    result: a name in the result was there before the visit or is given
    by a node with another identity. *)
Theorem name_target_in_definition_excluded
    (tree d a x : value) (st : ImportablesAnalyzer.t) (name : string) :
  is_AST tree = true ->
  (forall y, descendant y tree -> wildcard_free y) ->
  descendant d tree ->
  (isinstance d "FunctionDef" || isinstance d "ClassDef") = true ->
  a ∈ iter_child_nodes d ->
  isinstance a "Assign" = true ->
  x ∈ list_attr a "targets" ->
  isinstance x "Name" = true ->
  occurs_once tree x ->
  name ∈ ImportablesAnalyzer.get_stats (snd (visit tree st)) ->
  name ∈ stats st
  \/ exists y, descendant y tree
               /\ oid_of y <> oid_of x
               /\ contributes (excluded st) y name.
Proof.
  intros Hast Hfree Hd Hdef Ha HA Hx HN Honce Hname.
  assert (HxAST : is_AST x = true) by (destruct x; try discriminate; reflexivity).
  assert (HdAST : is_AST d = true).
  { destruct d; try discriminate; reflexivity. }
  rewrite (visit_wildcard_free expand revisit tree st Hast Hfree) in Hname.
  cbn [snd] in Hname. unfold ImportablesAnalyzer.get_stats in Hname.
  apply irun_stats in Hname as [ Hname | (before & y & after & Hsplit & Hc) ];
    [ now left | ].
  right. exists y. split; [ | split ].
  { apply preorder_descendant. rewrite Hsplit. apply elem_of_app. right.
    apply elem_of_cons. now left. }
  2: { eapply contributes_weaken; [ | exact Hc ]. apply irun_grows. }
  intros Hoid.
  (* where [d] and [x] are in the order of the visit *)
  apply descendant_preorder in Hd; [ | exact Hast ].
  destruct (preorder_subtree tree d Hd) as (l1 & l2 & Hdec).
  rewrite (preorder_unfold d HdAST) in Hdec.
  set (rest := flat_map preorder (iter_child_nodes d)) in Hdec.
  assert (HxB : x ∈ (rest ++ l2)%list).
  { apply elem_of_app. left. apply list_elem_of_In, in_flat_map. exists a. split.
    - now apply list_elem_of_In.
    - apply list_elem_of_In, descendant_preorder.
      + apply descendant_child with (child := x);
          [ now apply (list_attr_child a x "targets") | apply descendant_refl ].
      + destruct a; try discriminate; reflexivity. }
  (* only one node has the identity of [x] *)
  unfold occurs_once in Honce. rewrite Hdec in Honce.
  cbn [app] in Honce. rewrite filter_app, filter_cons, length_app in Honce.
  assert (HB : (1 <= length (filter (fun y => oid_of y = oid_of x) (rest ++ l2)%list))%nat).
  { assert (Hin : x ∈ filter (fun y => oid_of y = oid_of x) (rest ++ l2)%list)
      by (apply list_elem_of_filter; now split).
    destruct (filter (fun y => oid_of y = oid_of x) (rest ++ l2)%list);
      [ inversion Hin | simpl; lia ]. }
  destruct (decide (oid_of d = oid_of x)) as [ Hdx | Hdx ];
    [ cbn [length] in Honce; lia | ].
  assert (Hl1 : forall z, z ∈ l1 -> oid_of z <> oid_of x).
  { intros z Hz Hzx.
    assert (Hin : z ∈ filter (fun y => oid_of y = oid_of x) l1)
      by (apply list_elem_of_filter; now split).
    destruct (filter (fun y => oid_of y = oid_of x) l1); [ inversion Hin | ].
    cbn [length] in Honce. lia. }
  assert (HBone : forall z, z ∈ (rest ++ l2)%list -> oid_of z = oid_of x -> z = x).
  { intros z Hz Hzx.
    assert (Hinz : z ∈ filter (fun y => oid_of y = oid_of x) (rest ++ l2)%list)
      by (apply list_elem_of_filter; now split).
    assert (Hinx : x ∈ filter (fun y => oid_of y = oid_of x) (rest ++ l2)%list)
      by (apply list_elem_of_filter; now split).
    destruct (filter (fun y => oid_of y = oid_of x) (rest ++ l2)%list)
      as [ | z0 [ | z1 zs ] ].
    - inversion Hinz.
    - apply list_elem_of_singleton in Hinz, Hinx. congruence.
    - cbn [length] in Honce. lia. }
  (* where [y] is *)
  rewrite Hsplit in Hdec. cbn [app] in Hdec.
  apply app_eq_app in Hdec as (m & [ [Hb Hy] | [Hb Hy] ]).
  - (* [y] is [d], or comes after [d] *)
    destruct m as [ | m0 m ]; cbn [app] in Hy.
    + injection Hy as Hy _. subst y. contradiction.
    + injection Hy as Hy Hrest. subst m0.
      assert (Hyx : y = x).
      { apply HBone; [ | exact Hoid ]. rewrite Hrest. apply elem_of_app. right.
        apply elem_of_cons. now left. }
      subst y.
      destruct Hc as [ [Hc _] | [ [Hc _] | (_ & _ & Hc & _) ] ].
      * apply orb_true_iff in Hc as [ Hc | Hc ].
        -- rewrite (isinstance_exclusive x "Name" "FunctionDef") in Hc
             by (discriminate || assumption). discriminate.
        -- rewrite (isinstance_exclusive x "Name" "ClassDef") in Hc
             by (discriminate || assumption). discriminate.
      * apply orb_true_iff in Hc as [ Hc | Hc ].
        -- rewrite (isinstance_exclusive x "Name" "Import") in Hc
             by (discriminate || assumption). discriminate.
        -- rewrite (isinstance_exclusive x "Name" "ImportFrom") in Hc
             by (discriminate || assumption). discriminate.
      * apply Hc. rewrite Hb.
        rewrite fold_left_app. cbn [fold_left].
        apply (proj2 (irun_grows m _)).
        apply step_excluded. right. split; [ exact Hdef | ].
        now exists a, x.
  - (* [y] is [d], or comes before [d] *)
    destruct m as [ | m0 m ]; cbn [app] in Hy.
    + injection Hy as Hy _. subst y. contradiction.
    + injection Hy as Hy _. subst m0. apply (Hl1 y); [ | exact Hoid ].
      rewrite Hb. apply elem_of_app. right. apply elem_of_cons. now left.
Qed.
End TargetsExcluded.

(** ** The placeholder pruner on any lines *)

Lemma blanked_from_refl (lines : list string) : blanked_from lines lines.
Proof. split; [ reflexivity | ]. intros i line H. now right. Qed.

Lemma blanked_from_trans (l1 l2 l3 : list string) :
  blanked_from l1 l2 -> blanked_from l2 l3 -> blanked_from l1 l3.
Proof.
  intros [Hlen12 H12] [Hlen23 H23]. split; [ congruence | ].
  intros i line H3. destruct (H23 i line H3) as [ -> | H2 ]; [ now left | ].
  apply (H12 i line H2).
Qed.

Lemma list_setitem_blank (lines lines' : list string) (i : Z) :
  list_setitem lines i EMPTY = inr lines' -> blanked_from lines lines'.
Proof.
  unfold list_setitem.
  assert (Hins : forall n, blanked_from lines (<[n:=EMPTY]> lines)).
  { intros n. split; [ apply length_insert | ].
    intros j line Hj. destruct (decide (n = j)) as [ -> | Hne ].
    - destruct (decide (j < length lines)%nat) as [ Hlt | Hge ].
      + rewrite list_lookup_insert_eq in Hj by exact Hlt. left. congruence.
      + rewrite list_insert_ge in Hj by lia. now right.
    - rewrite list_lookup_insert_ne in Hj by exact Hne. now right. }
  destruct (_ && _); [ intros [= <-]; apply Hins | ].
  destruct (_ && _); [ intros [= <-]; apply Hins | discriminate ].
Qed.

Lemma blank_passes_blanked (children : list value) (body_len : nat)
    (lines lines' : list string) :
  blank_passes children body_len lines = inr lines' -> blanked_from lines lines'.
Proof.
  revert body_len lines.
  induction children as [ | child children IH ]; intros body_len lines; cbn [blank_passes].
  - intros [= <-]. apply blanked_from_refl.
  - destruct (isinstance child "Pass"); [ | apply IH ].
    destruct (1 <? body_len)%nat; [ | apply IH ].
    destruct (lineno_of child) as [ lineno | ]; [ | discriminate ].
    destruct (list_setitem lines (lineno - 1) EMPTY) as [ e | lines1 ] eqn:E;
      [ discriminate | ].
    intros H. eapply blanked_from_trans; [ | exact (IH _ _ H) ].
    exact (list_setitem_blank _ _ _ E).
Qed.

Lemma prune_all_blanked (parents : list value) (lines lines' : list string) :
  prune_all parents lines = inr lines' -> blanked_from lines lines'.
Proof.
  revert lines. induction parents as [ | parent parents IH ]; intros lines;
    cbn [prune_all].
  - intros [= <-]. apply blanked_from_refl.
  - destruct (prune_parent parent lines) as [ e | lines1 ] eqn:E; [ discriminate | ].
    intros H. eapply blanked_from_trans; [ | exact (IH _ H) ].
    unfold prune_parent in E. destruct (truthy _).
    + destruct (py_len _); [ exact (blank_passes_blanked _ _ _ _ E) | ].
      injection E as <-. apply blanked_from_refl.
    + injection E as <-. apply blanked_from_refl.
Qed.

(** X12. When the pruner returns, it returns as many lines as it was
    given, and each of them is the line it was given at that place or
    the empty string: no line is moved, added, dropped or rewritten. *)
Theorem pruner_only_blanks_lines
    (ast_parse : string -> bool -> builtin_result value)
    (source_lines lines' : list string) :
  remove_useless_passes ast_parse source_lines = inr lines' ->
  length lines' = length source_lines
  /\ forall (i : nat) (line : string),
       lines' !! i = Some line -> line = EMPTY \/ source_lines !! i = Some line.
Proof.
  unfold remove_useless_passes.
  destruct (ast_parse _ false) as [ e | tree ]; [ discriminate | ].
  apply prune_all_blanked.
Qed.

Lemma walk_queue_sound (steps : nat) (todo : list value) (x : value) :
  x ∈ walk_queue steps todo -> exists start, start ∈ todo /\ descendant x start.
Proof.
  revert todo. induction steps as [ | steps IH ]; intros todo Hx.
  - destruct todo; inversion Hx.
  - destruct todo as [ | node rest ]; [ inversion Hx | ].
    cbn [walk_queue] in Hx. apply elem_of_cons in Hx. destruct Hx as [ -> | Hx ].
    + exists node. split; [ apply elem_of_cons; now left | apply descendant_refl ].
    + destruct (IH _ Hx) as (start & Hstart & Hdesc).
      apply elem_of_app in Hstart. destruct Hstart as [ Hstart | Hstart ].
      * exists start. split; [ apply elem_of_cons; now right | exact Hdesc ].
      * exists node. split; [ apply elem_of_cons; now left | ].
        now apply descendant_child with (child := start).
Qed.

Lemma walk_sound (tree x : value) : x ∈ walk tree -> descendant x tree.
Proof.
  intros Hx. apply walk_queue_sound in Hx as (start & Hstart & Hdesc).
  apply list_elem_of_singleton in Hstart. now subst.
Qed.

Lemma blank_passes_short (children : list value) (body_len : nat)
    (lines : list string) :
  (body_len <= 1)%nat -> blank_passes children body_len lines = inr lines.
Proof.
  intros Hlen. induction children as [ | child children IH ]; cbn [blank_passes];
    [ reflexivity | ].
  destruct (isinstance child "Pass"); [ | exact IH ].
  destruct (Nat.ltb_spec 1 body_len); [ lia | exact IH ].
Qed.

Lemma blank_passes_none (children : list value) (body_len : nat)
    (lines : list string) :
  Forall (fun child => isinstance child "Pass" = false) children ->
  blank_passes children body_len lines = inr lines.
Proof.
  induction 1 as [ | child children Hchild _ IH ]; cbn [blank_passes];
    [ reflexivity | ].
  now rewrite Hchild.
Qed.

(** X13. The pruner changes nothing when no node of the tree has both a
    [pass] among its children and a [body] of two statements or more: a
    [pass] is blanked only under a node whose [body] holds at least two
    statements. *)
Theorem pruner_keeps_lines_without_spare_pass
    (ast_parse : string -> bool -> builtin_result value)
    (source_lines : list string) (tree : value) :
  ast_parse (String.concat EMPTY source_lines) false = inr tree ->
  (forall parent,
      descendant parent tree ->
      (exists child, child ∈ iter_child_nodes parent /\ isinstance child "Pass" = true) ->
      forall body_len,
        py_len (dict_get parent "body") = Some body_len -> (body_len <= 1)%nat) ->
  remove_useless_passes ast_parse source_lines = inr source_lines.
Proof.
  intros Hparse Hspare. unfold remove_useless_passes. rewrite Hparse.
  assert (Hall : Forall (fun parent => prune_parent parent source_lines
                                       = inr source_lines) (walk tree)).
  { apply Forall_forall. intros parent Hparent. apply walk_sound in Hparent.
    unfold prune_parent. destruct (truthy _); [ | reflexivity ].
    destruct (py_len (dict_get parent "body")) as [ body_len | ] eqn:Hlen;
      [ | reflexivity ].
    destruct (decide (Forall (fun child => isinstance child "Pass" = false)
                             (iter_child_nodes parent))) as [ Hnone | Hsome ].
    - now apply blank_passes_none.
    - apply blank_passes_short. apply (Hspare parent Hparent); [ | exact Hlen ].
      apply not_Forall_Exists in Hsome; [ | intros child; apply _ ].
      apply Exists_exists in Hsome as (child & Hin & Hpass).
      exists child. split; [ exact Hin | ].
      destruct (isinstance child "Pass") eqn:E;
        [ reflexivity | exfalso; apply Hpass; exact E ]. }
  induction Hall as [ | parent parents Hparent _ IH ]; cbn [prune_all];
    [ reflexivity | ].
  now rewrite Hparent.
Qed.

(** ** Loading a file *)

Section FileFacts.
Variable os_access : Path -> permission -> bool.
Variable open_readlines : Path -> builtin_result (list string).
Variable ast_parse : string -> bool -> builtin_result value.

Local Abbreviation load := (get_file_ast os_access open_readlines ast_parse).

(** What the parser answers, with the fall back for a parser without
    [type_comments]. *)
Local Abbreviation parsed content :=
  (match ast_parse content true with
   | inl (TypeError _) => ast_parse content false
   | r => r
   end).

Lemma check_permissions_error (source : Path) (permissions : list permission)
    (e : exn) :
  check_permissions os_access source permissions = inl e ->
  (e = ReadPermissionError 13 "Permission denied [READ]" source
   /\ R_OK ∈ permissions /\ os_access source R_OK = false)
  \/ (e = WritePermissionError 13 "Permission denied [WRITE]" source
      /\ W_OK ∈ permissions /\ os_access source W_OK = false).
Proof.
  induction permissions as [ | p ps IH ]; cbn [check_permissions]; [ discriminate | ].
  assert (Hrest : check_permissions os_access source ps = inl e ->
                  (e = ReadPermissionError 13 "Permission denied [READ]" source
                   /\ R_OK ∈ p :: ps /\ os_access source R_OK = false)
                  \/ (e = WritePermissionError 13 "Permission denied [WRITE]" source
                      /\ W_OK ∈ p :: ps /\ os_access source W_OK = false)).
  { intros H. destruct (IH H) as [ (? & ? & ?) | (? & ? & ?) ]; [ left | right ];
      (repeat split; [ assumption | apply elem_of_cons; now right | assumption ]). }
  destruct (os_access source p) eqn:E; [ exact Hrest | ].
  destruct p; try exact Hrest; intros [= <-]; [ left | right ];
    (repeat split; [ apply elem_of_cons; now left | exact E ]).
Qed.

Lemma check_permissions_granted (source : Path) (permissions : list permission) :
  check_permissions os_access source permissions = inr tt ->
  forall p, p ∈ permissions -> p = R_OK \/ p = W_OK -> os_access source p = true.
Proof.
  induction permissions as [ | q qs IH ]; cbn [check_permissions];
    intros H p Hp Hkind; [ inversion Hp | ].
  apply elem_of_cons in Hp.
  destruct (os_access source q) eqn:E.
  - destruct Hp as [ -> | Hp ]; [ exact E | now apply IH ].
  - destruct q; try discriminate.
    + destruct Hp as [ -> | Hp ]; [ destruct Hkind; discriminate | now apply IH ].
    + destruct Hp as [ -> | Hp ]; [ destruct Hkind; discriminate | now apply IH ].
Qed.

(** X14. A permission error of [get_file_ast] is the one of a
    permission that was asked for and that the file does not grant, with
    errno 13 and the path of the file; no [WritePermissionError] is
    raised when only [os.R_OK] is asked for, as [expand_import_star]
    does. *)
Theorem get_file_ast_permission_errors
    (source : Path) (get_lines : bool) (permissions : list permission) :
  (forall errno strerror filepath,
      load source get_lines permissions
      = inl (ReadPermissionError errno strerror filepath) ->
      errno = 13 /\ strerror = "Permission denied [READ]" /\ filepath = source
      /\ R_OK ∈ permissions /\ os_access source R_OK = false)
  /\ (forall errno strerror filepath,
         load source get_lines permissions
         = inl (WritePermissionError errno strerror filepath) ->
         errno = 13 /\ strerror = "Permission denied [WRITE]" /\ filepath = source
         /\ W_OK ∈ permissions /\ os_access source W_OK = false)
  /\ (forall errno strerror filepath,
         load source get_lines [R_OK]
         <> inl (WritePermissionError errno strerror filepath)).
Proof.
  assert (Hload : forall perms e,
             load source get_lines perms = inl e ->
             (forall a b c, e <> ReadPermissionError a b c)
             /\ (forall a b c, e <> WritePermissionError a b c)
             \/ check_permissions os_access source perms = inl e).
  { intros perms e. unfold get_file_ast.
    destruct (check_permissions os_access source perms) as [ e' | [] ];
      [ intros [= <-]; now right | ].
    destruct (open_readlines source) as [ e' | file_lines ];
      [ intros [= <-]; left; split; discriminate | ].
    destruct (parsed (String.concat EMPTY file_lines))
      as [ [ | | | | | | | ] | tree ];
      intros [= <-]; left; split; discriminate. }
  split; [ | split ].
  - intros errno strerror filepath H.
    destruct (Hload _ _ H) as [ [Hno _] | Hcheck ]; [ now destruct (Hno errno strerror filepath) | ].
    apply check_permissions_error in Hcheck as [ (Heq & ? & ?) | (Heq & _) ];
      [ | discriminate ].
    injection Heq as -> -> ->. now repeat split.
  - intros errno strerror filepath H.
    destruct (Hload _ _ H) as [ [_ Hno] | Hcheck ]; [ now destruct (Hno errno strerror filepath) | ].
    apply check_permissions_error in Hcheck as [ (Heq & _) | (Heq & ? & ?) ];
      [ discriminate | ].
    injection Heq as -> -> ->. now repeat split.
  - intros errno strerror filepath H.
    destruct (Hload _ _ H) as [ [_ Hno] | Hcheck ]; [ now destruct (Hno errno strerror filepath) | ].
    apply check_permissions_error in Hcheck as [ (Heq & _) | (_ & Hin & _) ];
      [ discriminate | ].
    apply list_elem_of_singleton in Hin. discriminate.
Qed.

(** X15. When [get_file_ast] returns, the permissions asked for among
    [os.R_OK] and [os.W_OK] are granted, the tree is what the parser
    gives for the lines of the file joined (parsed again without
    [type_comments] when the parser raises [TypeError] on them), and the
    lines returned are those of the file when [get_lines] is set and
    none otherwise. *)
Theorem get_file_ast_returns
    (source : Path) (get_lines : bool) (permissions : list permission)
    (tree : value) (lines : list string) :
  load source get_lines permissions = inr (tree, lines) ->
  (forall p, p ∈ permissions -> p = R_OK \/ p = W_OK -> os_access source p = true)
  /\ exists file_lines,
       open_readlines source = inr file_lines
       /\ lines = (if get_lines then file_lines else [])
       /\ (ast_parse (String.concat EMPTY file_lines) true = inr tree
           \/ exists msg,
                ast_parse (String.concat EMPTY file_lines) true = inl (TypeError msg)
                /\ ast_parse (String.concat EMPTY file_lines) false = inr tree).
Proof.
  unfold get_file_ast.
  destruct (check_permissions os_access source permissions) as [ e | [] ] eqn:Hcheck;
    [ discriminate | ].
  destruct (open_readlines source) as [ e | file_lines ]; [ discriminate | ].
  intros H. split; [ now apply check_permissions_granted | ].
  exists file_lines. split; [ reflexivity | ].
  destruct (ast_parse (String.concat EMPTY file_lines) true)
    as [ [ | | msg | | | | | ] | tree1 ] eqn:Hfirst; try discriminate.
  - destruct (ast_parse (String.concat EMPTY file_lines) false)
      as [ [ | | | | | | | ] | tree2 ] eqn:Hsecond; try discriminate.
    injection H as <- <-. split; [ reflexivity | ]. right. now exists msg.
  - injection H as <- <-. split; [ reflexivity | ]. now left.
Qed.

(** X16. [UnparsableFile] carries the path of the file and the
    [SyntaxError] or [ValueError] that the parser raised on the lines of
    the file joined; and such an error of the parser is never raised as
    it is. *)
Theorem get_file_ast_unparsable
    (source : Path) (get_lines : bool) (permissions : list permission) :
  (forall path err,
      load source get_lines permissions = inl (UnparsableFile path err) ->
      path = source
      /\ ((exists msg, err = SyntaxError msg) \/ (exists msg, err = ValueError msg))
      /\ exists file_lines,
           open_readlines source = inr file_lines
           /\ parsed (String.concat EMPTY file_lines) = inl err)
  /\ (forall file_lines err,
         check_permissions os_access source permissions = inr tt ->
         open_readlines source = inr file_lines ->
         parsed (String.concat EMPTY file_lines) = inl err ->
         (exists msg, err = SyntaxError msg) \/ (exists msg, err = ValueError msg) ->
         load source get_lines permissions = inl (UnparsableFile source err)).
Proof.
  split.
  - intros path err. unfold get_file_ast.
    destruct (check_permissions os_access source permissions) as [ e | [] ] eqn:Hcheck.
    { intros [= ->].
      apply check_permissions_error in Hcheck as [ (? & _) | (? & _) ]; discriminate. }
    destruct (open_readlines source) as [ e | file_lines ]; [ discriminate | ].
    destruct (parsed (String.concat EMPTY file_lines))
      as [ [ m | m | | | | | | ] | tree ] eqn:Hparsed; try discriminate.
    + intros [= <- <-]. split; [ reflexivity | ]. split; [ left; now exists m | ].
      now exists file_lines.
    + intros [= <- <-]. split; [ reflexivity | ]. split; [ right; now exists m | ].
      now exists file_lines.
  - intros file_lines err Hcheck Hopen Hparsed Hkind. unfold get_file_ast.
    rewrite Hcheck, Hopen, Hparsed.
    destruct Hkind as [ (m & ->) | (m & ->) ]; reflexivity.
Qed.
End FileFacts.

(** ** More on the wildcard expander *)

Lemma str_repeat_DOT_truthy (n : nat) :
  truthy (VStr (str_repeat DOT n)) = negb (Nat.eqb n 0).
Proof. destruct n; reflexivity. Qed.

Section ExpanderMore.
Variable get_import_from_path :
  option Path -> string -> option string -> Z -> option Path.
Variable os_access : Path -> permission -> bool.
Variable open_readlines : Path -> builtin_result (list string).
Variable ast_parse : string -> bool -> builtin_result value.
Variable ReadPermissionError_msg : Z -> string -> Path -> option string.
Variable UnparsableFile_msg : Path -> builtin_exn -> option string.
Context {ModuleSpec PyModule : Type}.
Variable find_spec :
  option string -> option string -> builtin_result (option ModuleSpec).
Variable create_module : ModuleSpec -> builtin_result (option PyModule).
Variable dir : PyModule -> list string.

Local Abbreviation visit_at :=
  (analyzer_visit get_import_from_path os_access open_readlines ast_parse
     ReadPermissionError_msg UnparsableFile_msg find_spec create_module dir).
Local Abbreviation expand_at :=
  (expand_import_star get_import_from_path os_access open_readlines ast_parse
     ReadPermissionError_msg UnparsableFile_msg find_spec create_module dir).
Local Abbreviation resolve :=
  (resolve_importables get_import_from_path os_access open_readlines ast_parse
     find_spec create_module dir).
Local Abbreviation c_libs :=
  (ImportablesAnalyzer.handle_c_libs_importables find_spec create_module dir).

(** X17. [expand_import_star] never lets a [ReadPermissionError], an
    [UnparsableFile] or a [ModuleNotFoundError] out. Any exception of
    another class that is raised while the module is loaded or resolved
    goes through as it is, the node being left as it was: so does the
    error of a file that cannot be opened. *)
Theorem expand_import_star_lets_through
    (depth : nat) (node : value) (source : option Path) :
  (forall errno strerror filepath,
      snd (expand_at depth node source)
      <> inl (ReadPermissionError errno strerror filepath))
  /\ (forall path err,
         snd (expand_at depth node source) <> inl (UnparsableFile path err))
  /\ (forall msg name,
         snd (expand_at depth node source)
         <> inl (Builtin (ModuleNotFoundError msg name)))
  /\ (forall err,
         resolve (visit_at depth) node source = inl err ->
         (forall errno strerror filepath,
             err <> ReadPermissionError errno strerror filepath) ->
         (forall path e, err <> UnparsableFile path e) ->
         (forall msg name, err <> Builtin (ModuleNotFoundError msg name)) ->
         expand_at depth node source = (node, inl err))
  /\ (forall module_path e,
         get_import_from_path source STAR (str_attr node "module") (level_attr node)
         = Some module_path ->
         os_access module_path R_OK = true ->
         open_readlines module_path = inl e ->
         (forall msg name, e <> ModuleNotFoundError msg name) ->
         expand_at depth node source = (node, inl (Builtin e))).
Proof.
  assert (Hthrough : forall err,
             resolve (visit_at depth) node source = inl err ->
             (forall errno strerror filepath,
                 err <> ReadPermissionError errno strerror filepath) ->
             (forall path e, err <> UnparsableFile path e) ->
             (forall msg name, err <> Builtin (ModuleNotFoundError msg name)) ->
             expand_at depth node source = (node, inl err)).
  { intros err Hres Hread Hparse Hfound.
    unfold expand_import_star, expand_import_star_with. rewrite Hres.
    destruct err as [ errno strerror filepath | | path e | | e ].
    - now contradiction (Hread errno strerror filepath).
    - reflexivity.
    - now contradiction (Hparse path e).
    - reflexivity.
    - destruct e as [ | | | | | msg name | | ]; try reflexivity.
      now contradiction (Hfound msg name). }
  assert (Hnever : forall err,
             snd (expand_at depth node source) = inl err ->
             (forall errno strerror filepath,
                 err <> ReadPermissionError errno strerror filepath)
             /\ (forall path e, err <> UnparsableFile path e)
             /\ (forall msg name, err <> Builtin (ModuleNotFoundError msg name))).
  { intros err. unfold expand_import_star, expand_import_star_with.
    destruct (resolve (visit_at depth) node source) as [ err' | importables ].
    - destruct err' as [ errno strerror filepath | | path e | | e ];
        [ | | | | destruct e as [ | | | | | msg name | | ] ];
        cbn [caught];
        try (destruct (lineno_of node), (col_offset_of node));
        cbn [snd]; intros [= <-]; repeat split; discriminate.
    - destruct (dict_get node "names"); cbn [snd]; try discriminate;
        intros [= <-]; repeat split; discriminate. }
  refine (conj _ (conj _ (conj _ (conj Hthrough _)))).
  - intros errno strerror filepath H.
    now apply (proj1 (Hnever _ H) errno strerror filepath).
  - intros path err H.
    now apply (proj1 (proj2 (Hnever _ H)) path err).
  - intros msg name H.
    now apply (proj2 (proj2 (Hnever _ H)) msg name).
  - intros module_path e Hpath Haccess Hopen Hfound.
    apply Hthrough.
    + unfold resolve_importables, get_file_ast. rewrite Hpath.
      cbn [check_permissions]. rewrite Haccess, Hopen. reflexivity.
    + discriminate.
    + discriminate.
    + intros msg name [= ->]. now contradiction (Hfound msg name).
Qed.

(** X18. For a module without source file, the names come from the
    interpreter: [find_spec] is asked for the module, with no package at
    level 0 and with the dots of the level otherwise; when it gives a
    specification from which a module is created, the importables are
    the names that [dir] lists, each once; when no specification or no
    module comes back, [ModuleNotFoundError] is raised for the module,
    which [expand_import_star] turns into [UnexpandableImportStar] with
    the cause "module not found!". *)
Theorem importables_of_module_without_source (node : value) :
  (forall spec module,
      find_spec (str_attr node "module") (package_argument node) = inr (Some spec) ->
      create_module spec = inr (Some module) ->
      c_libs node = inr (list_to_set (dir module))
      /\ forall name, name ∈ (list_to_set (dir module) : gset string)
                      <-> name ∈ dir module)
  /\ (find_spec (str_attr node "module") (package_argument node) = inr None
      \/ (exists spec,
             find_spec (str_attr node "module") (package_argument node)
             = inr (Some spec)
             /\ create_module spec = inr None) ->
      c_libs node
      = inl (Builtin (ModuleNotFoundError None (str_attr node "module")))
      /\ forall depth source lineno col_offset,
           get_import_from_path source STAR (str_attr node "module") (level_attr node)
           = None ->
           lineno_of node = Some lineno ->
           col_offset_of node = Some col_offset ->
           expand_at depth node source
           = (node,
              inl (UnexpandableImportStar source lineno col_offset "module not found!"))).
Proof.
  assert (Hpkg : (if truthy (VStr (str_repeat DOT (Z.to_nat (level_attr node))))
                  then Some (str_repeat DOT (Z.to_nat (level_attr node)))
                  else None) = package_argument node).
  { unfold package_argument. rewrite str_repeat_DOT_truthy.
    destruct (Z.ltb_spec 0 (level_attr node)) as [ Hpos | Hneg ].
    - destruct (Z.to_nat (level_attr node)) eqn:E; [ lia | reflexivity ].
    - replace (Z.to_nat (level_attr node)) with 0%nat by lia. reflexivity. }
  split.
  - intros spec module Hspec Hmodule.
    unfold ImportablesAnalyzer.handle_c_libs_importables.
    cbv zeta. rewrite Hpkg, Hspec, Hmodule. split; [ reflexivity | ].
    intros name. apply elem_of_list_to_set.
  - intros Hnone.
    assert (Hraise : c_libs node
                     = inl (Builtin (ModuleNotFoundError None (str_attr node "module")))).
    { unfold ImportablesAnalyzer.handle_c_libs_importables. cbv zeta. rewrite Hpkg.
      destruct Hnone as [ -> | (spec & -> & ->) ]; reflexivity. }
    split; [ exact Hraise | ].
    intros depth source lineno col_offset Hpath Hline Hcol.
    unfold expand_import_star, expand_import_star_with, resolve_importables.
    rewrite Hpath, Hraise, Hline, Hcol. reflexivity.
Qed.

(** X19. Expanding against a source file without star imports: when
    the module resolves to a file that loads, whose tree has no star
    import, the expansion succeeds at any depth above 0, and every
    function and class defined in that file, at any depth, is the name of
    one of the aliases of the node. *)
Theorem expansion_lists_the_definitions
    (depth : nat) (node tree : value) (source : option Path) (module_path : Path)
    (lines : list string) (old : list value) :
  get_import_from_path source STAR (str_attr node "module") (level_attr node)
  = Some module_path ->
  get_file_ast os_access open_readlines ast_parse module_path false [R_OK]
  = inr (tree, lines) ->
  is_AST tree = true ->
  (forall x, descendant x tree -> wildcard_free x) ->
  dict_get node "names" = VList old ->
  snd (expand_at (S depth) node source) = inr tt
  /\ forall x,
       descendant x tree ->
       (isinstance x "FunctionDef" || isinstance x "ClassDef") = true ->
       exists alias,
         alias ∈ list_attr (fst (expand_at (S depth) node source)) "names"
         /\ ident_attr alias "name" = ident_attr x "name"
         /\ dict_get alias "asname" = VNone.
Proof.
  intros Hpath Hload Hast Hfree Hnames.
  set (analyzer := ImportablesAnalyzer.set_source source ImportablesAnalyzer.init).
  pose proof (visit_wildcard_free
                (expand_import_star_with get_import_from_path os_access open_readlines
                   ast_parse ReadPermissionError_msg UnparsableFile_msg
                   find_spec create_module dir (visit_at depth))
                (visit_at depth) tree analyzer Hast Hfree) as Hrun.
  pose proof (definition_names_importable
                (expand_import_star_with get_import_from_path os_access open_readlines
                   ast_parse ReadPermissionError_msg UnparsableFile_msg
                   find_spec create_module dir (visit_at depth))
                (visit_at depth) tree analyzer Hast Hfree) as Hdefs.
  change (ImportablesAnalyzer.visit _ _ tree analyzer)
    with (visit_at (S depth) tree analyzer) in Hrun, Hdefs.
  assert (Hok : fst (visit_at (S depth) tree analyzer) = inr tt) by now rewrite Hrun.
  clear Hrun.
  assert (Hexpand : expand_at (S depth) node source
                    = (set_attr node "names"
                         (VList (map new_alias
                                   (elements (ImportablesAnalyzer.get_stats
                                                (snd (visit_at (S depth) tree analyzer)))))),
                       inr tt)).
  { unfold expand_import_star, expand_import_star_with, resolve_importables.
    rewrite Hpath, Hload. fold analyzer.
    destruct (visit_at (S depth) tree analyzer) as [ [ e | [] ] analyzer' ];
      [ discriminate | ].
    rewrite Hnames. reflexivity. }
  rewrite Hexpand. cbn [fst snd]. split; [ reflexivity | ].
  intros x Hx Hdef.
  rewrite (list_attr_set_attr node "names" _ old Hnames).
  exists (new_alias (ident_attr x "name")). split; [ | split; reflexivity ].
  apply list_elem_of_In, in_map, list_elem_of_In, elem_of_elements.
  now apply Hdefs.
Qed.
End ExpanderMore.

(** ** Using the side-effect classifier again after [reset] *)

Section NodeVisitorSimulation.
Context {S : Type} (visit : value -> S -> S).
Variable R : S -> S -> Prop.

Local Abbreviation simulated v :=
  (is_AST v = true -> forall s1 s2, R s1 s2 -> R (visit v s1) (visit v s2)).

Lemma visit_items_simulated (items : list value) (s1 s2 : S) :
  Forall (fun i => simulated i) items ->
  R s1 s2 ->
  R (visit_items visit items s1) (visit_items visit items s2).
Proof.
  intros H. revert s1 s2. induction H as [ | item items Hitem _ IH ]; intros s1 s2 HR.
  - exact HR.
  - cbn [visit_items]. apply IH. destruct (is_AST item); [ now apply Hitem | exact HR ].
Qed.

Lemma visit_fields_simulated (fs : list (string * value)) (s1 s2 : S) :
  Forall (fun fv => simulated (snd fv)
                    /\ forall items, snd fv = VList items ->
                         Forall (fun i => simulated i) items) fs ->
  R s1 s2 ->
  R (visit_fields visit fs s1) (visit_fields visit fs s2).
Proof.
  intros H. revert s1 s2.
  induction H as [ | [name v] fs [Hv Hitems] _ IH ]; intros s1 s2 HR;
    cbn [visit_fields snd] in *.
  - exact HR.
  - apply IH. destruct v; try exact HR.
    + apply visit_items_simulated; [ now apply Hitems | exact HR ].
    + now apply Hv.
Qed.
End NodeVisitorSimulation.

Section SideEffectsReset.
Variables (std se : gset string).
Variable stale : gset nat.

Local Abbreviation visit := (SideEffectsAnalyzer.visit std se).
Local Abbreviation verdict := SideEffectsAnalyzer.verdict.
Local Abbreviation marked := SideEffectsAnalyzer.not_side_effect.

Lemma mark_calls_simulated (node : value) (st1 st2 : SideEffectsAnalyzer.t) :
  same_but_marks stale st1 st2 ->
  same_but_marks stale (SideEffectsAnalyzer.mark_calls node st1)
                       (SideEffectsAnalyzer.mark_calls node st2).
Proof.
  unfold SideEffectsAnalyzer.mark_calls.
  generalize (iter_child_nodes node) as children. intros children. revert st1 st2.
  induction children as [ | child children IH ]; intros st1 st2 Hsim; [ exact Hsim | ].
  cbn [fold_left]. apply IH.
  destruct (isinstance child "Expr"); [ | exact Hsim ].
  destruct (isinstance (dict_get child "value") "Call"); [ | exact Hsim ].
  destruct Hsim as [Hv Hm]. split; cbn; [ exact Hv | ].
  rewrite Hm. now rewrite (assoc_L (∪)).
Qed.

Lemma visit_simulated (node : value) (st1 st2 : SideEffectsAnalyzer.t) :
  Forall (fun x => isinstance x "Call" = true -> oid_of x ∉ stale) (preorder node) ->
  same_but_marks stale st1 st2 ->
  same_but_marks stale (visit node st1) (visit node st2).
Proof.
  revert st1 st2.
  set (fresh := fun x => isinstance x "Call" = true -> oid_of x ∉ stale).
  set (Q := fun v => Forall fresh (preorder v) ->
                     forall st1 st2, same_but_marks stale st1 st2 ->
                                     same_but_marks stale (visit v st1) (visit v st2)).
  enough (H : Q node /\ forall items, node = VList items -> Forall Q items)
    by (intros st1 st2 Hfresh; now apply H).
  induction node as [ | s | z | b | items IH | oid cls lineno col_offset fields IH ]
    using value_ind_nested;
    try (split; [ intros _ st1 st2 Hsim; exact Hsim | discriminate ]).
  - split; [ intros _ st1 st2 Hsim; exact Hsim | ].
    intros items' [= <-]. eapply Forall_impl; [ exact IH | ]. intros v Hv. apply Hv.
  - split; [ | discriminate ].
    intros Hfresh. cbn [preorder] in Hfresh.
    apply Forall_cons in Hfresh as [Hnode Hfresh]. rewrite Forall_flat_map in Hfresh.
    assert (Hgen : forall st1 st2,
               same_but_marks stale st1 st2 ->
               same_but_marks stale
                 (SideEffectsAnalyzer.generic_visit visit
                    (VAst oid cls lineno col_offset fields) st1)
                 (SideEffectsAnalyzer.generic_visit visit
                    (VAst oid cls lineno col_offset fields) st2)).
    { intros st1 st2 Hsim. unfold SideEffectsAnalyzer.generic_visit.
      destruct Hsim as [Hv Hm]. rewrite <- Hv.
      destruct (decide (verdict st1 = YES)); [ now split | ].
      cbn [NodeVisitor_generic_visit].
      apply (visit_fields_simulated visit (same_but_marks stale)); [ | now split ].
      rewrite Forall_forall in IH, Hfresh. apply Forall_forall.
      intros [name v] Hin. destruct (IH _ Hin) as [Hq Hitems].
      specialize (Hfresh _ Hin). cbn [snd] in *. split.
      - intros Hast. apply Hq. destruct v; try discriminate. exact Hfresh.
      - intros items ->. specialize (Hitems _ eq_refl).
        rewrite Forall_flat_map in Hfresh.
        rewrite Forall_forall in Hitems, Hfresh. apply Forall_forall.
        intros i Hi _. apply (Hitems i Hi). now apply Hfresh. }
    intros st1 st2 Hsim. rewrite !SideEffects_visit_unfold.
    destruct (String.eqb cls "FunctionDef");
      [ apply Hgen; now apply mark_calls_simulated | ].
    destruct (String.eqb cls "ClassDef");
      [ apply Hgen; now apply mark_calls_simulated | ].
    destruct (String.eqb cls "Call") eqn:Ecall.
    { apply Hgen. destruct Hsim as [Hv Hm].
      assert (Hsame : bool_decide (oid ∈ marked st2) = bool_decide (oid ∈ marked st1)).
      { apply bool_decide_ext. rewrite Hm, elem_of_union. split; [ | now left ].
        intros [ H | H ]; [ exact H | ]. exfalso. now apply (Hnode Ecall). }
      cbn [oid_of]. rewrite Hsame.
      destruct (bool_decide (oid ∈ marked st1)); now split. }
    destruct Hsim as [Hv Hm].
    destruct (String.eqb cls "Import");
      [ apply Hgen; split; cbn; [ now rewrite Hv | exact Hm ] | ].
    destruct (String.eqb cls "ImportFrom");
      [ apply Hgen; split; cbn; [ now rewrite Hv | exact Hm ] | ].
    apply Hgen. now split.
Qed.

End SideEffectsReset.

(** X20. After [reset], a [SideEffectsAnalyzer] that has been used
    answers as a new one on every tree none of whose calls is among the
    calls it has marked before. *)
Theorem reset_then_visit_as_new
    (std se : gset string) (tree : value) (st : SideEffectsAnalyzer.t) :
  (forall x, descendant x tree -> isinstance x "Call" = true ->
             oid_of x ∉ SideEffectsAnalyzer.not_side_effect st) ->
  SideEffectsAnalyzer.has_side_effects
    (SideEffectsAnalyzer.visit std se tree (SideEffectsAnalyzer.reset st))
  = SideEffectsAnalyzer.has_side_effects
      (SideEffectsAnalyzer.visit std se tree SideEffectsAnalyzer.init).
Proof.
  intros Hfresh. symmetry.
  apply (visit_simulated std se (SideEffectsAnalyzer.not_side_effect st) tree
           SideEffectsAnalyzer.init (SideEffectsAnalyzer.reset st)).
  - apply Forall_forall. intros x Hx HC. apply Hfresh; [ | exact HC ].
    now apply preorder_descendant.
  - split; [ reflexivity | ]. cbn. now rewrite (left_id_L ∅ (∪)).
Qed.

(** ** The further properties on the trees of [Scenario] and [Sample] *)

Lemma forall_descendants (tree : value) (P : value -> Prop) :
  is_AST tree = true ->
  Forall P (preorder tree) ->
  forall x, descendant x tree -> P x.
Proof.
  intros Hast HP x Hx. rewrite Forall_forall in HP. apply HP.
  now apply descendant_preorder.
Qed.

Lemma verdict_kept_without_calls_and_imports_witness :
  SideEffectsAnalyzer.has_side_effects
    (SideEffectsAnalyzer.visit Scenario.std_names Scenario.side_effect_names
       Scenario.def_f_name SideEffectsAnalyzer.init)
  = SideEffectsAnalyzer.has_side_effects SideEffectsAnalyzer.init.
Proof.
  apply verdict_kept_without_calls_and_imports.
  apply (forall_descendants Scenario.def_f_name
           (fun x => isinstance x "Call" = false
                     /\ isinstance x "Import" = false
                     /\ isinstance x "ImportFrom" = false));
    [ reflexivity | ].
  decide_by_computation.
Defined.

Lemma YES_kept_outside_imports_witness :
  SideEffectsAnalyzer.has_side_effects
    (SideEffectsAnalyzer.visit Scenario.std_names Scenario.side_effect_names
       Scenario.print_call (SideEffectsAnalyzer.mk ∅ YES)) = YES.
Proof. apply YES_kept_outside_imports; reflexivity. Defined.

Lemma calls_in_definition_body_not_counted_witness :
  SideEffectsAnalyzer.has_side_effects
    (SideEffectsAnalyzer.visit Scenario.std_names Scenario.side_effect_names
       Sample.def_f SideEffectsAnalyzer.init)
  = SideEffectsAnalyzer.has_side_effects SideEffectsAnalyzer.init.
Proof.
  apply calls_in_definition_body_not_counted.
  - reflexivity.
  - apply (forall_descendants Sample.def_f
             (fun x => isinstance x "Import" = false
                       /\ isinstance x "ImportFrom" = false));
      [ reflexivity | ].
    decide_by_computation.
  - apply (forall_descendants Sample.def_f
             (fun x => isinstance x "Call" = true ->
                       exists stmt, stmt ∈ iter_child_nodes Sample.def_f
                                    /\ isinstance stmt "Expr" = true
                                    /\ dict_get stmt "value" = x));
      [ reflexivity | ].
    let l := eval vm_compute in (preorder Sample.def_f) in
    change (preorder Sample.def_f) with l.
    each_node ltac:(intros H;
                    first [ discriminate H
                          | exists Scenario.g_call; split;
                            [ apply list_elem_of_In; simpl; tauto
                            | split; reflexivity ] ]).
Defined.

Lemma importables_without_star_imports_witness :
  fst (Sample.resolver Sample.imports_and_call ImportablesAnalyzer.init) = inr tt.
Proof.
  refine (proj1 (importables_without_star_imports
                   (Scenario.expand 0) (Scenario.visit 0)
                   Sample.imports_and_call ImportablesAnalyzer.init _ _)).
  - reflexivity.
  - apply forall_descendants; [ reflexivity | ]. decide_by_computation.
Defined.

Lemma assigned_name_importable_witness :
  "x" ∈ ImportablesAnalyzer.get_stats
          (snd (Sample.resolver Scenario.module_tree ImportablesAnalyzer.init)).
Proof.
  apply (assigned_name_importable (Scenario.expand 0) (Scenario.visit 0)
           Scenario.module_tree ImportablesAnalyzer.init eq_refl
           (forall_descendants Scenario.module_tree wildcard_free eq_refl
              ltac:(decide_by_computation))
           Sample.module_x).
  - apply preorder_descendant, list_elem_of_In. vm_compute. tauto.
  - reflexivity.
  - reflexivity.
  - not_in_set.
  - apply (forall_descendants Scenario.module_tree
             (fun d => ~ target_in_definition d (oid_of Sample.module_x)));
      [ reflexivity | ].
    let l := eval vm_compute in (preorder Scenario.module_tree) in
    change (preorder Scenario.module_tree) with l.
    each_node ltac:(intros (Hdef & a & t & Ha & HA & _);
                    first [ discriminate Hdef
                          | apply list_elem_of_In in Ha; simpl in Ha;
                            repeat (destruct Ha as [ <- | Ha ]; [ discriminate HA | ]);
                            exact Ha ]).
Defined.

Lemma importable_names_come_from_the_tree_witness :
  "foo" ∈ ImportablesAnalyzer.stats ImportablesAnalyzer.init
  \/ exists y, descendant y Scenario.module_tree
               /\ contributes
                    (ImportablesAnalyzer.not_importables ImportablesAnalyzer.init)
                    y "foo".
Proof.
  apply (importable_names_come_from_the_tree (Scenario.expand 0) (Scenario.visit 0)
           Scenario.module_tree ImportablesAnalyzer.init eq_refl
           (forall_descendants Scenario.module_tree wildcard_free eq_refl
              ltac:(decide_by_computation))).
  in_set.
Defined.

Lemma name_target_in_definition_excluded_witness :
  "f" ∈ ImportablesAnalyzer.stats ImportablesAnalyzer.init
  \/ exists y, descendant y Scenario.def_f_name
               /\ oid_of y <> oid_of Sample.name_x
               /\ contributes
                    (ImportablesAnalyzer.not_importables ImportablesAnalyzer.init)
                    y "f".
Proof.
  apply (name_target_in_definition_excluded (Scenario.expand 0) (Scenario.visit 0)
           Scenario.def_f_name Sample.def_f_x Sample.assign_x Sample.name_x
           ImportablesAnalyzer.init "f").
  - reflexivity.
  - apply forall_descendants; [ reflexivity | ]. decide_by_computation.
  - apply preorder_descendant, list_elem_of_In. vm_compute. tauto.
  - reflexivity.
  - apply list_elem_of_In. vm_compute. tauto.
  - reflexivity.
  - apply list_elem_of_In. vm_compute. tauto.
  - reflexivity.
  - unfold occurs_once. decide_by_computation.
  - in_set.
Defined.

Lemma pruner_only_blanks_lines_witness :
  length Scenario.if_else_pruned = length Scenario.if_else_lines
  /\ forall (i : nat) (line : string),
       Scenario.if_else_pruned !! i = Some line ->
       line = EMPTY \/ Scenario.if_else_lines !! i = Some line.
Proof.
  apply (pruner_only_blanks_lines Scenario.ast_parse).
  vm_compute. reflexivity.
Defined.

Lemma pruner_keeps_lines_without_spare_pass_witness :
  remove_useless_passes Scenario.ast_parse Scenario.if_pass_lines
  = inr Scenario.if_pass_lines.
Proof.
  apply (pruner_keeps_lines_without_spare_pass Scenario.ast_parse
           Scenario.if_pass_lines Scenario.if_pass_tree).
  - vm_compute. reflexivity.
  - apply (forall_descendants Scenario.if_pass_tree
             (fun parent =>
                (exists child, child ∈ iter_child_nodes parent
                               /\ isinstance child "Pass" = true) ->
                forall body_len,
                  py_len (dict_get parent "body") = Some body_len ->
                  (body_len <= 1)%nat));
      [ reflexivity | ].
    let l := eval vm_compute in (preorder Scenario.if_pass_tree) in
    change (preorder Scenario.if_pass_tree) with l.
    each_node ltac:(intros _ body_len Hlen; vm_compute in Hlen;
                    first [ discriminate Hlen | injection Hlen as <-; lia ]).
Defined.

Lemma get_file_ast_returns_witness :
  exists file_lines,
    Scenario.open_readlines "module.py" = inr file_lines
    /\ [] = (if false then file_lines else [])
    /\ (Scenario.ast_parse (String.concat EMPTY file_lines) true
        = inr Scenario.module_tree
        \/ exists msg,
             Scenario.ast_parse (String.concat EMPTY file_lines) true
             = inl (TypeError msg)
             /\ Scenario.ast_parse (String.concat EMPTY file_lines) false
                = inr Scenario.module_tree).
Proof.
  refine (proj2 (get_file_ast_returns Scenario.os_access Scenario.open_readlines
                   Scenario.ast_parse "module.py" false [R_OK]
                   Scenario.module_tree [] _)).
  vm_compute. reflexivity.
Defined.

(** [from gone import *], [gone.py] being a file that cannot be
    opened. *)
Lemma expand_import_star_lets_through_witness :
  Chain.expand 1 Chain.from_gone_import_star (Some "app.py")
  = (Chain.from_gone_import_star,
     inl (Builtin (OSError "No such file or directory"))).
Proof.
  refine (proj2 (proj2 (proj2 (proj2 (expand_import_star_lets_through
            Chain.get_import_from_path Scenario.os_access Chain.open_readlines
            Chain.ast_parse Scenario.ReadPermissionError_msg
            Scenario.UnparsableFile_msg
            Scenario.find_spec Scenario.create_module Scenario.dir
            1 Chain.from_gone_import_star (Some "app.py")))))
            "gone.py" (OSError "No such file or directory") _ _ _ _).
  - reflexivity.
  - reflexivity.
  - reflexivity.
  - discriminate.
Defined.

Lemma expansion_lists_the_definitions_witness :
  snd (Scenario.expand 1 Scenario.from_module_import_star (Some "app.py")) = inr tt
  /\ forall x,
       descendant x Scenario.module_tree ->
       (isinstance x "FunctionDef" || isinstance x "ClassDef") = true ->
       exists alias,
         alias ∈ list_attr
                   (fst (Scenario.expand 1 Scenario.from_module_import_star
                           (Some "app.py"))) "names"
         /\ ident_attr alias "name" = ident_attr x "name"
         /\ dict_get alias "asname" = VNone.
Proof.
  apply (expansion_lists_the_definitions
           Scenario.get_import_from_path Scenario.os_access Scenario.open_readlines
           Scenario.ast_parse Scenario.ReadPermissionError_msg Scenario.UnparsableFile_msg
           Scenario.find_spec Scenario.create_module Scenario.dir
           0 Scenario.from_module_import_star Scenario.module_tree (Some "app.py")
           "module.py" [] [Ast.alias 3 "*" None]).
  - reflexivity.
  - vm_compute. reflexivity.
  - reflexivity.
  - apply forall_descendants; [ reflexivity | ]. decide_by_computation.
  - reflexivity.
Defined.

Lemma reset_then_visit_as_new_witness :
  SideEffectsAnalyzer.has_side_effects
    (SideEffectsAnalyzer.visit Scenario.std_names Scenario.side_effect_names
       Scenario.call_then_import (SideEffectsAnalyzer.reset Sample.used_analyzer))
  = SideEffectsAnalyzer.has_side_effects
      (SideEffectsAnalyzer.visit Scenario.std_names Scenario.side_effect_names
         Scenario.call_then_import SideEffectsAnalyzer.init).
Proof.
  apply reset_then_visit_as_new.
  apply (forall_descendants Scenario.call_then_import
           (fun x => isinstance x "Call" = true ->
                     oid_of x ∉ SideEffectsAnalyzer.not_side_effect Sample.used_analyzer));
    [ reflexivity | ].
  decide_by_computation.
Defined.
